(** * Rockport: vehicle dynamics and performance calibration

    A shallow embedding of [carPhysics.js] (class [Car]) and of the
    calibration controller of [main.js] (class [CarVerificationManager]),
    followed by the properties of the design document that can be stated
    about them.

    Numbers.  JavaScript numbers are IEEE doubles.  They are modelled here
    as real numbers: the embedding describes the executions in which every
    intermediate value is finite and rounding is ignored.  A value that the
    code tests with [Number.isFinite] or coalesces with [??] is an
    [option R], [None] standing for null, undefined or a non-finite number.
    Integers that the code uses as indices or counters ([gearIndex],
    iteration counts) are [Z] or [nat].

    Exceptions.  The embedded code throws in one place: the [Car]
    constructor calls [driveType.toUpperCase()], which is a TypeError when
    a specification gives [driveType] a value that is not a string.
    [runCalibration] lets it through and [verifyAllCars] catches it. *)

From Stdlib Require Import Reals Lra Lia ZArith List Ascii String Bool.
From stdpp Require Import base option gmap strings.
Import ListNotations.

Local Open Scope R_scope.

(** ** JavaScript arithmetic *)

Module JS.

Definition ltb (a b : R) : bool := if Rlt_dec a b then true else false.
Definition leb (a b : R) : bool := if Rle_dec a b then true else false.
Definition gtb (a b : R) : bool := ltb b a.
Definition geb (a b : R) : bool := leb b a.

(** [Math.max(min, Math.min(max, value))], the body of [clamp] in
    carPhysics.js and of [clampToRange] in main.js. *)
Definition clamp (value min max : R) : R := Rmax min (Rmin max value).

(** [sign] of carPhysics.js; on finite numbers [Math.sign] is the same. *)
Definition sign (value : R) : R :=
  if ltb 0 value then 1 else if ltb value 0 then -1 else 0.

(** [Math.hypot(x, y)]. *)
Definition hypot (a b : R) : R := sqrt (a * a + b * b).

(** [Math.pow(base, e)] and [base ** e] for a non-negative base and a
    positive exponent, which is how the program calls them:
    [Math.pow(0, e)] is 0. *)
Definition pow (base e : R) : R := if ltb 0 base then Rpower base e else 0.

(** [Math.trunc]. *)
Definition trunc (a : R) : Z :=
  if leb 0 a then Zfloor a else (- Zfloor (- a))%Z.

(** The remainder operator [a % b]: the result has the sign of the
    dividend. *)
Definition rem (a b : R) : R := a - b * IZR (trunc (a / b)).

(** [Math.atan2(y, x)]. *)
Definition atan2 (b a : R) : R :=
  if ltb 0 a then atan (b / a)
  else if ltb a 0 then (if leb 0 b then atan (b / a) + PI else atan (b / a) - PI)
  else if ltb 0 b then PI / 2
  else if ltb b 0 then - (PI / 2)
  else 0.

(** [value ?? fallback]. *)
Definition coalesce {A} (value : option A) (fallback : A) : A :=
  match value with Some v => v | None => fallback end.

(** [value > bound] for a value that may be undefined: false then. *)
Definition opt_gtb (value : option R) (bound : R) : bool :=
  match value with Some v => gtb v bound | None => false end.

End JS.

Notation "a <? b" := (JS.ltb a b) : R_scope.
Notation "a <=? b" := (JS.leb a b) : R_scope.
Notation "a >? b" := (JS.gtb a b) : R_scope.
Notation "a >=? b" := (JS.geb a b) : R_scope.

(** ** carPhysics.js *)

Module Vector.

Record t := mk { x_ : R; y_ : R }.

Definition createVector : t := mk 0 0.
Definition addScaledInPlace (target source : t) (scale : R) : t :=
  mk (x_ target + x_ source * scale) (y_ target + y_ source * scale).
Definition scaleInPlace (vector : t) (scale : R) : t :=
  mk (x_ vector * scale) (y_ vector * scale).
Definition length (vector : t) : R := JS.hypot (x_ vector) (y_ vector).
Definition dot (a b : t) : R := x_ a * x_ b + y_ a * y_ b.
Definition normalize (vector : t) : t :=
  let len := length vector in
  if len <? 1e-9 then mk 0 0 else mk (x_ vector / len) (y_ vector / len).

End Vector.

(** The four wheels, in the order of the arrays of the source:
    front-left, front-right, rear-left, rear-right. *)
Record Wheels (A : Type) := mkWheels { FL : A; FR : A; RL : A; RR : A }.
Arguments mkWheels {A}.
Arguments FL {A}.
Arguments FR {A}.
Arguments RL {A}.
Arguments RR {A}.

Inductive wheel := W_FL | W_FR | W_RL | W_RR.

Module Wheel.
Definition get {A} (w : Wheels A) (i : wheel) : A :=
  match i with W_FL => FL w | W_FR => FR w | W_RL => RL w | W_RR => RR w end.
Definition map {A B} (f : A -> B) (w : Wheels A) : Wheels B :=
  mkWheels (f (FL w)) (f (FR w)) (f (RL w)) (f (RR w)).
(** [i < 2] in the wheel loop. *)
Definition isFront (i : wheel) : bool :=
  match i with W_FL | W_FR => true | _ => false end.
(** [array.slice(0, 4)] of an array with at least four entries. *)
Definition ofList (l : list R) : option (Wheels R) :=
  match l with
  | a :: b :: c :: d :: _ => Some (mkWheels a b c d)
  | _ => None
  end.
End Wheel.

Module Physics.

Definition G : R := 9.81.
Definition AIR_DENSITY : R := 1.225.

Record Tire := mkTire {
  name : string;
  gripCoefficient : R;
  hasTraction : bool;
  normalLoad : R;
  combinedForce : Vector.t
}.

(** [new Tire(name, gripCoefficient)]. *)
Definition newTire (name : string) (gripCoefficient : R) : Tire :=
  mkTire name gripCoefficient true 0 Vector.createVector.

(** The merged configuration [this.config] of a car.  The grip array has
    its four entries; [tireLateralGrips] is null or an array of any
    length; [revLimiterRpm] is absent from the defaults. *)
Record CarConfig := mkCarConfig {
  massKg : R;
  driveType : string;
  gearRatios : list R;
  finalDriveRatio : R;
  horsepower : R;
  peakTorqueNm : R;
  brakeHorsepower : R;
  dragCoefficient : R;
  downforceCoefficient : R;
  frontalAreaM2 : R;
  wheelRadiusM : R;
  tireGrips : Wheels R;
  tireLateralGrips : option (list R);
  tireLateralGripFactor : R;
  brakeTorquePerWheelNm : list R;
  brakeBiasFront : R;
  wheelbaseM : R;
  cgHeightM : R;
  trackWidthM : R;
  frontWeightDistribution : R;
  drivetrainEfficiency : R;
  rollingResistanceCoeff : R;
  revLimiterRpm : option R
}.

Definition defaultCarConfig : CarConfig := {|
  massKg := 1450;
  driveType := "RWD";
  gearRatios := [0.0; 3.54; 2.12; 1.49; 1.21; 1.0; 0.84];
  finalDriveRatio := 3.42;
  horsepower := 420;
  peakTorqueNm := 530;
  brakeHorsepower := 360;
  dragCoefficient := 0.32;
  downforceCoefficient := 1.1;
  frontalAreaM2 := 2.2;
  wheelRadiusM := 0.32;
  tireGrips := mkWheels 1.05 1.05 1.1 1.1;
  tireLateralGrips := None;
  tireLateralGripFactor := 1.12;
  brakeTorquePerWheelNm := [4200; 4200; 3200; 3200];
  brakeBiasFront := 0.6;
  wheelbaseM := 2.8;
  cgHeightM := 0.55;
  trackWidthM := 1.55;
  frontWeightDistribution := 0.52;
  drivetrainEfficiency := 0.9;
  rollingResistanceCoeff := 0.015;
  revLimiterRpm := None
|}.

(** A configuration object as callers pass it: any key may be absent
    ([None]). *)
Record CarConfigInput := mkCarConfigInput {
  in_massKg : option R;
  in_driveType : option string;
  in_gearRatios : option (list R);
  in_finalDriveRatio : option R;
  in_horsepower : option R;
  in_peakTorqueNm : option R;
  in_brakeHorsepower : option R;
  in_dragCoefficient : option R;
  in_downforceCoefficient : option R;
  in_frontalAreaM2 : option R;
  in_wheelRadiusM : option R;
  in_tireGrips : option (Wheels R);
  in_tireLateralGrips : option (list R);
  in_tireLateralGripFactor : option R;
  in_brakeTorquePerWheelNm : option (list R);
  in_brakeBiasFront : option R;
  in_wheelbaseM : option R;
  in_cgHeightM : option R;
  in_trackWidthM : option R;
  in_frontWeightDistribution : option R;
  in_drivetrainEfficiency : option R;
  in_rollingResistanceCoeff : option R;
  in_revLimiterRpm : option R
}.

Definition emptyConfig : CarConfigInput :=
  mkCarConfigInput None None None None None None None None None None None None
                   None None None None None None None None None None None.

(** [{ ...defaultCarConfig(), ...config }]. *)
Definition mergeConfig (cfg : CarConfigInput) : CarConfig :=
  let d := defaultCarConfig in
  {| massKg := JS.coalesce (in_massKg cfg) (massKg d);
     driveType := JS.coalesce (in_driveType cfg) (driveType d);
     gearRatios := JS.coalesce (in_gearRatios cfg) (gearRatios d);
     finalDriveRatio := JS.coalesce (in_finalDriveRatio cfg) (finalDriveRatio d);
     horsepower := JS.coalesce (in_horsepower cfg) (horsepower d);
     peakTorqueNm := JS.coalesce (in_peakTorqueNm cfg) (peakTorqueNm d);
     brakeHorsepower := JS.coalesce (in_brakeHorsepower cfg) (brakeHorsepower d);
     dragCoefficient := JS.coalesce (in_dragCoefficient cfg) (dragCoefficient d);
     downforceCoefficient := JS.coalesce (in_downforceCoefficient cfg) (downforceCoefficient d);
     frontalAreaM2 := JS.coalesce (in_frontalAreaM2 cfg) (frontalAreaM2 d);
     wheelRadiusM := JS.coalesce (in_wheelRadiusM cfg) (wheelRadiusM d);
     tireGrips := JS.coalesce (in_tireGrips cfg) (tireGrips d);
     tireLateralGrips :=
       match in_tireLateralGrips cfg with Some l => Some l | None => tireLateralGrips d end;
     tireLateralGripFactor := JS.coalesce (in_tireLateralGripFactor cfg) (tireLateralGripFactor d);
     brakeTorquePerWheelNm := JS.coalesce (in_brakeTorquePerWheelNm cfg) (brakeTorquePerWheelNm d);
     brakeBiasFront := JS.coalesce (in_brakeBiasFront cfg) (brakeBiasFront d);
     wheelbaseM := JS.coalesce (in_wheelbaseM cfg) (wheelbaseM d);
     cgHeightM := JS.coalesce (in_cgHeightM cfg) (cgHeightM d);
     trackWidthM := JS.coalesce (in_trackWidthM cfg) (trackWidthM d);
     frontWeightDistribution :=
       JS.coalesce (in_frontWeightDistribution cfg) (frontWeightDistribution d);
     drivetrainEfficiency := JS.coalesce (in_drivetrainEfficiency cfg) (drivetrainEfficiency d);
     rollingResistanceCoeff :=
       JS.coalesce (in_rollingResistanceCoeff cfg) (rollingResistanceCoeff d);
     revLimiterRpm := in_revLimiterRpm cfg |}.

(** What the constructor computes once and [update] only reads. *)
Record CarParams := mkCarParams {
  config : CarConfig;
  pixelsPerMeter : R;
  longitudinalGripCoeffs : Wheels R;
  lateralGripCoeffs : Wheels R;
  idleRpm : R;
  peakRpm : R;
  redlineRpm : R;
  upshiftRpm : R;
  downshiftRpm : R;
  driveSplitFront : R;
  driveSplitRear : R;
  lf : R;
  lr : R;
  inertia : R;
  reverseGearRatio : R;
  limiterRpm : R;
  carBrakeBiasFront : R;
  carBrakeTorquePerWheelNm : Wheels R
}.

(** The fields of a car that change after construction. *)
Record VehicleState := mkVehicleState {
  position : Vector.t;
  velocity : Vector.t;
  heading : R;
  angularVelocity : R;
  steerAngle : R;
  tires : Wheels Tire;
  gearIndex : Z;
  engineRpm : R;
  throttle : R;
  brake : R;
  lastLongitudinalAccel : R;
  lastLateralAccel : R;
  reverseMode : bool;
  manualMode : bool;
  revLimiterActive : bool
}.

Record Car := mkCar { params : CarParams; state : VehicleState }.

(** [options] of the constructor; [None] is an absent option. *)
Record CarOptions := mkCarOptions {
  opt_pixelsPerMeter : option R;
  opt_position : option Vector.t;
  opt_heading : option R;
  opt_manualMode : option bool
}.

Definition noOptions : CarOptions := mkCarOptions None None None None.

(** [value.toUpperCase()], on ASCII. *)
Definition upperChar (c : Ascii.ascii) : Ascii.ascii :=
  let n := Ascii.nat_of_ascii c in
  if (Nat.leb 97 n && Nat.leb n 122)%bool then Ascii.ascii_of_nat (n - 32) else c.

Fixpoint toUpperCase (s : string) : string :=
  match s with
  | EmptyString => EmptyString
  | String c rest => String (upperChar c) (toUpperCase rest)
  end.

(** [latSource[index % latSource.length]] for index 0..3 of a non-empty
    array. *)
Definition cycle4 (latSource : list R) : Wheels R :=
  let at_ (index : nat) := nth (index mod List.length latSource) latSource 0 in
  mkWheels (at_ 0%nat) (at_ 1%nat) (at_ 2%nat) (at_ 3%nat).

Definition constructorParams (cfg : CarConfig) (options : CarOptions) : CarParams :=
  let longitudinalGripCoeffs := tireGrips cfg in
  let lateralFactor := Rmax 1.02 (tireLateralGripFactor cfg) in
  let lateralGripCoeffs :=
    match tireLateralGrips cfg with
    | Some latSource =>
        match Wheel.ofList latSource with
        | Some firstFour => firstFour
        | None =>
            match latSource with
            | _ :: _ => cycle4 latSource
            | [] => Wheel.map (fun value => value * lateralFactor) longitudinalGripCoeffs
            end
        end
    | None => Wheel.map (fun value => value * lateralFactor) longitudinalGripCoeffs
    end in
  let idleRpm := 900 in
  let peakRpm :=
    Rmax 2500 (((horsepower cfg * 745.7) / (peakTorqueNm cfg + 1e-6)) * (60 / (2 * PI))) in
  let redlineRpm := peakRpm * 1.15 in
  let upshiftRpm := redlineRpm * 0.95 in
  let downshiftRpm := peakRpm * 0.6 in
  let driveSplit :=
    if String.eqb (toUpperCase (driveType cfg)) "FWD" then (1, 0)
    else if String.eqb (toUpperCase (driveType cfg)) "AWD" then (0.45, 0.55)
    else (0, 1) in
  let driveSplitFront := driveSplit.1 in
  let driveSplitRear := driveSplit.2 in
  let lf := wheelbaseM cfg * frontWeightDistribution cfg in
  let lr := wheelbaseM cfg - lf in
  let inertia :=
    (massKg cfg * (wheelbaseM cfg * wheelbaseM cfg + trackWidthM cfg * trackWidthM cfg)) / 12 in
  let firstDriveIndex := if (1 <? List.length (gearRatios cfg))%nat then 1%nat else 0%nat in
  let firstDriveRatio := JS.coalesce (nth_error (gearRatios cfg) firstDriveIndex) 0 in
  let reverseGearRatio := Rabs firstDriveRatio in
  let revLimiter := JS.coalesce (revLimiterRpm cfg) 7000 in
  let limited :=
    if revLimiter >? 0 then
      let limiter := revLimiter in
      let redline2 := Rmin redlineRpm (limiter * 0.995) in
      let upshift2 := Rmin upshiftRpm (limiter * 0.97) in
      let downshift2 := if downshiftRpm >=? upshift2 then upshift2 * 0.55 else downshiftRpm in
      (redline2, upshift2, downshift2)
    else (redlineRpm, upshiftRpm, downshiftRpm) in
  let redlineRpm' := limited.1.1 in
  let upshiftRpm' := limited.1.2 in
  let downshiftRpm' := limited.2 in
  let brakeBias := brakeBiasFront cfg in
  let fallbackBrakeTorque :=
    let wheelRadius := wheelRadiusM cfg in
    let brakeHp := brakeHorsepower cfg in
    let totalForce := (brakeHp * 745.7) / 30 in
    let frontForce := totalForce * brakeBias in
    let rearForce := totalForce - frontForce in
    let frontTorque := (frontForce / 2) * wheelRadius in
    let rearTorque := (rearForce / 2) * wheelRadius in
    mkWheels frontTorque frontTorque rearTorque rearTorque in
  let brakeTorque :=
    match Wheel.ofList (brakeTorquePerWheelNm cfg) with
    | Some firstFour => firstFour
    | None => fallbackBrakeTorque
    end in
  {| config := cfg;
     pixelsPerMeter := JS.coalesce (opt_pixelsPerMeter options) 16;
     longitudinalGripCoeffs := longitudinalGripCoeffs;
     lateralGripCoeffs := lateralGripCoeffs;
     idleRpm := idleRpm;
     peakRpm := peakRpm;
     redlineRpm := redlineRpm';
     upshiftRpm := upshiftRpm';
     downshiftRpm := downshiftRpm';
     driveSplitFront := driveSplitFront;
     driveSplitRear := driveSplitRear;
     lf := lf;
     lr := lr;
     inertia := inertia;
     reverseGearRatio := reverseGearRatio;
     limiterRpm := revLimiter;
     carBrakeBiasFront := brakeBias;
     carBrakeTorquePerWheelNm := brakeTorque |}.

Definition constructorState (cfg : CarConfig) (options : CarOptions) : VehicleState :=
  let ppm := JS.coalesce (opt_pixelsPerMeter options) 16 in
  let startPosition := JS.coalesce (opt_position options) (Vector.mk 0 0) in
  let startHeading := JS.coalesce (opt_heading options) 0 in
  let grips := tireGrips cfg in
  {| position := Vector.mk (Vector.x_ startPosition / ppm) (Vector.y_ startPosition / ppm);
     velocity := Vector.createVector;
     heading := startHeading;
     angularVelocity := 0;
     steerAngle := 0;
     tires := mkWheels (newTire "Front-Left" (FL grips)) (newTire "Front-Right" (FR grips))
                       (newTire "Rear-Left" (RL grips)) (newTire "Rear-Right" (RR grips));
     gearIndex := Z.min 1 (Z.of_nat (List.length (gearRatios cfg)) - 1);
     engineRpm := 900;
     throttle := 0;
     brake := 0;
     lastLongitudinalAccel := 0;
     lastLateralAccel := 0;
     reverseMode := false;
     manualMode := JS.coalesce (opt_manualMode options) false;
     revLimiterActive := false |}.

(** [new Car(config, options)]. *)
Definition newCar (cfg : CarConfigInput) (options : CarOptions) : Car :=
  let merged := mergeConfig cfg in
  mkCar (constructorParams merged options) (constructorState merged options).

Definition forwardVector (s : VehicleState) : Vector.t :=
  Vector.mk (cos (heading s)) (sin (heading s)).

Definition rightVector (s : VehicleState) : Vector.t :=
  let forward := forwardVector s in
  Vector.mk (- Vector.y_ forward) (Vector.x_ forward).

Definition getSpeedMetersPerSecond (c : Car) : R := Vector.length (velocity (state c)).

Definition getWorldPosition (c : Car) : Vector.t :=
  Vector.mk (Vector.x_ (position (state c)) * pixelsPerMeter (params c))
            (Vector.y_ (position (state c)) * pixelsPerMeter (params c)).

(** [resetState({ position, heading })] with both members given. *)
Definition resetState (c : Car) (pos : Vector.t) (newHeading : R) : Car :=
  let p := params c in
  let s := state c in
  mkCar p
    {| position := Vector.mk (Vector.x_ pos / pixelsPerMeter p) (Vector.y_ pos / pixelsPerMeter p);
       velocity := Vector.mk 0 0;
       heading := newHeading;
       angularVelocity := 0;
       steerAngle := steerAngle s;
       tires := tires s;
       gearIndex := gearIndex s;
       engineRpm := idleRpm p;
       throttle := 0;
       brake := 0;
       lastLongitudinalAccel := lastLongitudinalAccel s;
       lastLateralAccel := lastLateralAccel s;
       reverseMode := false;
       manualMode := manualMode s;
       revLimiterActive := revLimiterActive s |}.

(** Returns [(drag, downforce)]. *)
Definition computeAeroForces (p : CarParams) (speed : R) (backwards : bool) : R * R :=
  let cfg := config p in
  let drag :=
    0.5 * AIR_DENSITY * dragCoefficient cfg * (if backwards then 2 else 1)
    * frontalAreaM2 cfg * speed * speed in
  let downforceScale := JS.clamp ((speed * 2.237) / 40) 0 1 in
  let downforce :=
    0.5 * AIR_DENSITY * downforceCoefficient cfg * frontalAreaM2 cfg
    * speed * speed * downforceScale in
  (drag, downforce).

Definition updatePowertrain (p : CarParams) (s : VehicleState) (throttleInput vLong dt : R)
  : VehicleState :=
  let cfg := config p in
  let throttleRate := 4 in
  let target := JS.clamp throttleInput (-1) 1 in
  let throttle1 :=
    JS.clamp (throttle s + (target - throttle s) * JS.clamp (dt * throttleRate) 0 1) (-1) 1 in
  let speedAbs := Rabs vLong in
  let mode :=
    if manualMode s then ((gearIndex s =? -1)%Z, throttle1, gearIndex s)
    else if reverseMode s then
      if (throttle1 >? 0.1) && (speedAbs <? 0.6)
      then (false, JS.clamp throttle1 0 1, gearIndex s)
      else (true, throttle1, gearIndex s)
    else if (throttle1 <? -0.1) && (speedAbs <? 0.6)
      then (true, throttle1, if (gearIndex s <? 1)%Z then 1%Z else gearIndex s)
      else (false, throttle1, gearIndex s) in
  let reverseMode1 := mode.1.1 in
  let throttle2 := mode.1.2 in
  let gearIndex1 := mode.2 in
  let forwardGearIndex := Z.max 0 gearIndex1 in
  let effectiveGearRatio :=
    if reverseMode1 then Some (reverseGearRatio p)
    else nth_error (gearRatios cfg) (Z.to_nat forwardGearIndex) in
  let wheelRadius := wheelRadiusM cfg in
  let finalDrive := finalDriveRatio cfg in
  let engineRpm1 :=
    if JS.opt_gtb effectiveGearRatio 0 && (speedAbs >? 0.1) then
      let wheelAngularSpeed := speedAbs / wheelRadius in
      Rmax (idleRpm p)
           (Rabs (wheelAngularSpeed * JS.coalesce effectiveGearRatio 0 * finalDrive * 60
                  / (2 * PI)))
    else Rmax (engineRpm s * 0.98) (idleRpm p) in
  let limiter :=
    if engineRpm1 >? limiterRpm p then
      (true, limiterRpm p,
       if Rabs throttle2 >? 0.7 then
         let signThrottle := if throttle2 >=? 0 then 1 else -1 in
         signThrottle * Rabs throttle2 * 0.6
       else throttle2)
    else (false, engineRpm1, throttle2) in
  let revLimiterActive1 := limiter.1.1 in
  let engineRpm2 := limiter.1.2 in
  let throttle3 := limiter.2 in
  let gearIndex2 :=
    if negb (manualMode s) && negb reverseMode1 then
      if (engineRpm2 >? upshiftRpm p)
         && (gearIndex1 <? Z.of_nat (List.length (gearRatios cfg)) - 1)%Z
      then (gearIndex1 + 1)%Z
      else if (engineRpm2 <? downshiftRpm p) && (gearIndex1 >? 1)%Z && (throttle3 <? 0.8)
      then (gearIndex1 - 1)%Z
      else gearIndex1
    else gearIndex1 in
  {| position := position s;
     velocity := velocity s;
     heading := heading s;
     angularVelocity := angularVelocity s;
     steerAngle := steerAngle s;
     tires := tires s;
     gearIndex := gearIndex2;
     engineRpm := engineRpm2;
     throttle := throttle3;
     brake := brake s;
     lastLongitudinalAccel := lastLongitudinalAccel s;
     lastLateralAccel := lastLateralAccel s;
     reverseMode := reverseMode1;
     manualMode := manualMode s;
     revLimiterActive := revLimiterActive1 |}.

Definition torqueAtRpm (p : CarParams) (rpm : R) : R :=
  let cfg := config p in
  let limiterRpm := limiterRpm p in
  let idle := idleRpm p in
  let peak := peakRpm p in
  let effectiveRpm := JS.clamp rpm idle (limiterRpm + 600) in
  if effectiveRpm <=? peak then
    let ratio := JS.clamp ((effectiveRpm - idle) / Rmax 1 (peak - idle)) 0 1 in
    let shaped := JS.pow ratio 1.25 in
    let torqueFactor := 0.65 + 0.35 * shaped in
    peakTorqueNm cfg * JS.clamp torqueFactor 0.45 1.05
  else if effectiveRpm <=? limiterRpm then
    let torqueFromHp := (horsepower cfg * 5252) / Rmax effectiveRpm 1 in
    let minTorque := peakTorqueNm cfg * 0.45 in
    JS.clamp torqueFromHp minTorque (peakTorqueNm cfg)
  else
    let overshoot := JS.clamp ((effectiveRpm - limiterRpm) / 600) 0 1 in
    peakTorqueNm cfg * JS.clamp (0.12 * (1 - overshoot)) 0.05 0.12.

(** Returns the state with the smoothed brake, [driveForce] and
    [brakeForces]. *)
Definition computeLongitudinalForces (p : CarParams) (s : VehicleState)
    (brakeInput dt vLong : R) : VehicleState * R * Wheels R :=
  let cfg := config p in
  let brakeRate := 6 in
  let brake1 :=
    JS.clamp (brake s + (brakeInput - brake s) * JS.clamp (dt * brakeRate) 0 1) 0 1 in
  let gearRatio :=
    if reverseMode s then Some (reverseGearRatio p)
    else
      let forwardGearIndex := Z.max 0 (gearIndex s) in
      nth_error (gearRatios cfg) (Z.to_nat forwardGearIndex) in
  let driveForce0 :=
    if JS.opt_gtb gearRatio 0 then
      let throttleMagnitude :=
        if reverseMode s then Rabs (throttle s) else Rmax (throttle s) 0 in
      let torque :=
        torqueAtRpm p (engineRpm s) * throttleMagnitude * drivetrainEfficiency cfg in
      if torque >? 0 then
        let baseForce :=
          (torque * JS.coalesce gearRatio 0 * finalDriveRatio cfg)
          / (wheelRadiusM cfg + 1e-6) in
        if reverseMode s then - baseForce else baseForce
      else 0
    else 0 in
  let driveForce :=
    if revLimiterActive s && (Rabs driveForce0 >? 0) then driveForce0 * 0.15
    else driveForce0 in
  let wheelRadius := wheelRadiusM cfg + 1e-6 in
  let brakeFraction := brake1 in
  let brakeForces :=
    Wheel.map (fun torque => (torque * brakeFraction) / wheelRadius)
              (carBrakeTorquePerWheelNm p) in
  ({| position := position s;
      velocity := velocity s;
      heading := heading s;
      angularVelocity := angularVelocity s;
      steerAngle := steerAngle s;
      tires := tires s;
      gearIndex := gearIndex s;
      engineRpm := engineRpm s;
      throttle := throttle s;
      brake := brake1;
      lastLongitudinalAccel := lastLongitudinalAccel s;
      lastLateralAccel := lastLateralAccel s;
      reverseMode := reverseMode s;
      manualMode := manualMode s;
      revLimiterActive := revLimiterActive s |},
   driveForce, brakeForces).

(** The values [update] has computed when it enters the wheel loop
    (lines 477-610 of carPhysics.js). *)
Record TireSetup := mkTireSetup {
  ts_state : VehicleState;
  ts_forward : Vector.t;
  ts_right : Vector.t;
  ts_speed : R;
  ts_dragForce : R;
  ts_tireNormals : Wheels R;
  ts_frontGripBonus : R;
  ts_tireForcesLong : Wheels R;
  ts_tireForcesLat : Wheels R;
  ts_wheelPositions : Wheels Vector.t
}.

Definition tireSetup (c : Car) (throttleInput brakeInput steerInput dt : R) : TireSetup :=
  let p := params c in
  let s := state c in
  let cfg := config p in
  let forward := forwardVector s in
  let right := rightVector s in
  let vLong := Vector.dot (velocity s) forward in
  let vLat := Vector.dot (velocity s) right in
  let speed := Vector.length (velocity s) in
  let s1 := updatePowertrain p s throttleInput vLong dt in
  let baseMaxSteer := PI / 6 in
  let steerRate := 5 in
  let speedMph := speed * 2.237 in
  let reduction := JS.clamp (speedMph - 25) 0 160 in
  let speedFactor := 1 - JS.clamp (JS.pow reduction 1.2 / 200) 0 0.9 in
  let dynamicMaxSteer := baseMaxSteer * speedFactor in
  let targetSteer := JS.clamp steerInput (-1) 1 * dynamicMaxSteer in
  let steerAngle1 :=
    steerAngle s1 + (targetSteer - steerAngle s1) * JS.clamp (dt * steerRate) 0 1 in
  let backwardsMotion := vLong <? -0.2 in
  let aero := computeAeroForces p speed backwardsMotion in
  let dragForce := aero.1 in
  let downforce := aero.2 in
  let longitudinal := computeLongitudinalForces p s1 brakeInput dt vLong in
  let s2 := longitudinal.1.1 in
  let driveForce := longitudinal.1.2 in
  let brakeForces := longitudinal.2 in
  let weight := massKg cfg * G in
  let frontStatic := weight * frontWeightDistribution cfg in
  let rearStatic := weight - frontStatic in
  let downforceFront := downforce * frontWeightDistribution cfg in
  let downforceRear := downforce - downforceFront in
  let longitudinalTransfer :=
    (massKg cfg * lastLongitudinalAccel s2 * cgHeightM cfg) / Rmax 0.1 (wheelbaseM cfg) in
  let frontAxleLoad := frontStatic + downforceFront - longitudinalTransfer in
  let rearAxleLoad := rearStatic + downforceRear + longitudinalTransfer in
  let lateralBias :=
    JS.clamp ((lastLateralAccel s2 * cgHeightM cfg) / (G * Rmax 0.1 (trackWidthM cfg)))
             (-0.45) 0.45 in
  let tireNormals :=
    mkWheels (Rmax 0 (frontAxleLoad * 0.5 * (1 + lateralBias)))
             (Rmax 0 (frontAxleLoad * 0.5 * (1 - lateralBias)))
             (Rmax 0 (rearAxleLoad * 0.5 * (1 + lateralBias)))
             (Rmax 0 (rearAxleLoad * 0.5 * (1 - lateralBias))) in
  let frontAlignment :=
    if speed >? 0.5 then
      let invSpeed := 1 / speed in
      let momentumDir :=
        Vector.mk (Vector.x_ (velocity s2) * invSpeed) (Vector.y_ (velocity s2) * invSpeed) in
      let frontDir :=
        Vector.mk (cos (heading s2 + steerAngle1)) (sin (heading s2 + steerAngle1)) in
      JS.clamp (Vector.dot frontDir momentumDir) 0 1
    else 0 in
  let brakingForward := (brake s2 >? 0.05) && (vLong >? 0.2) in
  let frontGripBonus :=
    frontAlignment * 0.8 + (if brakingForward then brake s2 * 0.55 else 0.1) in
  let slipAngles :=
    if Rabs vLong >? 0.5 then
      (JS.atan2 (vLat + angularVelocity s2 * lf p) (Rabs vLong) - steerAngle1 * JS.sign vLong,
       JS.atan2 (vLat - angularVelocity s2 * lr p) (Rabs vLong))
    else if speed >? 0.5 then
      (JS.atan2 (vLat + angularVelocity s2 * lf p) 0.5 - steerAngle1,
       JS.atan2 (vLat - angularVelocity s2 * lr p) 0.5)
    else (0, 0) in
  let slipAngleFront := slipAngles.1 in
  let slipAngleRear := slipAngles.2 in
  let corneringStiffnessFront := 80000 in
  let corneringStiffnessRear := 90000 in
  let frontTotalLat0 := - corneringStiffnessFront * slipAngleFront in
  let rearTotalLat0 := - corneringStiffnessRear * slipAngleRear in
  let maxFrontLat :=
    FL (lateralGripCoeffs p) * FL tireNormals + FR (lateralGripCoeffs p) * FR tireNormals in
  let maxRearLat :=
    RL (lateralGripCoeffs p) * RL tireNormals + RR (lateralGripCoeffs p) * RR tireNormals in
  let frontTotalLat := JS.clamp frontTotalLat0 (- maxFrontLat) maxFrontLat in
  let rearTotalLat := JS.clamp rearTotalLat0 (- maxRearLat) maxRearLat in
  let driveFront := driveForce * driveSplitFront p in
  let driveRear := driveForce * driveSplitRear p in
  let driveFrontPerWheel := driveFront * 0.5 in
  let driveRearPerWheel := driveRear * 0.5 in
  let brakeDirection0 := JS.sign vLong in
  let brakeDirection := if Rabs brakeDirection0 <? 0.1 then 1 else brakeDirection0 in
  let tireForcesLong :=
    mkWheels (driveFrontPerWheel - brakeDirection * FL brakeForces)
             (driveFrontPerWheel - brakeDirection * FR brakeForces)
             (driveRearPerWheel - brakeDirection * RL brakeForces)
             (driveRearPerWheel - brakeDirection * RR brakeForces) in
  let frontLatLeft := frontTotalLat * 0.5 * (1 + lateralBias) in
  let frontLatRight := frontTotalLat * 0.5 * (1 - lateralBias) in
  let rearLatLeft := rearTotalLat * 0.5 * (1 + lateralBias) in
  let rearLatRight := rearTotalLat * 0.5 * (1 - lateralBias) in
  let tireForcesLat := mkWheels frontLatLeft frontLatRight rearLatLeft rearLatRight in
  let wheelPositions :=
    mkWheels (Vector.mk (lf p) (trackWidthM cfg * 0.5))
             (Vector.mk (lf p) (- trackWidthM cfg * 0.5))
             (Vector.mk (- lr p) (trackWidthM cfg * 0.5))
             (Vector.mk (- lr p) (- trackWidthM cfg * 0.5)) in
  {| ts_state :=
       {| position := position s2;
          velocity := velocity s2;
          heading := heading s2;
          angularVelocity := angularVelocity s2;
          steerAngle := steerAngle1;
          tires := tires s2;
          gearIndex := gearIndex s2;
          engineRpm := engineRpm s2;
          throttle := throttle s2;
          brake := brake s2;
          lastLongitudinalAccel := lastLongitudinalAccel s2;
          lastLateralAccel := lastLateralAccel s2;
          reverseMode := reverseMode s2;
          manualMode := manualMode s2;
          revLimiterActive := revLimiterActive s2 |};
     ts_forward := forward;
     ts_right := right;
     ts_speed := speed;
     ts_dragForce := dragForce;
     ts_tireNormals := tireNormals;
     ts_frontGripBonus := frontGripBonus;
     ts_tireForcesLong := tireForcesLong;
     ts_tireForcesLat := tireForcesLat;
     ts_wheelPositions := wheelPositions |}.

(** [longitudinalCap] and [lateralCap] of wheel [i] in the loop. *)
Definition longitudinalCap (p : CarParams) (normal : R) (i : wheel) : R :=
  Rmax 0 (Wheel.get (longitudinalGripCoeffs p) i * normal).

Definition latMultiplier (frontGripBonus : R) (i : wheel) : R :=
  if Wheel.isFront i then 1 + Rmax 0 frontGripBonus else 1.

Definition lateralCap (p : CarParams) (normal frontGripBonus : R) (i : wheel) : R :=
  let lateralCapBase := Rmax 0 (Wheel.get (lateralGripCoeffs p) i * normal) in
  lateralCapBase * latMultiplier frontGripBonus i.

(** [loadRatio] of the loop body. *)
Definition loadRatio (longCap latCap fLong fLat : R) : R :=
  let longRatio :=
    if longCap >? 1e-6 then (fLong / (longCap + 1e-6)) * (fLong / (longCap + 1e-6)) else 0 in
  let latRatio :=
    if latCap >? 1e-6 then (fLat / (latCap + 1e-6)) * (fLat / (latCap + 1e-6)) else 0 in
  sqrt (longRatio + latRatio).

(** The body of the wheel loop up to [setVector(tire.combinedForce, ...)]:
    the tire of wheel [i] after the friction-ellipse test. *)
Definition saturateWheel (p : CarParams) (setup : TireSetup) (i : wheel) : Tire :=
  let tire := Wheel.get (tires (ts_state setup)) i in
  let normal := Wheel.get (ts_tireNormals setup) i in
  let fLong := Wheel.get (ts_tireForcesLong setup) i in
  let fLat := Wheel.get (ts_tireForcesLat setup) i in
  let longCap := longitudinalCap p normal i in
  let latCap := lateralCap p normal (ts_frontGripBonus setup) i in
  let ratio := loadRatio longCap latCap fLong fLat in
  if (ratio >? 1) && ((longCap >? 0) || (latCap >? 0)) then
    let scale := 1 / ratio in
    {| name := name tire; gripCoefficient := gripCoefficient tire;
       hasTraction := false; normalLoad := normal;
       combinedForce := Vector.mk (fLong * scale) (fLat * scale) |}
  else
    {| name := name tire; gripCoefficient := gripCoefficient tire;
       hasTraction := true; normalLoad := normal;
       combinedForce := Vector.mk fLong fLat |}.

(** One pass of the loop: the accumulators
    [(totalLongitudinal, totalLateral, totalYawMoment)] after wheel [i]. *)
Definition accumulate (setup : TireSetup) (tire : Tire) (i : wheel) (acc : R * R * R)
  : R * R * R :=
  let totalLongitudinal := acc.1.1 in
  let totalLateral := acc.1.2 in
  let totalYawMoment := acc.2 in
  let fLong := Vector.x_ (combinedForce tire) in
  let fLat := Vector.y_ (combinedForce tire) in
  let wp := Wheel.get (ts_wheelPositions setup) i in
  (totalLongitudinal + fLong, totalLateral + fLat,
   totalYawMoment + (Vector.x_ wp * fLat - Vector.y_ wp * fLong)).

(** The wheel loop (lines 612-642): the four tires and the totals
    [(totalLongitudinal, totalLateral, totalYawMoment)]. *)
Definition wheelLoop (p : CarParams) (setup : TireSetup) : Wheels Tire * (R * R * R) :=
  let tire0 := saturateWheel p setup W_FL in
  let tire1 := saturateWheel p setup W_FR in
  let tire2 := saturateWheel p setup W_RL in
  let tire3 := saturateWheel p setup W_RR in
  (mkWheels tire0 tire1 tire2 tire3,
   accumulate setup tire3 W_RR
     (accumulate setup tire2 W_RL
       (accumulate setup tire1 W_FR
         (accumulate setup tire0 W_FL (0, 0, 0))))).

Definition update (c : Car) (throttleInput brakeInput steerInput dt : R) : Car :=
  let p := params c in
  let cfg := config p in
  let setup := tireSetup c throttleInput brakeInput steerInput dt in
  let s := ts_state setup in
  let forward := ts_forward setup in
  let right := ts_right setup in
  let speed := ts_speed setup in
  let loop := wheelLoop p setup in
  let totals := loop.2 in
  let totalLongitudinal := totals.1.1 in
  let totalLateral := totals.1.2 in
  let totalYawMoment := totals.2 in
  let forceWorld0 :=
    Vector.mk (Vector.x_ forward * totalLongitudinal + Vector.x_ right * totalLateral)
              (Vector.y_ forward * totalLongitudinal + Vector.y_ right * totalLateral) in
  let weight := massKg cfg * G in
  let forceWorld :=
    if speed >? 1e-3 then
      let velDir := Vector.normalize (velocity s) in
      let dragVec :=
        Vector.mk (- Vector.x_ velDir * ts_dragForce setup)
                  (- Vector.y_ velDir * ts_dragForce setup) in
      let rollingVec :=
        Vector.mk (- Vector.x_ velDir * (rollingResistanceCoeff cfg * weight))
                  (- Vector.y_ velDir * (rollingResistanceCoeff cfg * weight)) in
      Vector.mk (Vector.x_ forceWorld0 + Vector.x_ dragVec + Vector.x_ rollingVec)
                (Vector.y_ forceWorld0 + Vector.y_ dragVec + Vector.y_ rollingVec)
    else forceWorld0 in
  let acceleration :=
    Vector.mk (Vector.x_ forceWorld / massKg cfg) (Vector.y_ forceWorld / massKg cfg) in
  let velocity1 := Vector.addScaledInPlace (velocity s) acceleration dt in
  let position1 := Vector.addScaledInPlace (position s) velocity1 dt in
  let angularAccel := totalYawMoment / (inertia p + 1e-6) in
  let angularVelocity1 := angularVelocity s + angularAccel * dt in
  let heading1 := heading s + angularVelocity1 * dt in
  let heading2 := JS.rem (heading1 + PI) (2 * PI) - PI in
  let lastLongitudinalAccel1 := Vector.dot acceleration forward in
  let lastLateralAccel1 := Vector.dot acceleration right in
  let settled :=
    if (speed <? 0.2) && (Rabs (throttle s) <? 0.05) && (brake s >? 0.1) then
      let halved := Vector.scaleInPlace velocity1 0.5 in
      if Vector.length halved <? 0.05 then (Vector.mk 0 0, 0)
      else (halved, angularVelocity1)
    else (velocity1, angularVelocity1) in
  let velocity2 := settled.1 in
  let angularVelocity2 := settled.2 in
  mkCar p
    {| position := position1;
       velocity := velocity2;
       heading := heading2;
       angularVelocity := angularVelocity2;
       steerAngle := steerAngle s;
       tires := loop.1;
       gearIndex := gearIndex s;
       engineRpm := engineRpm s;
       throttle := throttle s;
       brake := brake s;
       lastLongitudinalAccel := lastLongitudinalAccel1;
       lastLateralAccel := lastLateralAccel1;
       reverseMode := reverseMode s;
       manualMode := manualMode s;
       revLimiterActive := revLimiterActive s |}.

(** [brakeDirection] of lines 579-586, with its fallback. *)
Definition brakeDirectionOf (vLong : R) : R :=
  if Rabs (JS.sign vLong) <? 0.1 then 1 else JS.sign vLong.

(** A car whose velocity has been set, as [restoreState] does. *)
Definition withVelocity (c : Car) (v : Vector.t) : Car :=
  let s := state c in
  mkCar (params c)
    {| position := position s;
       velocity := v;
       heading := heading s;
       angularVelocity := angularVelocity s;
       steerAngle := steerAngle s;
       tires := tires s;
       gearIndex := gearIndex s;
       engineRpm := engineRpm s;
       throttle := throttle s;
       brake := brake s;
       lastLongitudinalAccel := lastLongitudinalAccel s;
       lastLateralAccel := lastLateralAccel s;
       reverseMode := reverseMode s;
       manualMode := manualMode s;
       revLimiterActive := revLimiterActive s |}.

(** A car whose recorded longitudinal acceleration has been set, as
    [restoreState] does. *)
Definition withLongitudinalAccel (c : Car) (a : R) : Car :=
  let s := state c in
  mkCar (params c)
    {| position := position s;
       velocity := velocity s;
       heading := heading s;
       angularVelocity := angularVelocity s;
       steerAngle := steerAngle s;
       tires := tires s;
       gearIndex := gearIndex s;
       engineRpm := engineRpm s;
       throttle := throttle s;
       brake := brake s;
       lastLongitudinalAccel := a;
       lastLateralAccel := lastLateralAccel s;
       reverseMode := reverseMode s;
       manualMode := manualMode s;
       revLimiterActive := revLimiterActive s |}.

(** The heading [update] has integrated, [this.heading] after
    [this.heading += this.angularVelocity * dt] and before line 673
    normalises it. *)
Definition integratedHeading (c : Car) (throttleInput brakeInput steerInput dt : R) : R :=
  let p := params c in
  let setup := tireSetup c throttleInput brakeInput steerInput dt in
  let s := ts_state setup in
  let totalYawMoment := (wheelLoop p setup).2.2 in
  let angularAccel := totalYawMoment / (inertia p + 1e-6) in
  heading s + (angularVelocity s + angularAccel * dt) * dt.

(** The velocity [update] has integrated (line 667), before the low-speed
    settle of lines 678-684. *)
Definition integratedVelocity (c : Car) (throttleInput brakeInput steerInput dt : R)
  : Vector.t :=
  let p := params c in
  let cfg := config p in
  let setup := tireSetup c throttleInput brakeInput steerInput dt in
  let s := ts_state setup in
  let forward := ts_forward setup in
  let right := ts_right setup in
  let totals := (wheelLoop p setup).2 in
  let totalLongitudinal := totals.1.1 in
  let totalLateral := totals.1.2 in
  let forceWorld0 :=
    Vector.mk (Vector.x_ forward * totalLongitudinal + Vector.x_ right * totalLateral)
              (Vector.y_ forward * totalLongitudinal + Vector.y_ right * totalLateral) in
  let weight := massKg cfg * G in
  let forceWorld :=
    if ts_speed setup >? 1e-3 then
      let velDir := Vector.normalize (velocity s) in
      let dragVec :=
        Vector.mk (- Vector.x_ velDir * ts_dragForce setup)
                  (- Vector.y_ velDir * ts_dragForce setup) in
      let rollingVec :=
        Vector.mk (- Vector.x_ velDir * (rollingResistanceCoeff cfg * weight))
                  (- Vector.y_ velDir * (rollingResistanceCoeff cfg * weight)) in
      Vector.mk (Vector.x_ forceWorld0 + Vector.x_ dragVec + Vector.x_ rollingVec)
                (Vector.y_ forceWorld0 + Vector.y_ dragVec + Vector.y_ rollingVec)
    else forceWorld0 in
  let acceleration :=
    Vector.mk (Vector.x_ forceWorld / massKg cfg) (Vector.y_ forceWorld / massKg cfg) in
  Vector.addScaledInPlace (velocity s) acceleration dt.

(** A state with its tires replaced. *)
Definition setTires (s : VehicleState) (t : Wheels Tire) : VehicleState :=
  {| position := position s;
     velocity := velocity s;
     heading := heading s;
     angularVelocity := angularVelocity s;
     steerAngle := steerAngle s;
     tires := t;
     gearIndex := gearIndex s;
     engineRpm := engineRpm s;
     throttle := throttle s;
     brake := brake s;
     lastLongitudinalAccel := lastLongitudinalAccel s;
     lastLateralAccel := lastLateralAccel s;
     reverseMode := reverseMode s;
     manualMode := manualMode s;
     revLimiterActive := revLimiterActive s |}.

(** A state with its limiter flag replaced. *)
Definition setLimiter (s : VehicleState) (r : bool) : VehicleState :=
  {| position := position s;
     velocity := velocity s;
     heading := heading s;
     angularVelocity := angularVelocity s;
     steerAngle := steerAngle s;
     tires := tires s;
     gearIndex := gearIndex s;
     engineRpm := engineRpm s;
     throttle := throttle s;
     brake := brake s;
     lastLongitudinalAccel := lastLongitudinalAccel s;
     lastLateralAccel := lastLateralAccel s;
     reverseMode := reverseMode s;
     manualMode := manualMode s;
     revLimiterActive := r |}.

(** A tire setup whose state has its tires replaced. *)
Definition setupTires (u : TireSetup) (t : Wheels Tire) : TireSetup :=
  {| ts_state := setTires (ts_state u) t;
     ts_forward := ts_forward u;
     ts_right := ts_right u;
     ts_speed := ts_speed u;
     ts_dragForce := ts_dragForce u;
     ts_tireNormals := ts_tireNormals u;
     ts_frontGripBonus := ts_frontGripBonus u;
     ts_tireForcesLong := ts_tireForcesLong u;
     ts_tireForcesLat := ts_tireForcesLat u;
     ts_wheelPositions := ts_wheelPositions u |}.

(** The tires as the constructor makes them, name and grip kept. *)
Definition freshTires (t : Wheels Tire) : Wheels Tire :=
  Wheel.map (fun tire => newTire (name tire) (gripCoefficient tire)) t.

(** The car with the fields that [update] overwrites before it reads
    them put back to their initial values: the traction flag, normal load
    and combined force of each tire, and [revLimiterActive].  What is left
    is the configuration and the vehicle state proper. *)
Definition scrub (c : Car) : Car :=
  mkCar (params c) (setLimiter (setTires (state c) (freshTires (tires (state c)))) false).

(** A car whose limiter flag has been left set by an earlier tick. *)
Definition withLimiterFlag (c : Car) : Car :=
  mkCar (params c) (setLimiter (state c) true).

(** The arguments of one call of [update]. *)
Record Inputs := mkInputs {
  throttleInput : R;
  brakeInput : R;
  steerInput : R;
  dt : R
}.

Definition step (c : Car) (i : Inputs) : Car :=
  update c (throttleInput i) (brakeInput i) (steerInput i) (dt i).

(** A sequence of [update] calls on one car: the car after the last. *)
Definition run (c : Car) (inputs : list Inputs) : Car := fold_left step inputs c.

(** The car after each call of the sequence. *)
Fixpoint trajectory (c : Car) (inputs : list Inputs) : list Car :=
  match inputs with
  | [] => []
  | i :: rest => step c i :: trajectory (step c i) rest
  end.

(** A default car standing still with heading [h0]. *)
Definition carAtRest (h0 : R) : Car :=
  newCar emptyConfig (mkCarOptions None None (Some h0) None).

(** A default car standing still whose recorded longitudinal acceleration
    leaves 1e-6 N on the front axle: the static front load is
    [1450 * 9.81 * 0.52] and the transfer is [1450 * a * 0.55 / 2.8]. *)
Definition frontLightCar : Car :=
  withLongitudinalAccel (carAtRest 0)
    ((1450 * 9.81 * 0.52 - 1e-6) * 2.8 / (1450 * 0.55)).

(** A default car rolling forward at 0.04 m/s, pedals released. *)
Definition creepingCar : Car := withVelocity (carAtRest 0) (Vector.mk 0.04 0).

(** A 300 hp, 200 N.m engine with the default limiter of 7000 rpm: its peak
    lies above 7200 rpm. *)
Definition highRevConfig : CarConfigInput :=
  mkCarConfigInput None None None None (Some 300) (Some 200) None None None None None None
                   None None None None None None None None None None None.

(** The gear index of an automatic car is a forward gear of its ratio list. *)
Definition gear_in_range (c : Car) : Prop :=
  (1 <= gearIndex (state c) <= Z.of_nat (List.length (gearRatios (config (params c)))) - 1)%Z
  /\ manualMode (state c) = false.

End Physics.

(** ** main.js: the values of a specification *)

(** The values found in a car specification: numbers (finite or not),
    strings, booleans, null, undefined, arrays and plain objects. *)
#[warnings="-register-all"]
Inductive JsVal :=
  | JNum (r : R)
  | JNaN
  | JInfinity (negative : bool)
  | JStr (s : string)
  | JBool (b : bool)
  | JNull
  | JUndefined
  | JArr (items : list JsVal)
  | JObj (fields : gmap string JsVal).

Abbreviation JsObject := (gmap string JsVal).

(** ** main.js: helpers of the car catalog *)

Module Catalog.

Import Physics.

(** [mod(value, modulo)]: [((value % modulo) + modulo) % modulo]. *)
Definition mod_ (value modulo : R) : R := JS.rem (JS.rem value modulo + modulo) modulo.

(** [ensureGearRatios(ratios)]; [None] is a value that is not an array. *)
Definition ensureGearRatios (ratios : option (list R)) : list R :=
  match ratios with
  | None => gearRatios defaultCarConfig
  | Some [] => gearRatios defaultCarConfig
  | Some (first :: rest) =>
      if Req_dec_T first 0 then first :: rest else 0 :: first :: rest
  end.

(** [computeBrakeHorsepower(horsepower)] of a finite number. *)
Definition computeBrakeHorsepower (horsepower : R) : R := horsepower * 0.82.

Definition computeFallbackBrakeTorque (config : CarConfigInput) : Wheels R :=
  let wheelRadius := JS.coalesce (in_wheelRadiusM config) (wheelRadiusM defaultCarConfig) in
  let brakeHp :=
    JS.coalesce (in_brakeHorsepower config)
      (computeBrakeHorsepower
         (JS.coalesce (in_horsepower config) (horsepower defaultCarConfig))) in
  let brakeBiasFront := JS.coalesce (in_brakeBiasFront config) 0.6 in
  let totalForce := (brakeHp * 745.7) / 30 in
  let frontForce := totalForce * brakeBiasFront in
  let rearForce := totalForce - frontForce in
  let frontTorque := (frontForce / 2) * wheelRadius in
  let rearTorque := (rearForce / 2) * wheelRadius in
  mkWheels frontTorque frontTorque rearTorque rearTorque.

(** The separators of [input.split(/[,;|]/)]. *)
Definition isGripSeparator (ch : Ascii.ascii) : bool :=
  Ascii.eqb ch ","%char || Ascii.eqb ch ";"%char || Ascii.eqb ch "|"%char.

(** [text.split(/[,;|]/)], with the part read so far. *)
Fixpoint splitGrips (text current : string) : list string :=
  match text with
  | EmptyString => [current]
  | String ch rest =>
      if isGripSeparator ch then current :: splitGrips rest EmptyString
      else splitGrips rest (current ++ String ch EmptyString)
  end.

(** [values.filter((value) => Number.isFinite(value))] of values already
    converted. *)
Fixpoint finiteOnly (values : list (option R)) : list R :=
  match values with
  | [] => []
  | Some value :: rest => value :: finiteOnly rest
  | None :: rest => finiteOnly rest
  end.

(** [values.length > 0 ? values : null]. *)
Definition orNull (values : list R) : option (list R) :=
  match values with
  | [] => None
  | _ :: _ => Some values
  end.

(** [[0, 1, 2, 3].map((index) => values[index % values.length])]. *)
Definition cycleFour (values : list R) : list R :=
  List.map (fun index => nth (index mod List.length values) values 0)
           [0%nat; 1%nat; 2%nat; 3%nat].

Section Grips.

(** [Number(text)] when it is finite, and [text.trim()]. *)
Variable parseNumber : string -> option R.
Variable trim : string -> string.

(** [Number(value)] when it is finite, [None] otherwise. *)
Fixpoint toNumber (value : JsVal) : option R :=
  match value with
  | JNum r => Some r
  | JStr s => parseNumber s
  | JBool b => Some (if b then 1 else 0)
  | JNull => Some 0
  | JArr [] => Some 0
  | JArr [JNull] | JArr [JUndefined] => Some 0
  | JArr [JBool _] => None
  | JArr [item] => toNumber item
  | _ => None
  end.

Definition normalizeGripInput (input : JsVal) : option (list R) :=
  match input with
  | JNull => None
  | JUndefined => None
  | JArr items => orNull (finiteOnly (List.map toNumber items))
  | JStr text =>
      orNull (finiteOnly (List.map (fun part => parseNumber (trim part))
                                   (splitGrips text EmptyString)))
  | other =>
      match toNumber other with
      | Some num => Some [num]
      | None => None
      end
  end.

(** [ensureGripArray(values, fallbackArray, fallbackFactor)];
    [fallbackFactor] is the number when it is finite; the result is [None]
    for [undefined]. *)
Definition ensureGripArray (values fallbackArray : JsVal) (fallbackFactor : option R)
  : option (list R) :=
  let atLeastFour (normalized : option (list R)) :=
    match normalized with
    | Some l => (4 <=? List.length l)%nat
    | None => false
    end in
  let nonEmpty (normalized : option (list R)) :=
    match normalized with
    | Some l => (0 <? List.length l)%nat
    | None => false
    end in
  let normalizedValues := normalizeGripInput values in
  if atLeastFour normalizedValues then
    Some (firstn 4 (JS.coalesce normalizedValues []))
  else if nonEmpty normalizedValues then
    Some (cycleFour (JS.coalesce normalizedValues []))
  else
    let normalizedFallback := normalizeGripInput fallbackArray in
    if atLeastFour normalizedFallback then
      Some (firstn 4 (JS.coalesce normalizedFallback []))
    else if nonEmpty normalizedFallback then
      Some (cycleFour (JS.coalesce normalizedFallback []))
    else
      match fallbackArray with
      | JArr [] => None
      | _ =>
          if JS.opt_gtb fallbackFactor 0 && nonEmpty normalizedValues then
            Some (List.map (fun value => value * JS.coalesce fallbackFactor 0)
                           (JS.coalesce normalizedValues []))
          else if JS.opt_gtb fallbackFactor 0 then None
          else None
      end.

End Grips.

(** [spec.key], unless it is null or undefined. *)
Definition present (spec : JsObject) (key : string) : option JsVal :=
  match spec !! key with
  | Some JNull => None
  | Some JUndefined => None
  | Some value => Some value
  | None => None
  end.

(** [spec.a ?? spec.b ?? ...] over the keys given: the first member that
    is neither null nor undefined, and otherwise the last one as it is. *)
Fixpoint coalesceMembers (spec : JsObject) (keys : list string) : JsVal :=
  match keys with
  | [] => JUndefined
  | [key] => JS.coalesce (spec !! key) JUndefined
  | key :: rest =>
      match present spec key with
      | Some value => value
      | None => coalesceMembers spec rest
      end
  end.

(** The number that a member of a specification holds.  A configuration
    holds real numbers, so a member that the code copies into it without
    looking (a string, a boolean, NaN) has no image there when it is not a
    finite number: it is read as 0.  Only [driveType], which the [Car]
    constructor calls a method of, is kept as the value it is. *)
Definition numberOf (value : JsVal) : R :=
  match value with
  | JNum r => r
  | _ => 0
  end.

(** [spec.key ?? fallback] for a member that holds a number. *)
Definition numberOr (spec : JsObject) (key : string) (fallback : R) : R :=
  match present spec key with
  | Some value => numberOf value
  | None => fallback
  end.

(** [Number.isFinite(value) ? value : undefined]: nothing is coerced. *)
Definition finiteOf (value : JsVal) : option R :=
  match value with
  | JNum r => Some r
  | _ => None
  end.

(** [typeof value === "string"]. *)
Definition isText (value : JsVal) : bool :=
  match value with
  | JStr _ => true
  | _ => false
  end.

(** An array of numbers as a value, and the four wheels as an array. *)
Definition arrayOf (values : list R) : JsVal := JArr (List.map JNum values).

Definition listOfWheels (w : Wheels R) : list R := [FL w; FR w; RL w; RR w].

(** The three tunables of a configuration lie in the ranges the
    calibration clamps them to, or are absent. *)
Definition withinOrAbsent (value : option R) (low high : R) : Prop :=
  match value with
  | Some v => low <= v <= high
  | None => True
  end.

Definition tunablesInRange (config : CarConfigInput) : Prop :=
  withinOrAbsent (in_dragCoefficient config) 0.16 0.9
  /\ withinOrAbsent (in_rollingResistanceCoeff config) 0.0045 0.03
  /\ withinOrAbsent (in_drivetrainEfficiency config) 0.6 1.

End Catalog.

(** ** main.js: the calibration controller *)

Module Calibration.

Import Physics.
Import Catalog.

Definition PIXELS_PER_METER : R := 16.
Definition CAR_VERIFICATION_VERSION : Z := 1.

(** [clampToRange] of main.js has the body of [clamp]. *)
Definition clampToRange (value min max : R) : R := Rmax min (Rmin max value).

Record Targets := mkTargets {
  target_topSpeedKph : option R;
  target_zeroToHundredSec : option R
}.

Record Sample := mkSample {
  sample_timeSec : R;
  sample_speedKph : R;
  sample_distanceM : R;
  sample_phase : string;
  sample_aborted : bool
}.

(** The result of [measureZeroToHundred]. *)
Record ZeroResult := mkZeroResult { timeSec : option R; reached : bool }.

(** The result of [measureTopSpeed]. *)
Record TopResult := mkTopResult { maxSpeedKph : option R; durationSec : R }.

Record Measured := mkMeasured {
  zeroToHundredSec : option R;
  zeroToHundredReached : bool;
  topSpeedKph : option R;
  topSpeedDurationSec : R
}.

Record Overrides := mkOverrides {
  ov_dragCoefficient : option R;
  ov_rollingResistanceCoeff : option R;
  ov_drivetrainEfficiency : option R
}.

(** A stored record.  A member that a record lacks is [None];
    [iterations], which is read only as [iterations ?? 0], is 0 then. *)
Record CalibrationRecord := mkRecord {
  version : Z;
  verified : bool;
  overrides : option Overrides;
  calibratedConfig : option CarConfigInput;
  samples : option (list Sample * list Sample);
  measured : option Measured;
  target : option Targets;
  iterations : nat;
  updatedAt : option R;
  note : option string;
  error : option string
}.

(** A catalog entry: [id] is [None] when absent or falsy, [specs] is
    [None] when absent or not an object. *)
Record CatalogCar := mkCatalogCar {
  id : option string;
  specs : option JsObject
}.

(** What a run reads from outside and leaves behind besides its result:
    the number of [Date.now()] calls made so far, and two counters that
    the source does not have, of the [Car.update] calls and of the
    [createTestCar] calls. *)
Record World := mkWorld {
  clockReads : nat;
  ticks : nat;
  testCars : nat
}.

(** A computation that reads the clock and may run out of loop fuel
    ([None]). *)
Definition M (A : Type) : Type := World -> option (A * World).

Definition ret {A} (a : A) : M A := fun w => Some (a, w).

Definition bind {A B} (m : M A) (k : A -> M B) : M B :=
  fun w => match m w with Some (a, w') => k a w' | None => None end.

Definition outOfFuel {A} : M A := fun _ => None.

Notation "x <- m ;; k" := (bind m (fun x => k))
  (at level 100, m at next level, right associativity).

(** What the embedded code throws: the TypeError of calling
    [toUpperCase] on a [driveType] that is not a string, in the [Car]
    constructor (carPhysics.js, line 159). *)
Inductive Thrown := TypeError.

(** How a call that may throw ends. *)
Inductive Completion (A : Type) : Type :=
  | Normal (a : A)
  | Throw (e : Thrown).

Arguments Normal {A} a.
Arguments Throw {A} e.

(** Sequencing of calls that may throw: what follows a throw is skipped. *)
Definition bindC {A B} (m : M (Completion A)) (k : A -> M (Completion B))
  : M (Completion B) :=
  c <- m ;;
  match c with
  | Normal a => k a
  | Throw e => ret (Throw e)
  end.

Notation "x <-! m ;; k" := (bindC m (fun x => k))
  (at level 100, m at next level, right associativity).

(** A call that does not throw. *)
Definition lift {A} (m : M A) : M (Completion A) := a <- m ;; ret (Normal a).

(** The configuration object that [createCarConfigFromSpec] returns: its
    numbers, and [driveType] as the value copied from the specification. *)
Record SpecConfig := mkSpecConfig {
  driveTypeOf : JsVal;
  numbers : CarConfigInput
}.

Section Controller.

(** The [n]-th reading of [Date.now()]. *)
Variable now : nat -> R.
(** [Number(text)] when it is finite. *)
Variable parseNumber : string -> option R.
(** The text of a number inside a template string. *)
Variable numberToString : R -> string.
(** [text.trim()]. *)
Variable trim : string -> string.
(** [this.version]. *)
Variable managerVersion : Z.

Definition dateNow : M R :=
  fun w => Some (now (clockReads w),
                 mkWorld (S (clockReads w)) (ticks w) (testCars w)).

(** [car.update(...)], counted. *)
Definition carUpdate (car : Car) (throttleInput brakeInput steerInput dt : R) : M Car :=
  fun w => Some (update car throttleInput brakeInput steerInput dt,
                 mkWorld (clockReads w) (S (ticks w)) (testCars w)).

Definition createTestCar (config : CarConfigInput) : M Car :=
  fun w => Some (newCar config
                   (mkCarOptions (Some PIXELS_PER_METER) (Some (Vector.mk 0 0)) (Some 0) None),
                 mkWorld (clockReads w) (ticks w) (S (testCars w))).

(** The inner loop of [findNumeric] over the containers, for one key. *)
Fixpoint findInContainers (containers : list (option JsObject)) (key : string)
  : option R :=
  match containers with
  | [] => None
  | None :: rest => findInContainers rest key
  | Some container :: rest =>
      match container !! key with
      | None => findInContainers rest key
      | Some value =>
          match toNumber parseNumber value with
          | Some num => if num >? 0 then Some num else findInContainers rest key
          | None => findInContainers rest key
          end
      end
  end.

(** [spec.name] when it is an object ([typeof] "object" and not null);
    an array has none of the keys searched. *)
Definition subObject (spec : JsObject) (name : string) : option JsObject :=
  match spec !! name with
  | Some (JObj fields) => Some fields
  | Some (JArr _) => Some ∅
  | _ => None
  end.

Fixpoint findNumericKeys (containers : list (option JsObject)) (keys : list string)
  : option R :=
  match keys with
  | [] => None
  | key :: rest =>
      match findInContainers containers key with
      | Some num => Some num
      | None => findNumericKeys containers rest
      end
  end.

Definition findNumeric (spec : JsObject) (keys : list string) : option R :=
  let containers :=
    [Some spec; subObject spec "performance"; subObject spec "realWorld";
     subObject spec "stats"] in
  findNumericKeys containers keys.

Definition extractTargets (spec : JsObject) : option Targets :=
  let topSpeedKph :=
    match findNumeric spec ["topSpeedKph"; "topSpeedKmH"; "topSpeed"; "vMaxKph"; "vMaxKmH"]
    with
    | Some v => Some v
    | None =>
        match findNumeric spec ["topSpeedMph"; "topSpeedMPH"] with
        | Some mph => Some (mph * 1.60934)
        | None => None
        end
    end in
  let zeroToHundred :=
    match findNumeric spec
            ["zeroToHundredSec"; "zeroTo100Sec"; "zeroToHundred"; "zeroTo100";
             "zeroToHundredKmH"]
    with
    | Some v => Some v
    | None =>
        match findNumeric spec
                ["zeroToSixtySec"; "zeroToSixty"; "zeroTo60Sec"; "zeroTo60";
                 "zeroToSixtyMph"]
        with
        | Some sixty => Some (sixty * 1.05)
        | None => None
        end
    end in
  match topSpeedKph, zeroToHundred with
  | None, None => None
  | _, _ => Some (mkTargets topSpeedKph zeroToHundred)
  end.

Definition isWithinTolerance (current target : option R) (toleranceFraction : R) : bool :=
  match current, target with
  | Some cur, Some tgt =>
      if Req_dec_T tgt 0 then false
      else Rabs (cur - tgt) / Rabs tgt <=? Rabs toleranceFraction
  | _, _ => false
  end.

(** [mix(current, target, factor)] with a finite factor. *)
Definition mix (current : option R) (target factor : R) : R :=
  let alpha := clampToRange factor 0 1 in
  let currentValue := JS.coalesce current target in
  currentValue * (1 - alpha) + target * alpha.

(** A configuration object with three of its keys replaced. *)
Definition setTunables (config : CarConfigInput)
    (drag rolling efficiency : option R) : CarConfigInput :=
  {| in_massKg := in_massKg config;
     in_driveType := in_driveType config;
     in_gearRatios := in_gearRatios config;
     in_finalDriveRatio := in_finalDriveRatio config;
     in_horsepower := in_horsepower config;
     in_peakTorqueNm := in_peakTorqueNm config;
     in_brakeHorsepower := in_brakeHorsepower config;
     in_dragCoefficient := drag;
     in_downforceCoefficient := in_downforceCoefficient config;
     in_frontalAreaM2 := in_frontalAreaM2 config;
     in_wheelRadiusM := in_wheelRadiusM config;
     in_tireGrips := in_tireGrips config;
     in_tireLateralGrips := in_tireLateralGrips config;
     in_tireLateralGripFactor := in_tireLateralGripFactor config;
     in_brakeTorquePerWheelNm := in_brakeTorquePerWheelNm config;
     in_brakeBiasFront := in_brakeBiasFront config;
     in_wheelbaseM := in_wheelbaseM config;
     in_cgHeightM := in_cgHeightM config;
     in_trackWidthM := in_trackWidthM config;
     in_frontWeightDistribution := in_frontWeightDistribution config;
     in_drivetrainEfficiency := efficiency;
     in_rollingResistanceCoeff := rolling;
     in_revLimiterRpm := in_revLimiterRpm config |}.

(** A configuration object with [brakeTorquePerWheelNm] replaced. *)
Definition setBrakeTorque (config : CarConfigInput) (torque : list R) : CarConfigInput :=
  {| in_massKg := in_massKg config;
     in_driveType := in_driveType config;
     in_gearRatios := in_gearRatios config;
     in_finalDriveRatio := in_finalDriveRatio config;
     in_horsepower := in_horsepower config;
     in_peakTorqueNm := in_peakTorqueNm config;
     in_brakeHorsepower := in_brakeHorsepower config;
     in_dragCoefficient := in_dragCoefficient config;
     in_downforceCoefficient := in_downforceCoefficient config;
     in_frontalAreaM2 := in_frontalAreaM2 config;
     in_wheelRadiusM := in_wheelRadiusM config;
     in_tireGrips := in_tireGrips config;
     in_tireLateralGrips := in_tireLateralGrips config;
     in_tireLateralGripFactor := in_tireLateralGripFactor config;
     in_brakeTorquePerWheelNm := Some torque;
     in_brakeBiasFront := in_brakeBiasFront config;
     in_wheelbaseM := in_wheelbaseM config;
     in_cgHeightM := in_cgHeightM config;
     in_trackWidthM := in_trackWidthM config;
     in_frontWeightDistribution := in_frontWeightDistribution config;
     in_drivetrainEfficiency := in_drivetrainEfficiency config;
     in_rollingResistanceCoeff := in_rollingResistanceCoeff config;
     in_revLimiterRpm := in_revLimiterRpm config |}.

(** [spec.calibrationOverrides[key]] as a number, when
    [calibrationOverrides] is an object that has the key and the value
    converts to a finite number; the current value otherwise. *)
Definition localOverride (spec : JsObject) (key : string) (current : option R)
  : option R :=
  match spec !! "calibrationOverrides" with
  | Some (JObj local) =>
      match local !! key with
      | Some value =>
          match toNumber parseNumber value with
          | Some num => Some num
          | None => current
          end
      | None => current
      end
  | _ => current
  end.

(** [createCarConfigFromSpec(spec, context)] for a specification that is
    an object.  [applied] is what the last block of the function finds
    for the car in the manager: [None] when [context.applyOverrides] is
    false, as in [runCalibration], when there is no manager yet, when the
    car has no id or when the manager holds no overrides for it.  The
    grip array that [ensureGripArray] returns has four entries.  The
    record of numbers repeats [driveType] when it is a string; when it is
    not, no car is built from the record (see [onTestCar] below). *)
Definition createCarConfigFromSpec (spec : JsObject) (applied : option Overrides)
  : SpecConfig :=
  let base := defaultCarConfig in
  let baseLongGrips := listOfWheels (tireGrips base) in
  let baseLatGrips :=
    match tireLateralGrips base with
    | Some (first :: rest) => Some (first :: rest)
    | _ => None
    end in
  let baseLatFactor := tireLateralGripFactor base in
  let tireGrips :=
    JS.coalesce
      (ensureGripArray parseNumber trim
         (coalesceMembers spec ["tireGrips"; "tireGripLong"; "tireGripLongitudinal"])
         (arrayOf baseLongGrips) None)
      baseLongGrips in
  let tireLateralInput :=
    coalesceMembers spec
      ["tireGripLat"; "tireGripLateral"; "tireGripSide"; "tireGripLatitudinal"] in
  let tireLateralGrips :=
    JS.coalesce
      (ensureGripArray parseNumber trim tireLateralInput
         (arrayOf (JS.coalesce baseLatGrips
                     (List.map (fun value => value * baseLatFactor) tireGrips)))
         (match present spec "tireLateralGripFactor" with
          | Some value => finiteOf value
          | None => Some baseLatFactor
          end))
      (List.map (fun value => value * numberOr spec "tireLateralGripFactor" baseLatFactor)
                tireGrips) in
  let driveType := JS.coalesce (present spec "driveType") (JStr (driveType base)) in
  let config :=
    {| in_massKg := Some (numberOr spec "massKg" (massKg base));
       in_driveType :=
         match driveType with
         | JStr text => Some text
         | _ => None
         end;
       in_gearRatios :=
         Some (ensureGearRatios
                 match spec !! "gearRatios" with
                 | Some (JArr items) => Some (List.map numberOf items)
                 | _ => None
                 end);
       in_finalDriveRatio := Some (numberOr spec "finalDrive" (finalDriveRatio base));
       in_horsepower := Some (numberOr spec "horsepower" (horsepower base));
       in_peakTorqueNm := Some (numberOr spec "torqueNm" (peakTorqueNm base));
       in_brakeHorsepower :=
         Some (numberOr spec "brakeHorsepower"
                 (computeBrakeHorsepower (numberOr spec "horsepower" (horsepower base))));
       in_dragCoefficient := Some (numberOr spec "dragCoefficient" (dragCoefficient base));
       in_downforceCoefficient :=
         Some (numberOr spec "downforceCoefficient" (downforceCoefficient base));
       in_frontalAreaM2 := Some (numberOr spec "frontalAreaM2" (frontalAreaM2 base));
       in_wheelRadiusM := Some (numberOr spec "wheelRadiusM" (wheelRadiusM base));
       in_tireGrips := Wheel.ofList tireGrips;
       in_tireLateralGrips := Some tireLateralGrips;
       in_tireLateralGripFactor :=
         Some (numberOr spec "tireLateralGripFactor" baseLatFactor);
       in_brakeTorquePerWheelNm := Some (brakeTorquePerWheelNm base);
       in_brakeBiasFront := Some (numberOr spec "brakeBiasFront" (brakeBiasFront base));
       in_wheelbaseM := Some (numberOr spec "wheelbaseM" (wheelbaseM base));
       in_cgHeightM := Some (numberOr spec "cgHeightM" (cgHeightM base));
       in_trackWidthM := Some (numberOr spec "trackWidthM" (trackWidthM base));
       in_frontWeightDistribution :=
         Some (numberOr spec "frontWeightDistribution" (frontWeightDistribution base));
       in_drivetrainEfficiency :=
         Some (numberOr spec "drivetrainEfficiency" (drivetrainEfficiency base));
       in_rollingResistanceCoeff :=
         Some (numberOr spec "rollingResistanceCoeff" (rollingResistanceCoeff base));
       in_revLimiterRpm :=
         Some (numberOr spec "revLimiterRpm" (JS.coalesce (revLimiterRpm base) 7000)) |} in
  let config :=
    setTunables config
      (localOverride spec "dragCoefficient" (in_dragCoefficient config))
      (localOverride spec "rollingResistanceCoeff" (in_rollingResistanceCoeff config))
      (localOverride spec "drivetrainEfficiency" (in_drivetrainEfficiency config)) in
  let config :=
    setBrakeTorque config
      (JS.coalesce
         (ensureGripArray parseNumber trim
            (coalesceMembers spec
               ["brakeTorquePerWheelNm"; "brakeTorquePerWheel"; "brakeTorque";
                "brakeTorqueNm"])
            (arrayOf (brakeTorquePerWheelNm base)) None)
         (listOfWheels (computeFallbackBrakeTorque config))) in
  let config :=
    match applied with
    | Some found =>
        let keep (value current : option R) :=
          match value with
          | Some v => Some v
          | None => current
          end in
        setTunables config
          (keep (ov_dragCoefficient found) (in_dragCoefficient config))
          (keep (ov_rollingResistanceCoeff found) (in_rollingResistanceCoeff config))
          (keep (ov_drivetrainEfficiency found) (in_drivetrainEfficiency config))
    | None => config
    end in
  mkSpecConfig driveType config.

(** Whether [spec.driveType] is a string, or is null, undefined or
    absent so that the default is taken: the [driveType] of the
    configuration built from the specification is a string then. *)
Definition driveTypeIsText (spec : JsObject) : bool :=
  isText (JS.coalesce (present spec "driveType") (JStr (driveType defaultCarConfig))).

Definition adjustAcceleration (config : CarConfigInput) (measuredSec targetSec : option R)
  : CarConfigInput :=
  match measuredSec, targetSec with
  | Some measuredSec, Some targetSec =>
      if (measuredSec <=? 0) || (targetSec <=? 0) then config
      else
        let ratio := clampToRange (measuredSec / targetSec) 0.25 4 in
        let desiredEfficiency :=
          clampToRange
            (JS.coalesce (in_drivetrainEfficiency config)
                         (drivetrainEfficiency defaultCarConfig)
             / JS.pow ratio 0.92)
            0.6 1 in
        let efficiency := mix (in_drivetrainEfficiency config) desiredEfficiency 0.55 in
        let desiredRolling :=
          clampToRange
            (JS.coalesce (in_rollingResistanceCoeff config)
                         (rollingResistanceCoeff defaultCarConfig)
             * (1 + (ratio - 1) * 0.45))
            0.0045 0.03 in
        let rolling := mix (in_rollingResistanceCoeff config) desiredRolling 0.35 in
        setTunables config (in_dragCoefficient config) (Some rolling) (Some efficiency)
  | _, _ => config
  end.

Definition adjustTopSpeed (config : CarConfigInput) (measuredKph targetKph : option R)
  : CarConfigInput :=
  match measuredKph, targetKph with
  | Some measuredKph, Some targetKph =>
      if (measuredKph <=? 0) || (targetKph <=? 0) then config
      else
        let ratio := clampToRange (measuredKph / targetKph) 0.5 1.6 in
        let desiredDrag :=
          clampToRange
            (JS.coalesce (in_dragCoefficient config) (dragCoefficient defaultCarConfig)
             * ratio * ratio)
            0.16 0.9 in
        let drag := mix (in_dragCoefficient config) desiredDrag 0.6 in
        let desiredEfficiency :=
          clampToRange
            (JS.coalesce (in_drivetrainEfficiency config)
                         (drivetrainEfficiency defaultCarConfig)
             / JS.pow ratio 0.35)
            0.6 1 in
        let efficiency := mix (in_drivetrainEfficiency config) desiredEfficiency 0.25 in
        let desiredRolling :=
          clampToRange
            (JS.coalesce (in_rollingResistanceCoeff config)
                         (rollingResistanceCoeff defaultCarConfig)
             * (1 + (ratio - 1) * 0.25))
            0.0045 0.03 in
        let rolling := mix (in_rollingResistanceCoeff config) desiredRolling 0.2 in
        setTunables config (Some drag) (Some rolling) (Some efficiency)
  | _, _ => config
  end.

(** The options of a measurement: whether an array was passed as
    [collectSamples], [sampleInterval] and [deadlineMs] when finite. *)
Record MeasureOptions := mkMeasureOptions {
  collectSamples : bool;
  sampleInterval : option R;
  deadlineMs : option R
}.

(** [deadlineMs !== null && Date.now() > deadlineMs]: the clock is read
    only when there is a deadline. *)
Definition deadlinePassed (deadlineMs : option R) : M bool :=
  match deadlineMs with
  | None => ret false
  | Some deadline => t <- dateNow ;; ret (t >? deadline)
  end.

(** [samples.push(...)] when an array is collected. *)
Definition pushSample (samples : option (list Sample)) (sample : Sample)
  : option (list Sample) :=
  match samples with
  | Some l => Some (l ++ [sample])
  | None => None
  end.

Definition sampleOf (car : Car) (time speedKph : R) (phase : string) (aborted : bool)
  : Sample :=
  let position := getWorldPosition car in
  mkSample time speedKph (Vector.x_ position / PIXELS_PER_METER) phase aborted.

(** The [while (time < maxTime)] loop of [measureZeroToHundred]. *)
Fixpoint zeroToHundredLoop (fuel : nat) (sampleInterval : R) (deadlineMs : option R)
    (car : Car) (samples : option (list Sample)) (time previousSpeed sampleTimer : R)
  : M (ZeroResult * option (list Sample)) :=
  let dt := 1 / 200 in
  let maxTime := 15 in
  if time <? maxTime then
    match fuel with
    | O => outOfFuel
    | S fuel' =>
        expired <- deadlinePassed deadlineMs ;;
        if expired : bool then
          ret (mkZeroResult None false,
               pushSample samples
                 (sampleOf car time (getSpeedMetersPerSecond car * 3.6) "zeroToHundred" true))
        else
          car <- carUpdate car 1 0 0 dt ;;
          let time := time + dt in
          let sampleTimer := sampleTimer + dt in
          let speed := getSpeedMetersPerSecond car * 3.6 in
          let sampling :=
            match samples with
            | Some _ => sampleTimer >=? sampleInterval
            | None => false
            end in
          let sampleTimer := if sampling then 0 else sampleTimer in
          let samples :=
            if sampling
            then pushSample samples (sampleOf car time speed "zeroToHundred" false)
            else samples in
          if speed >=? 100 then
            let deltaSpeed := speed - previousSpeed in
            let crossingTime :=
              if deltaSpeed >? 1e-6 then
                let ratio := clampToRange ((100 - previousSpeed) / deltaSpeed) 0 1 in
                time - dt + ratio * dt
              else time in
            ret (mkZeroResult (Some crossingTime) true,
                 pushSample samples (sampleOf car crossingTime speed "zeroToHundred" false))
          else
            zeroToHundredLoop fuel' sampleInterval deadlineMs car samples time speed
                              sampleTimer
    end
  else
    ret (mkZeroResult (Some maxTime) false,
         pushSample samples
           (sampleOf car time (getSpeedMetersPerSecond car * 3.6) "zeroToHundred" false)).

(** 15 s at 200 steps per second. *)
Definition zeroToHundredFuel : nat := 3000.

Definition measureZeroToHundred (config : CarConfigInput) (options : MeasureOptions)
  : M (ZeroResult * option (list Sample)) :=
  let sampleInterval := JS.coalesce (sampleInterval options) 0.02 in
  car <- createTestCar config ;;
  let car := resetState car (Vector.mk 0 0) 0 in
  let samples :=
    if collectSamples options
    then Some [mkSample 0 0 0 "zeroToHundred" false]
    else None in
  zeroToHundredLoop zeroToHundredFuel sampleInterval (deadlineMs options) car samples 0 0 0.

(** The [while (time < maxDuration)] loop of [measureTopSpeed]. *)
Fixpoint topSpeedLoop (fuel : nat) (sampleInterval : R) (deadlineMs : option R)
    (car : Car) (samples : option (list Sample)) (time maxSpeed stableTime sampleTimer : R)
  : M (TopResult * option (list Sample)) :=
  let dt := 1 / 200 in
  let maxDuration := 160 in
  let settleThreshold := 7 in
  let finish (car : Car) (samples : option (list Sample)) (time maxSpeed : R) :=
    ret (mkTopResult (Some maxSpeed) time,
         pushSample samples
           (sampleOf car time (getSpeedMetersPerSecond car * 3.6) "topSpeed" false)) in
  if time <? maxDuration then
    match fuel with
    | O => outOfFuel
    | S fuel' =>
        expired <- deadlinePassed deadlineMs ;;
        if expired : bool then
          ret (mkTopResult (Some maxSpeed) time,
               pushSample samples
                 (sampleOf car time (getSpeedMetersPerSecond car * 3.6) "topSpeed" true))
        else
          car <- carUpdate car 1 0 0 dt ;;
          let time := time + dt in
          let sampleTimer := sampleTimer + dt in
          let speed := getSpeedMetersPerSecond car * 3.6 in
          let sampling :=
            match samples with
            | Some _ => sampleTimer >=? sampleInterval
            | None => false
            end in
          let sampleTimer := if sampling then 0 else sampleTimer in
          let samples :=
            if sampling
            then pushSample samples (sampleOf car time speed "topSpeed" false)
            else samples in
          let grown := speed >? maxSpeed + 0.05 in
          let stableTime :=
            if grown then 0
            else if Rabs (speed - maxSpeed) <? 0.1 then stableTime + dt
            else stableTime + dt * 0.25 in
          let maxSpeed := if grown then speed else maxSpeed in
          if (time >? 5) && (stableTime >=? settleThreshold) then
            finish car samples time maxSpeed
          else
            topSpeedLoop fuel' sampleInterval deadlineMs car samples time maxSpeed
                         stableTime sampleTimer
    end
  else finish car samples time maxSpeed.

(** 160 s at 200 steps per second. *)
Definition topSpeedFuel : nat := 32000.

Definition measureTopSpeed (config : CarConfigInput) (options : MeasureOptions)
  : M (TopResult * option (list Sample)) :=
  let sampleInterval := JS.coalesce (sampleInterval options) 0.04 in
  car <- createTestCar config ;;
  let car := resetState car (Vector.mk 0 0) 0 in
  let samples :=
    if collectSamples options
    then Some [mkSample 0 0 0 "topSpeed" false]
    else None in
  topSpeedLoop topSpeedFuel sampleInterval (deadlineMs options) car samples 0 0 0 0.

(** A measurement on a configuration built from a specification, whose
    [driveType] is the value [driveType].  Both measurements call
    [createTestCar] before anything that can be observed, and the [Car]
    constructor it calls evaluates [this.config.driveType.toUpperCase()]:
    for a value that is not a string this throws a TypeError, after the
    call of [createTestCar] and before the first tick. *)
Definition onTestCar {A} (driveType : JsVal) (measurement : M A) : M (Completion A) :=
  match driveType with
  | JStr _ => lift measurement
  | _ =>
      fun w => Some (Throw TypeError, mkWorld (clockReads w) (ticks w) (S (testCars w)))
  end.

(** [Number(value.toFixed(5))]: the nearest multiple of 1e-5, a tie
    going away from zero. *)
Definition toFixed5 (value : R) : R :=
  if 0 <=? value then IZR (Zfloor (value * 100000 + 0.5)) / 100000
  else - (IZR (Zfloor (- value * 100000 + 0.5)) / 100000).

(** One key of [computeOverrides]: the override, if any. *)
Definition overrideOf (nextValue baseValue : option R) : option R :=
  match nextValue with
  | None => None
  | Some next =>
      match baseValue with
      | Some base =>
          if Rabs (next - base) <=? 1e-4 then None else Some (toFixed5 next)
      | None => Some (toFixed5 next)
      end
  end.

(** Returns the overrides and the configuration, whose overridden keys
    have been rounded in place. *)
Definition computeOverrides (config baseConfig : CarConfigInput)
  : option Overrides * CarConfigInput :=
  let drag := overrideOf (in_dragCoefficient config) (in_dragCoefficient baseConfig) in
  let rolling :=
    overrideOf (in_rollingResistanceCoeff config) (in_rollingResistanceCoeff baseConfig) in
  let efficiency :=
    overrideOf (in_drivetrainEfficiency config) (in_drivetrainEfficiency baseConfig) in
  let keep (override current : option R) :=
    match override with Some v => Some v | None => current end in
  let config' :=
    setTunables config
      (keep drag (in_dragCoefficient config))
      (keep rolling (in_rollingResistanceCoeff config))
      (keep efficiency (in_drivetrainEfficiency config)) in
  match drag, rolling, efficiency with
  | None, None, None => (None, config')
  | _, _, _ => (Some (mkOverrides drag rolling efficiency), config')
  end.

(** [markSpecVerified(car, flag)]. *)
Definition markSpecVerified (car : CatalogCar) (flag : bool) : CatalogCar :=
  match specs car with
  | Some spec => mkCatalogCar (id car) (Some (<[ "performanceVerified" := JBool flag ]> spec))
  | None => car
  end.

Definition isSpecMarkedVerified (car : CatalogCar) : bool :=
  match specs car with
  | Some spec =>
      match spec !! "performanceVerified" with
      | Some (JBool true) => true
      | _ => false
      end
  | None => false
  end.

(** [options] of [runCalibration], each member when finite. *)
Record CalibrationOptions := mkCalibrationOptions {
  opt_timeoutMs : option R;
  opt_maxIterations : option R
}.

(** The variables of the loop of [runCalibration]. *)
Record LoopState := mkLoopState {
  workingConfig : CarConfigInput;
  measuredZero : ZeroResult;
  measuredTop : TopResult;
  actualIterations : nat;
  timedOut : bool
}.

(** Lines 944-951 of a round: the tolerance test on the measured 0-100
    time and the adjustment when it fails.  Returns the working
    configuration and [accelClose]. *)
Definition accelerationStep (config : CarConfigInput) (measuredSec : option R)
    (targetSec : R) : CarConfigInput * bool :=
  let accelClose := isWithinTolerance measuredSec (Some targetSec) 0.04 in
  (if accelClose then config
   else adjustAcceleration config measuredSec (Some targetSec),
   accelClose).

(** Lines 956-959 of a round, for the top speed. *)
Definition topSpeedStep (config : CarConfigInput) (measuredKph : option R)
    (targetKph : R) : CarConfigInput * bool :=
  let topClose := isWithinTolerance measuredKph (Some targetKph) 0.03 in
  (if topClose then config
   else adjustTopSpeed config measuredKph (Some targetKph),
   topClose).

(** The [for] loop of [runCalibration]; [remaining] is
    [maxIterations - index], and [driveType] is the [driveType] of the
    working configuration, which no round changes. *)
Fixpoint calibrationLoop (driveType : JsVal) (remaining index : nat) (targets : Targets)
    (deadline : R) (st : LoopState) : M (Completion LoopState) :=
  match remaining with
  | O => ret (Normal st)
  | S remaining' =>
      let actualIterations := S index in
      t <- dateNow ;;
      if t >? deadline then
        ret (Normal (mkLoopState (workingConfig st) (measuredZero st) (measuredTop st)
                                 actualIterations true))
      else
        let measureOptions := mkMeasureOptions false None (Some deadline) in
        afterZero <-!
          match target_zeroToHundredSec targets with
          | Some targetSec =>
              measured <-!
                onTestCar driveType
                  (measureZeroToHundred (workingConfig st) measureOptions) ;;
              let measuredZero := measured.1 in
              let stepped :=
                accelerationStep (workingConfig st) (timeSec measuredZero) targetSec in
              ret (Normal (stepped.1, measuredZero, stepped.2))
          | None => ret (Normal (workingConfig st, measuredZero st, true))
          end ;;
        let config := afterZero.1.1 in
        let measuredZero := afterZero.1.2 in
        let accelClose := afterZero.2 in
        afterTop <-!
          match target_topSpeedKph targets with
          | Some targetKph =>
              measured <-! onTestCar driveType (measureTopSpeed config measureOptions) ;;
              let measuredTop := measured.1 in
              let stepped := topSpeedStep config (maxSpeedKph measuredTop) targetKph in
              ret (Normal (stepped.1, measuredTop, stepped.2))
          | None => ret (Normal (config, measuredTop st, true))
          end ;;
        let config := afterTop.1.1 in
        let measuredTop := afterTop.1.2 in
        let topClose := afterTop.2 in
        let st' := mkLoopState config measuredZero measuredTop actualIterations false in
        if accelClose && topClose then ret (Normal st')
        else calibrationLoop driveType remaining' (S index) targets deadline st'
  end.

(** Returns the record and the car, whose specification
    [markSpecVerified] may have changed, or throws what a measurement
    throws: the function has no [try]. *)
Definition runCalibration (car : CatalogCar) (options : CalibrationOptions)
  : M (Completion (CalibrationRecord * CatalogCar)) :=
  let spec := JS.coalesce (specs car) ∅ in
  match extractTargets spec with
  | None =>
      updatedAt <- dateNow ;;
      ret (Normal
             ({| version := managerVersion;
                 verified := true;
                 overrides := None;
                 calibratedConfig := None;
                 samples := None;
                 measured := Some (mkMeasured None false None 0);
                 target := None;
                 iterations := 0;
                 updatedAt := Some updatedAt;
                 note := Some "No performance targets provided; skipped calibration.";
                 error := None |},
              markSpecVerified car true))
  | Some targets =>
      let built := createCarConfigFromSpec spec None in
      let driveType := driveTypeOf built in
      let baseConfig := numbers built in
      let clonedConfig := baseConfig in
      let hasZeroToHundred := target_zeroToHundredSec targets in
      let hasTopSpeed := target_topSpeedKph targets in
      let timeoutMs :=
        match opt_timeoutMs options with
        | Some t => Rmax 0 t
        | None => 120000
        end in
      start <- dateNow ;;
      let deadline := start + timeoutMs in
      let maxIterations :=
        match opt_maxIterations options with
        | Some m => Z.to_nat (Z.max 1 (Zfloor m))
        | None => 12%nat
        end in
      st <-! calibrationLoop driveType maxIterations 0 targets deadline
               (mkLoopState clonedConfig (mkZeroResult None false) (mkTopResult None 0)
                            0 false) ;;
      finalZero <-!
        match hasZeroToHundred with
        | Some _ =>
            onTestCar driveType
              (measureZeroToHundred (workingConfig st)
                 (mkMeasureOptions true None (Some deadline)))
        | None => ret (Normal (measuredZero st, Some []))
        end ;;
      finalTop <-!
        match hasTopSpeed with
        | Some _ =>
            onTestCar driveType
              (measureTopSpeed (workingConfig st)
                 (mkMeasureOptions true None (Some deadline)))
        | None => ret (Normal (measuredTop st, Some []))
        end ;;
      let computed := computeOverrides (workingConfig st) baseConfig in
      updatedAt <- dateNow ;;
      ret (Normal
             ({| version := managerVersion;
                 verified := if timedOut st then false else true;
                 overrides := computed.1;
                 calibratedConfig := Some computed.2;
                 samples := Some (JS.coalesce finalZero.2 [], JS.coalesce finalTop.2 []);
                 measured :=
                   Some (mkMeasured (timeSec finalZero.1) (reached finalZero.1)
                                    (maxSpeedKph finalTop.1) (durationSec finalTop.1));
                 target := Some targets;
                 iterations := actualIterations st;
                 updatedAt := Some updatedAt;
                 note :=
                   if timedOut st
                   then Some ("Calibration timed out after " ++ numberToString timeoutMs
                              ++ " ms")%string
                   else None;
                 error := None |},
              car))
  end.

(** The manager after [ensureInitializedSync]: [this.records],
    [this.overrides] and what [persist] last wrote to storage. *)
Record Manager := mkManager {
  records : gmap string CalibrationRecord;
  overridesMap : gmap string Overrides;
  persisted : option (gmap string CalibrationRecord)
}.

(** The car objects, by reference: an array of cars is a list of
    references, and a reference that resolves to nothing is a null
    entry. *)
Abbreviation CarHeap := (gmap nat CatalogCar).

(** [String(error)] of what was thrown: the text is the engine's. *)
Variable describeError : Thrown -> string.
(** [supportsStorage()]. *)
Variable supportsStorage : bool.

Definition isRecordCurrent (record : option CalibrationRecord) : bool :=
  match record with
  | Some r => (version r =? managerVersion)%Z && verified r
  | None => false
  end.

(** Returns the car and whether its flag changed. *)
Definition applyRecordToSpec (car : CatalogCar) (record : CalibrationRecord)
  : CatalogCar * bool :=
  match specs car with
  | None => (car, false)
  | Some spec =>
      let isVerified := verified record in
      let previous := isSpecMarkedVerified car in
      if negb (Bool.eqb previous isVerified)
      then (mkCatalogCar (id car) (Some (<[ "performanceVerified" := JBool isVerified ]> spec)),
            true)
      else (car, false)
  end.

(** [this.overrides.set(id, overrides)] or [this.overrides.delete(id)]. *)
Definition storeOverrides (carId : string) (value : option Overrides)
    (m : gmap string Overrides) : gmap string Overrides :=
  match value with
  | Some o => <[ carId := o ]> m
  | None => delete carId m
  end.

Definition persist (m : Manager) : Manager :=
  if supportsStorage
  then mkManager (records m) (overridesMap m) (Some (records m))
  else m.

(** [options] of [verifyAllCars], each member when finite. *)
Record VerifyOptions := mkVerifyOptions {
  opt_limit : option R;
  opt_perCarTimeoutMs : option R;
  opt_verifyMaxIterations : option R
}.

(** The variables of the first loop of [verifyAllCars]. *)
Record Scan := mkScan {
  scan_manager : Manager;
  scan_heap : CarHeap;
  scan_pending : list nat;
  scan_changed : bool
}.

(** The first loop of [verifyAllCars] (lines 732-781). *)
Fixpoint scanCars (limit : option nat) (cars : list nat) (st : Scan) : M Scan :=
  match cars with
  | [] => ret st
  | ref :: rest =>
      match scan_heap st !! ref with
      | None => scanCars limit rest st
      | Some car =>
          match id car with
          | None => scanCars limit rest st
          | Some carId =>
              let m := scan_manager st in
              let existing := records m !! carId in
              let specIsVerified := isSpecMarkedVerified car in
              let applied :=
                match existing with
                | Some record => applyRecordToSpec car record
                | None => (car, false)
                end in
              let car := applied.1 in
              let specUpdatedFromRecord := applied.2 in
              if isRecordCurrent existing && specIsVerified then
                let overrides' :=
                  storeOverrides carId (existing ≫= overrides) (overridesMap m) in
                scanCars limit rest
                  (mkScan (mkManager (records m) overrides' (persisted m))
                          (<[ ref := car ]> (scan_heap st))
                          (scan_pending st)
                          (scan_changed st || specUpdatedFromRecord))
              else if specIsVerified then
                let spec := JS.coalesce (specs car) ∅ in
                let targets := extractTargets spec in
                updatedAt <- dateNow ;;
                let record :=
                  {| version := managerVersion;
                     verified := true;
                     overrides := existing ≫= overrides;
                     calibratedConfig := None;
                     samples := None;
                     measured := existing ≫= measured;
                     target :=
                       match existing ≫= target with
                       | Some t => Some t
                       | None => targets
                       end;
                     iterations :=
                       match existing with Some r => iterations r | None => 0%nat end;
                     updatedAt := Some updatedAt;
                     note := Some "Marked verified via CarSpecs performance flag.";
                     error := None |} in
                scanCars limit rest
                  (mkScan (mkManager (<[ carId := record ]> (records m))
                                     (storeOverrides carId (overrides record) (overridesMap m))
                                     (persisted m))
                          (<[ ref := markSpecVerified car true ]> (scan_heap st))
                          (scan_pending st)
                          true)
              else
                let pending := scan_pending st ++ [ref] in
                let st' :=
                  mkScan m (<[ ref := car ]> (scan_heap st)) pending (scan_changed st) in
                match limit with
                | Some n =>
                    if (n <=? List.length pending)%nat then ret st'
                    else scanCars limit rest st'
                | None => scanCars limit rest st'
                end
          end
      end
  end.

(** The second loop of [verifyAllCars] (lines 796-886), without a
    visualizer; [processed] counts the cars taken so far.  Every car of
    [pending] has an id, since the first loop queues no other.  What
    [runCalibration] throws is caught: the car gets a record that holds
    the version, verified = false and the error text, and its flag is
    cleared. *)
Fixpoint calibratePending (limit : option nat) (options : CalibrationOptions)
    (pending : list nat) (processed : nat) (m : Manager) (heap : CarHeap)
  : M (Manager * CarHeap) :=
  match pending with
  | [] => ret (m, heap)
  | ref :: rest =>
      let processed := S processed in
      match heap !! ref with
      | None => calibratePending limit options rest processed m heap
      | Some car =>
          let carId := JS.coalesce (id car) "" in
          let next (m' : Manager) (heap' : CarHeap) :=
            match limit with
            | Some n =>
                if (n <=? processed)%nat then ret (m', heap')
                else calibratePending limit options rest processed m' heap'
            | None => calibratePending limit options rest processed m' heap'
            end in
          completion <- runCalibration car options ;;
          match completion with
          | Normal result =>
              let record := result.1 in
              let car := result.2 in
              if negb (verified record) then
                calibratePending limit options rest processed
                  (mkManager (<[ carId := record ]> (records m)) (overridesMap m)
                             (persisted m))
                  (<[ ref := markSpecVerified car false ]> heap)
              else
                let stored :=
                  {| version := version record;
                     verified := verified record;
                     overrides := overrides record;
                     calibratedConfig := None;
                     samples := None;
                     measured := measured record;
                     target := target record;
                     iterations := iterations record;
                     updatedAt := updatedAt record;
                     note := note record;
                     error := error record |} in
                next (mkManager (<[ carId := stored ]> (records m))
                                (storeOverrides carId (overrides stored) (overridesMap m))
                                (persisted m))
                     (<[ ref := markSpecVerified car true ]> heap)
          | Throw thrown =>
              let failed :=
                {| version := managerVersion;
                   verified := false;
                   overrides := None;
                   calibratedConfig := None;
                   samples := None;
                   measured := None;
                   target := None;
                   iterations := 0;
                   updatedAt := None;
                   note := None;
                   error := Some (describeError thrown) |} in
              next (mkManager (<[ carId := failed ]> (records m)) (overridesMap m)
                              (persisted m))
                   (<[ ref := markSpecVerified car false ]> heap)
          end
      end
  end.

(** [verifyAllCars(cars, options)] without a visualizer: the manager
    and the car objects afterwards, and the cars that were queued. *)
Definition verifyAllCars (cars : list nat) (options : VerifyOptions)
    (m : Manager) (heap : CarHeap) : M (Manager * CarHeap * list nat) :=
  match cars with
  | [] => ret (m, heap, [])
  | _ :: _ =>
      let limit :=
        match opt_limit options with
        | Some l => Some (Z.to_nat (Z.max 0 (Zfloor l)))
        | None => None
        end in
      let perCarTimeoutMs :=
        match opt_perCarTimeoutMs options with
        | Some t => IZR (Z.max 0 (Zfloor t))
        | None => 120000
        end in
      let maxIterations :=
        match opt_verifyMaxIterations options with
        | Some n => IZR (Z.max 1 (Zfloor n))
        | None => 12
        end in
      scanned <- scanCars limit cars (mkScan m heap [] false) ;;
      match scan_pending scanned with
      | [] =>
          ret (if scan_changed scanned then persist (scan_manager scanned)
               else scan_manager scanned,
               scan_heap scanned, [])
      | pending =>
          done <- calibratePending limit
                    (mkCalibrationOptions (Some perCarTimeoutMs) (Some maxIterations))
                    pending 0 (scan_manager scanned) (scan_heap scanned) ;;
          ret (persist done.1, done.2, pending)
      end
  end.

End Controller.

(** Whether the first loop of [verifyAllCars] queues the car behind a
    reference: it has an id and its specification is not flagged
    [performanceVerified]. *)
Definition queued (heap : gmap nat CatalogCar) (ref : nat) : bool :=
  match heap !! ref with
  | Some car =>
      match id car with
      | Some _ => negb (isSpecMarkedVerified car)
      | None => false
      end
  | None => false
  end.

(** A clock that advances by one at every reading. *)
Definition tickingClock (n : nat) : R := INR n.

(** A number parser that recognises nothing, a number printer, a trim
    that removes nothing and an error printer: stand-ins for the examples
    below. *)
Definition parseNothing (text : string) : option R := None.
Definition printZero (value : R) : string := "0".
Definition keepText (text : string) : string := text.
Definition errorName (thrown : Thrown) : string := "TypeError".

(** Catalog cars: one without any performance field, one with a top
    speed, one whose specification is flagged as verified. *)
Definition plainCar : CatalogCar := mkCatalogCar (Some "plain") (Some ∅).
Definition fastCar : CatalogCar :=
  mkCatalogCar (Some "fast") (Some (<[ "topSpeedKph" := JNum 280 ]> ∅)).
Definition flaggedCar : CatalogCar :=
  mkCatalogCar (Some "flagged") (Some (<[ "performanceVerified" := JBool true ]> ∅)).
(** A car with a top speed whose [driveType] is a number. *)
Definition mistypedCar : CatalogCar :=
  mkCatalogCar (Some "mistyped")
               (Some (<[ "topSpeedKph" := JNum 280 ]> (<[ "driveType" := JNum 4 ]> ∅))).

Definition startWorld : World := mkWorld 0 0 0.

End Calibration.

(** ** carPhysics.js: the controls of a car and its saved state *)

Module Controls.

Import Physics.

(** A state with its position replaced. *)
Definition setPosition (s : VehicleState) (pos : Vector.t) : VehicleState :=
  {| position := pos;
     velocity := velocity s;
     heading := heading s;
     angularVelocity := angularVelocity s;
     steerAngle := steerAngle s;
     tires := tires s;
     gearIndex := gearIndex s;
     engineRpm := engineRpm s;
     throttle := throttle s;
     brake := brake s;
     lastLongitudinalAccel := lastLongitudinalAccel s;
     lastLateralAccel := lastLateralAccel s;
     reverseMode := reverseMode s;
     manualMode := manualMode s;
     revLimiterActive := revLimiterActive s |}.

(** A state with its gear, reverse flag and manual flag replaced. *)
Definition setGearbox (s : VehicleState) (gear : Z) (reverse manual : bool) : VehicleState :=
  {| position := position s;
     velocity := velocity s;
     heading := heading s;
     angularVelocity := angularVelocity s;
     steerAngle := steerAngle s;
     tires := tires s;
     gearIndex := gear;
     engineRpm := engineRpm s;
     throttle := throttle s;
     brake := brake s;
     lastLongitudinalAccel := lastLongitudinalAccel s;
     lastLateralAccel := lastLateralAccel s;
     reverseMode := reverse;
     manualMode := manual;
     revLimiterActive := revLimiterActive s |}.

Definition setWorldPosition (c : Car) (x y : R) : Car :=
  let p := params c in
  mkCar p (setPosition (state c) (Vector.mk (x / pixelsPerMeter p) (y / pixelsPerMeter p))).

Definition applyWorldDisplacement (c : Car) (dx dy : R) : Car :=
  let p := params c in
  let s := state c in
  mkCar p (setPosition s (Vector.mk (Vector.x_ (position s) + dx / pixelsPerMeter p)
                                    (Vector.y_ (position s) + dy / pixelsPerMeter p))).

Definition getLongitudinalSpeed (c : Car) : R :=
  let forward := forwardVector (state c) in
  Vector.dot (velocity (state c)) forward.

(** [this.config.gearRatios.length - 1]. *)
Definition maxGear (c : Car) : Z :=
  (Z.of_nat (List.length (gearRatios (config (params c)))) - 1)%Z.

(** [setManualMode(enabled)]; [enabled] is [!!enabled]. *)
Definition setManualMode (c : Car) (enabled : bool) : Car :=
  let s := state c in
  let manual := enabled in
  if negb manual then
    let gear :=
      if (gearIndex s <=? 0)%Z then Z.min 1 (maxGear c) else gearIndex s in
    mkCar (params c) (setGearbox s gear false manual)
  else
    mkCar (params c) (setGearbox s (gearIndex s) (gearIndex s =? -1)%Z manual).

(** Returns the car and the boolean the method returns. *)
Definition shiftUp (c : Car) : Car * bool :=
  let s := state c in
  if negb (manualMode s) then (c, false)
  else
    let nextGear := Z.min (maxGear c) (gearIndex s + 1) in
    if negb (nextGear =? gearIndex s)%Z then
      (mkCar (params c)
             (setGearbox s nextGear
                (if manualMode s then (nextGear =? -1)%Z else reverseMode s)
                (manualMode s)),
       true)
    else (c, false).

Definition shiftDown (c : Car) : Car * bool :=
  let s := state c in
  if negb (manualMode s) then (c, false)
  else
    let nextGear := Z.max (-1) (gearIndex s - 1) in
    if negb (nextGear =? gearIndex s)%Z then
      (mkCar (params c)
             (setGearbox s nextGear
                (if manualMode s then (nextGear =? -1)%Z else reverseMode s)
                (manualMode s)),
       true)
    else (c, false).

(** The four corners of the body, in world pixels. *)
Definition worldPoints (c : Car) : list Vector.t :=
  let p := params c in
  let s := state c in
  let lengthM := wheelbaseM (config p) + 1.2 in
  let widthM := trackWidthM (config p) + 0.6 in
  let halfLength := lengthM * 0.5 in
  let halfWidth := widthM * 0.5 in
  let corners :=
    [Vector.mk halfLength halfWidth; Vector.mk halfLength (- halfWidth);
     Vector.mk (- halfLength) (- halfWidth); Vector.mk (- halfLength) halfWidth] in
  let forward := forwardVector s in
  let right := rightVector s in
  List.map
    (fun corner =>
       let cornerMeters :=
         Vector.mk (Vector.x_ (position s) + Vector.x_ forward * Vector.x_ corner
                    + Vector.x_ right * Vector.y_ corner)
                   (Vector.y_ (position s) + Vector.y_ forward * Vector.x_ corner
                    + Vector.y_ right * Vector.y_ corner) in
       Vector.mk (Vector.x_ cornerMeters * pixelsPerMeter p)
                 (Vector.y_ cornerMeters * pixelsPerMeter p))
    corners.

(** The object literal [{ x, y }] of two numbers. *)
Definition vectorObject (v : Vector.t) : JsVal :=
  JObj (<[ "x" := JNum (Vector.x_ v) ]> (<[ "y" := JNum (Vector.y_ v) ]> ∅)).

Definition serializeState (c : Car) : JsObject :=
  let s := state c in
  list_to_map
    [("position", vectorObject (getWorldPosition c));
     ("heading", JNum (heading s));
     ("velocity", vectorObject (velocity s));
     ("angularVelocity", JNum (angularVelocity s));
     ("steerAngle", JNum (steerAngle s));
     ("engineRpm", JNum (engineRpm s));
     ("throttle", JNum (throttle s));
     ("brake", JNum (brake s));
     ("gearIndex", JNum (IZR (gearIndex s)));
     ("reverseMode", JBool (reverseMode s));
     ("manualMode", JBool (manualMode s));
     ("lastLongitudinalAccel", JNum (lastLongitudinalAccel s));
     ("lastLateralAccel", JNum (lastLateralAccel s))]%string.

(** [Number.isFinite(value)] of a member that may be absent: the number,
    when the value is a finite number; nothing is coerced. *)
Definition finite (value : option JsVal) : option R :=
  match value with
  | Some (JNum r) => Some r
  | _ => None
  end.

(** Whether a value is truthy. *)
Definition truthy (value : JsVal) : bool :=
  match value with
  | JNum r => if Req_dec_T r 0 then false else true
  | JNaN => false
  | JInfinity _ => true
  | JStr s => negb (String.eqb s "")
  | JBool b => b
  | JNull => false
  | JUndefined => false
  | JArr _ => true
  | JObj _ => true
  end.

(** [value.key] for the keys [x] and [y]: only a plain object has them. *)
Definition member (value : JsVal) (key : string) : option JsVal :=
  match value with
  | JObj fields => fields !! key
  | _ => None
  end.

(** [value === true] of a member that may be absent. *)
Definition isTrue (value : option JsVal) : bool :=
  match value with
  | Some (JBool true) => true
  | _ => false
  end.

(** The body of [restoreState] once [state] is known to be an object. *)
Definition restoreFields (c : Car) (saved : JsObject) : Car :=
  let p := params c in
  let s := state c in
  let position1 :=
    match saved !! "position" with
    | Some pos =>
        if truthy pos then
          match finite (member pos "x"), finite (member pos "y") with
          | Some x, Some y => Vector.mk (x / pixelsPerMeter p) (y / pixelsPerMeter p)
          | _, _ => position s
          end
        else position s
    | None => position s
    end in
  let velocity1 :=
    match saved !! "velocity" with
    | Some v =>
        if truthy v then
          Vector.mk (JS.coalesce (finite (member v "x")) 0)
                    (JS.coalesce (finite (member v "y")) 0)
        else velocity s
    | None => velocity s
    end in
  {| params := p;
     state :=
       {| position := position1;
          velocity := velocity1;
          heading := JS.coalesce (finite (saved !! "heading")) (heading s);
          angularVelocity :=
            JS.coalesce (finite (saved !! "angularVelocity")) (angularVelocity s);
          steerAngle := JS.coalesce (finite (saved !! "steerAngle")) (steerAngle s);
          tires := tires s;
          gearIndex :=
            match finite (saved !! "gearIndex") with
            | Some g => JS.trunc g
            | None => gearIndex s
            end;
          engineRpm :=
            match finite (saved !! "engineRpm") with
            | Some rpm => JS.clamp rpm (idleRpm p) (limiterRpm p * 1.05)
            | None => idleRpm p
            end;
          throttle :=
            match finite (saved !! "throttle") with
            | Some t => JS.clamp t (-1) 1
            | None => 0
            end;
          brake :=
            match finite (saved !! "brake") with
            | Some b => JS.clamp b 0 1
            | None => 0
            end;
          lastLongitudinalAccel :=
            JS.coalesce (finite (saved !! "lastLongitudinalAccel")) (lastLongitudinalAccel s);
          lastLateralAccel :=
            JS.coalesce (finite (saved !! "lastLateralAccel")) (lastLateralAccel s);
          reverseMode := isTrue (saved !! "reverseMode");
          manualMode := isTrue (saved !! "manualMode");
          revLimiterActive := revLimiterActive s |} |}.

(** [restoreState(state = {})]: [undefined] takes the default [{}], an
    array is an object without any of the members read, and any other
    value that is not an object leaves the car as it is. *)
Definition restoreState (c : Car) (saved : JsVal) : Car :=
  match saved with
  | JObj fields => restoreFields c fields
  | JArr _ => restoreFields c ∅
  | JUndefined => restoreFields c ∅
  | _ => c
  end.

(** What [restoreState] leaves alone: a saved state with the tires and
    the limiter flag of the car it is restored on. *)
Definition graft (saved current : VehicleState) : VehicleState :=
  setLimiter (setTires saved (tires current)) (revLimiterActive current).

(** What a driver does to a car between two frames. *)
Inductive Action :=
  | ShiftUp
  | ShiftDown
  | ManualMode (enabled : bool)
  | Tick (inputs : Inputs).

Definition act (c : Car) (a : Action) : Car :=
  match a with
  | ShiftUp => (shiftUp c).1
  | ShiftDown => (shiftDown c).1
  | ManualMode enabled => setManualMode c enabled
  | Tick inputs => step c inputs
  end.

(** A sequence of actions on one car: the car after the last. *)
Definition drive (c : Car) (actions : list Action) : Car := fold_left act actions c.

End Controls.

(** * Properties *)

(** Decimal literals stay as they are under simplification. *)
Arguments Z.pow_pos : simpl never.
Arguments IZR : simpl never.

(** ** Comparisons and clamps *)

Lemma ltb_true (a b : R) : (a <? b) = true <-> a < b.
Proof. unfold JS.ltb; destruct (Rlt_dec a b); split; intros; auto; discriminate. Qed.

Lemma ltb_false (a b : R) : (a <? b) = false <-> b <= a.
Proof.
  unfold JS.ltb; destruct (Rlt_dec a b); split; intros; auto; try discriminate; lra.
Qed.

Lemma leb_true (a b : R) : (a <=? b) = true <-> a <= b.
Proof. unfold JS.leb; destruct (Rle_dec a b); split; intros; auto; discriminate. Qed.

Lemma leb_false (a b : R) : (a <=? b) = false <-> b < a.
Proof.
  unfold JS.leb; destruct (Rle_dec a b); split; intros; auto; try discriminate; lra.
Qed.

Lemma gtb_true (a b : R) : (a >? b) = true <-> b < a.
Proof. apply ltb_true. Qed.

Lemma gtb_false (a b : R) : (a >? b) = false <-> a <= b.
Proof. apply ltb_false. Qed.

Lemma geb_true (a b : R) : (a >=? b) = true <-> b <= a.
Proof. apply leb_true. Qed.

Lemma geb_false (a b : R) : (a >=? b) = false <-> a < b.
Proof. apply leb_false. Qed.

(** Splits on the comparisons, maxima and minima of the goal. *)
Ltac rsplit :=
  repeat match goal with
  | |- context [Rlt_dec ?a ?b] => destruct (Rlt_dec a b)
  | |- context [Rle_dec ?a ?b] => destruct (Rle_dec a b)
  | |- context [Rcase_abs ?a] => destruct (Rcase_abs a)
  | H : context [Rlt_dec ?a ?b] |- _ => destruct (Rlt_dec a b)
  | H : context [Rle_dec ?a ?b] |- _ => destruct (Rle_dec a b)
  | H : context [Rcase_abs ?a] |- _ => destruct (Rcase_abs a)
  end.

Ltac rcompute :=
  unfold JS.clamp, JS.sign, JS.gtb, JS.geb, JS.ltb, JS.leb, Rmax, Rmin, Rabs in *; rsplit;
  try reflexivity; try lra.

Lemma clamp_inside (v lo hi : R) : lo <= v <= hi -> JS.clamp v lo hi = v.
Proof. intros; rcompute. Qed.

Lemma clamp_bounds (v lo hi : R) : lo <= hi -> lo <= JS.clamp v lo hi <= hi.
Proof. intros; rcompute. Qed.

Lemma clamp_below (v lo hi : R) : lo <= hi -> v <= lo -> JS.clamp v lo hi = lo.
Proof. intros; rcompute. Qed.

Lemma clamp_above (v lo hi : R) : lo <= hi -> hi <= v -> JS.clamp v lo hi = hi.
Proof. intros; rcompute. Qed.

Lemma PI_gt_3 : 3 < PI.
Proof. pose proof PI2_3_2; lra. Qed.

(** [Math.pow] on the unit interval stays in the unit interval. *)
Lemma pow_unit (r e : R) : 0 <= r <= 1 -> 0 < e -> 0 <= JS.pow r e <= 1.
Proof.
  intros [H0 H1] He. unfold JS.pow. destruct (r <? 0) eqn:E.
  - apply ltb_true in E; lra.
  - clear E. destruct (0 <? r) eqn:E; [apply ltb_true in E | lra].
    split; [left; apply exp_pos|].
    unfold Rpower. rewrite <- exp_0.
    destruct (Req_dec r 1) as [->|Hne].
    + rewrite ln_1, Rmult_0_r. lra.
    + left. apply exp_increasing.
      assert (ln r < 0) by (rewrite <- ln_1; apply ln_increasing; lra).
      nra.
Qed.

Lemma pow_one (e : R) : JS.pow 1 e = 1.
Proof.
  unfold JS.pow. destruct (0 <? 1) eqn:E; [|apply ltb_false in E; lra].
  unfold Rpower. rewrite ln_1, Rmult_0_r. apply exp_0.
Qed.

Lemma pow_zero (e : R) : JS.pow 0 e = 0.
Proof.
  unfold JS.pow. destruct (0 <? 0) eqn:E; [apply ltb_true in E; lra | reflexivity].
Qed.

Lemma pow_mono (a b e : R) : 0 <= a <= b -> 0 < e -> JS.pow a e <= JS.pow b e.
Proof.
  intros [Ha Hab] He. unfold JS.pow.
  destruct (0 <? a) eqn:Ea, (0 <? b) eqn:Eb;
    rewrite ?ltb_true, ?ltb_false in *; try lra.
  - apply Rle_Rpower_l; lra.
  - left; apply exp_pos.
Qed.

(** ** The torque curve *)

Import Physics.

Lemma newCar_idleRpm cfg o : idleRpm (params (newCar cfg o)) = 900.
Proof.
  reflexivity.
Qed.

Lemma newCar_peakRpm cfg o :
  peakRpm (params (newCar cfg o))
  = Rmax 2500 (((horsepower (mergeConfig cfg) * 745.7) / (peakTorqueNm (mergeConfig cfg) + 1e-6))
               * (60 / (2 * PI))).
Proof.
  reflexivity.
Qed.

Lemma newCar_limiterRpm cfg o :
  limiterRpm (params (newCar cfg o)) = JS.coalesce (in_revLimiterRpm cfg) 7000.
Proof.
  reflexivity.
Qed.

Lemma newCar_config cfg o : config (params (newCar cfg o)) = mergeConfig cfg.
Proof.
  reflexivity.
Qed.

Lemma newCar_peakRpm_ge cfg o : 2500 <= peakRpm (params (newCar cfg o)).
Proof. rewrite newCar_peakRpm. apply Rmax_l. Qed.

(** The rising branch, for parameters whose idle speed lies at least one
    rpm under the peak. *)
Lemma torqueAtRpm_rising (p : CarParams) (rpm : R) :
  idleRpm p + 1 <= peakRpm p ->
  idleRpm p <= rpm <= peakRpm p ->
  rpm <= limiterRpm p + 600 ->
  let r := (rpm - idleRpm p) / (peakRpm p - idleRpm p) in
  0 <= r <= 1 /\
  0.65 <= 0.65 + 0.35 * JS.pow r 1.25 <= 1 /\
  torqueAtRpm p rpm = peakTorqueNm (config p) * (0.65 + 0.35 * JS.pow r 1.25).
Proof.
  intros Hip [Hlo Hhi] Hlim r.
  assert (Hr : 0 <= r <= 1).
  { unfold r. split.
    - apply Rmult_le_pos; [lra | left; apply Rinv_0_lt_compat; lra].
    - apply Rmult_le_reg_r with (peakRpm p - idleRpm p); [lra|].
      unfold Rdiv. rewrite Rmult_assoc, Rinv_l by lra. lra. }
  pose proof (pow_unit r 1.25 Hr ltac:(lra)) as Hp.
  split; [exact Hr|]. split; [lra|].
  unfold torqueAtRpm.
  rewrite (clamp_inside rpm) by lra.
  destruct (rpm <=? peakRpm p) eqn:E; [|apply leb_false in E; lra].
  replace (Rmax 1 (peakRpm p - idleRpm p)) with (peakRpm p - idleRpm p)
    by (symmetry; apply Rmax_right; lra).
  fold r. rewrite (clamp_inside r) by lra.
  rewrite clamp_inside by lra. reflexivity.
Qed.

Lemma torqueAtRpm_hyperbola (p : CarParams) (rpm : R) :
  idleRpm p <= peakRpm p -> 1 <= peakRpm p ->
  peakRpm p < rpm <= limiterRpm p ->
  torqueAtRpm p rpm
  = JS.clamp ((horsepower (config p) * 5252) / rpm)
             (peakTorqueNm (config p) * 0.45) (peakTorqueNm (config p)).
Proof.
  intros Hip H1 [Hlo Hhi].
  unfold torqueAtRpm.
  rewrite (clamp_inside rpm) by lra.
  destruct (rpm <=? peakRpm p) eqn:E; [apply leb_true in E; lra|].
  destruct (rpm <=? limiterRpm p) eqn:E2; [|apply leb_false in E2; lra].
  rewrite Rmax_left by lra. reflexivity.
Qed.

Lemma torqueAtRpm_collapse (p : CarParams) (rpm : R) :
  idleRpm p <= peakRpm p ->
  peakRpm p <= limiterRpm p ->
  limiterRpm p < rpm ->
  let overshoot := JS.clamp ((Rmin rpm (limiterRpm p + 600) - limiterRpm p) / 600) 0 1 in
  let factor := JS.clamp (0.12 * (1 - overshoot)) 0.05 0.12 in
  0 < overshoot <= 1 /\ 0.05 <= factor < 0.12 /\
  torqueAtRpm p rpm = peakTorqueNm (config p) * factor.
Proof.
  intros Hip Hpl Hlo overshoot factor.
  assert (He : JS.clamp rpm (idleRpm p) (limiterRpm p + 600)
               = Rmin rpm (limiterRpm p + 600)).
  { unfold JS.clamp. rewrite Rmin_comm. apply Rmax_right.
    apply Rmin_glb; lra. }
  assert (Hm : limiterRpm p < Rmin rpm (limiterRpm p + 600) <= limiterRpm p + 600).
  { split; [apply Rmin_glb_lt; lra | apply Rmin_r]. }
  assert (Ho : 0 < overshoot <= 1).
  { unfold overshoot. rcompute. }
  split; [exact Ho|].
  split; [unfold factor; rcompute|].
  unfold torqueAtRpm. rewrite He.
  destruct (_ <=? peakRpm p) eqn:E; [apply leb_true in E; lra|].
  destruct (_ <=? limiterRpm p) eqn:E2; [apply leb_true in E2; lra|].
  reflexivity.
Qed.

Lemma rpm_per_rad_bounds : 7.5 <= 60 / (2 * PI) < 10.
Proof.
  pose proof PI_gt_3 as H3. pose proof PI_4 as H4.
  assert (Hinv : / 4 <= / PI < / 3).
  { split.
    - apply Rinv_le_contravar; lra.
    - apply Rinv_lt_contravar; nra. }
  replace (60 / (2 * PI)) with (30 * / PI) by (field; lra).
  lra.
Qed.

Lemma highRev_peak : 7200 <= peakRpm (params (newCar highRevConfig noOptions)).
Proof.
  rewrite newCar_peakRpm. simpl.
  pose proof rpm_per_rad_bounds as [Hlo _].
  eapply Rle_trans; [|apply Rmax_r].
  assert (1118 <= 300 * 745.7 / (200 + 1e-6)).
  { apply Rmult_le_reg_r with (200 + 1e-6); [lra|].
    unfold Rdiv. rewrite Rmult_assoc, Rinv_l by lra. lra. }
  nra.
Qed.

(** C3, as stated, fails: with the limiter under the peak, an engine speed
    above the limiter is still served by the rising branch. *)
Lemma torqueAtRpm_limiter_below_peak :
  let p := params (newCar highRevConfig noOptions) in
  limiterRpm p < 7200 /\
  peakTorqueNm (config p) = 200 /\
  ~ (0.05 * peakTorqueNm (config p) <= torqueAtRpm p 7200 <= 0.12 * peakTorqueNm (config p)).
Proof.
  intros p.
  assert (Hl : limiterRpm p = 7000) by (unfold p; rewrite newCar_limiterRpm; reflexivity).
  assert (Hi : idleRpm p = 900) by (unfold p; apply newCar_idleRpm).
  assert (Ht : peakTorqueNm (config p) = 200) by (unfold p; rewrite newCar_config; reflexivity).
  pose proof highRev_peak as Hp. fold p in Hp.
  split; [lra|]. split; [exact Ht|].
  destruct (torqueAtRpm_rising p 7200) as (_ & Hf & Heq); try lra.
  rewrite Heq, Ht. lra.
Qed.

(** C3 (amended).  For a car whose rev limiter is at or above its peak rpm,
    [torqueAtRpm] is piecewise: from idle to peak it is the peak torque times
    [0.65 + 0.35 r^1.25], [r] the normalised position between idle and peak,
    a factor that rises from 0.65 at idle to 1 at the peak; between the peak
    and the limiter it is [hp * 5252 / rpm] clamped to 45%..100% of the peak
    torque; above the limiter it is the peak torque times a factor between
    0.05 and 0.12, namely [0.12 * (1 - overshoot)] clamped, with [overshoot]
    the excess over the limiter (capped at 600 rpm) divided by 600. *)
Theorem torqueAtRpm_piecewise (cfg : CarConfigInput) (o : CarOptions) (rpm : R) :
  let p := params (newCar cfg o) in
  let peakTorque := peakTorqueNm (config p) in
  let position_of (v : R) := (v - idleRpm p) / (peakRpm p - idleRpm p) in
  let rising (v : R) := 0.65 + 0.35 * JS.pow (position_of v) 1.25 in
  peakRpm p <= limiterRpm p ->
  (idleRpm p <= rpm <= peakRpm p ->
     0 <= position_of rpm <= 1 /\ 0.65 <= rising rpm <= 1 /\
     torqueAtRpm p rpm = peakTorque * rising rpm /\
     (forall rpm', rpm <= rpm' <= peakRpm p -> rising rpm <= rising rpm'))
  /\ torqueAtRpm p (idleRpm p) = peakTorque * 0.65
  /\ torqueAtRpm p (peakRpm p) = peakTorque
  /\ (peakRpm p < rpm <= limiterRpm p ->
        torqueAtRpm p rpm
        = JS.clamp ((horsepower (config p) * 5252) / rpm) (peakTorque * 0.45) peakTorque)
  /\ (limiterRpm p < rpm ->
        let overshoot := JS.clamp ((Rmin rpm (limiterRpm p + 600) - limiterRpm p) / 600) 0 1 in
        let factor := JS.clamp (0.12 * (1 - overshoot)) 0.05 0.12 in
        0 < overshoot <= 1 /\ 0.05 <= factor < 0.12 /\
        torqueAtRpm p rpm = peakTorque * factor).
Proof.
  intros p peakTorque position_of rising Hpl.
  assert (Hi : idleRpm p = 900) by apply newCar_idleRpm.
  pose proof (newCar_peakRpm_ge cfg o) as Hp. fold p in Hp.
  split; [intros Hr|split; [|split; [|split; intros Hr]]].
  - destruct (torqueAtRpm_rising p rpm) as (Hpos & Hf & Heq); try lra.
    split; [exact Hpos|]. split; [exact Hf|]. split; [exact Heq|].
    intros rpm' Hr'. unfold rising.
    assert (position_of rpm <= position_of rpm').
    { unfold position_of, Rdiv. apply Rmult_le_compat_r; [|lra].
      left; apply Rinv_0_lt_compat; lra. }
    pose proof (pow_mono (position_of rpm) (position_of rpm') 1.25).
    unfold position_of in *. lra.
  - destruct (torqueAtRpm_rising p (idleRpm p)) as (_ & _ & Heq); try lra.
    rewrite Heq. replace ((idleRpm p - idleRpm p) / (peakRpm p - idleRpm p)) with 0
      by (unfold Rdiv; ring).
    rewrite pow_zero. unfold peakTorque. lra.
  - destruct (torqueAtRpm_rising p (peakRpm p)) as (_ & _ & Heq); try lra.
    rewrite Heq. replace ((peakRpm p - idleRpm p) / (peakRpm p - idleRpm p)) with 1
      by (field; lra).
    rewrite pow_one. unfold peakTorque. lra.
  - apply torqueAtRpm_hyperbola; lra.
  - apply torqueAtRpm_collapse; lra.
Qed.

Lemma default_peak_below_limiter :
  peakRpm (params (newCar emptyConfig noOptions))
  <= limiterRpm (params (newCar emptyConfig noOptions)).
Proof.
  rewrite newCar_peakRpm, newCar_limiterRpm. simpl.
  pose proof rpm_per_rad_bounds as [_ Hhi].
  assert (420 * 745.7 / (530 + 1e-6) <= 600).
  { apply Rmult_le_reg_r with (530 + 1e-6); [lra|].
    unfold Rdiv. rewrite Rmult_assoc, Rinv_l by lra. lra. }
  assert (0 <= 420 * 745.7 / (530 + 1e-6)).
  { apply Rmult_le_pos; [lra | left; apply Rinv_0_lt_compat; lra]. }
  apply Rmax_lub; [lra | nra].
Qed.

(** The default car has its limiter above its peak RPM, as the piecewise reading requires. *)
Lemma torqueAtRpm_piecewise_witness :
  let p := params (newCar emptyConfig noOptions) in
  peakRpm p <= limiterRpm p /\
  torqueAtRpm p (idleRpm p) = peakTorqueNm (config p) * 0.65.
Proof.
  intros p. split; [apply default_peak_below_limiter|].
  apply (torqueAtRpm_piecewise emptyConfig noOptions 3000 default_peak_below_limiter).
Defined.

(** ** The remainder operator and the heading *)

Lemma rem_nonneg (a b : R) : 0 <= a -> 0 < b -> 0 <= JS.rem a b < b.
Proof.
  intros Ha Hb. unfold JS.rem, JS.trunc.
  assert (Hq : 0 <= a / b).
  { apply Rmult_le_pos; [lra | left; apply Rinv_0_lt_compat; lra]. }
  destruct (0 <=? a / b) eqn:E; [|apply leb_false in E; lra].
  pose proof (Zfloor_bound (a / b)) as [Hlo Hhi].
  assert (Hab : a = a / b * b) by (field; lra).
  split; nra.
Qed.

Lemma rem_neg (a b : R) : a < 0 -> 0 < b -> - b < JS.rem a b <= 0.
Proof.
  intros Ha Hb. unfold JS.rem, JS.trunc.
  assert (Hq : a / b < 0).
  { assert (0 < - a / b) by (apply Rmult_lt_0_compat; [lra | apply Rinv_0_lt_compat; lra]).
    replace (a / b) with (- (- a / b)) by (field; lra). lra. }
  destruct (0 <=? a / b) eqn:E; [apply leb_true in E; lra|].
  pose proof (Zfloor_bound (- (a / b))) as [Hlo Hhi].
  rewrite opp_IZR.
  assert (Hab : a = a / b * b) by (field; lra).
  split; nra.
Qed.

(** A dividend strictly between [- b] and [0] is its own remainder. *)
Lemma rem_small_neg (a b : R) : - b < a < 0 -> JS.rem a b = a.
Proof.
  intros [Hlo Hhi]. unfold JS.rem, JS.trunc.
  assert (Hb : 0 < b) by lra.
  assert (Hq : -1 < a / b < 0).
  { assert (Hab : a = a / b * b) by (field; lra). split; nra. }
  destruct (0 <=? a / b) eqn:E; [apply leb_true in E; lra|].
  rewrite (Zfloor_eq 0 (- (a / b))) by (simpl; lra).
  change (- 0)%Z with 0%Z. lra.
Qed.

Lemma rem_self (b : R) : 0 < b -> JS.rem b b = 0.
Proof.
  intros Hb. unfold JS.rem, JS.trunc.
  replace (b / b) with 1 by (field; lra).
  destruct (0 <=? 1) eqn:E; [|apply leb_false in E; lra].
  rewrite (Zfloor_eq 1 1) by (simpl; lra). simpl. lra.
Qed.

Lemma update_heading (c : Car) (ti bi si dt : R) :
  heading (state (update c ti bi si dt))
  = JS.rem (integratedHeading c ti bi si dt + PI) (2 * PI) - PI.
Proof. reflexivity. Qed.

(** ** Quiet ticks: no throttle *)

Ltac break_if :=
  match goal with
  | |- context [if ?b then _ else _] =>
      lazymatch b with
      | context [if _ then _ else _] => fail
      | _ => destruct b eqn:?
      end
  end.

Lemma updatePowertrain_throttle_zero (p : CarParams) (s : VehicleState) (vLong dt : R) :
  throttle s = 0 -> throttle (updatePowertrain p s 0 vLong dt) = 0.
Proof.
  intros H. unfold updatePowertrain. cbn [throttle]. rewrite H.
  assert (H0 : JS.clamp (0 + (JS.clamp 0 (-1) 1 - 0) * JS.clamp (dt * 4) 0 1) (-1) 1 = 0).
  { rewrite (clamp_inside 0) by lra. rewrite Rminus_0_r, Rmult_0_l, Rplus_0_r.
    apply clamp_inside; lra. }
  rewrite H0.
  assert (Hc : JS.clamp 0 0 1 = 0) by (apply clamp_inside; lra).
  repeat break_if; cbn [fst snd]; rewrite ?Hc, ?Rabs_R0; try reflexivity; lra.
Qed.

Lemma computeLongitudinalForces_drive_zero (p : CarParams) (s : VehicleState)
    (brakeInput dt vLong : R) :
  throttle s = 0 -> (computeLongitudinalForces p s brakeInput dt vLong).1.2 = 0.
Proof.
  intros H. unfold computeLongitudinalForces. cbn [fst snd]. rewrite H.
  rewrite Rabs_R0. replace (Rmax 0 0) with 0 by (symmetry; apply Rmax_left; lra).
  assert (Hz : forall t e, (t * 0 * e >? 0) = false).
  { intros. apply gtb_false. lra. }
  assert (Ha : (Rabs 0 >? 0) = false) by (rewrite Rabs_R0; apply gtb_false; lra).
  repeat break_if; rewrite ?Hz, ?Ha in *; try discriminate; try reflexivity; try lra.
  all: rewrite andb_true_iff in *; destruct_and?; congruence.
Qed.

Lemma computeLongitudinalForces_brake (p : CarParams) (s : VehicleState)
    (brakeInput dt vLong : R) :
  brake (computeLongitudinalForces p s brakeInput dt vLong).1.1
  = JS.clamp (brake s + (brakeInput - brake s) * JS.clamp (dt * 6) 0 1) 0 1.
Proof. reflexivity. Qed.

Lemma computeLongitudinalForces_brakeForces (p : CarParams) (s : VehicleState)
    (brakeInput dt vLong : R) (i : wheel) :
  Wheel.get (computeLongitudinalForces p s brakeInput dt vLong).2 i
  = Wheel.get (carBrakeTorquePerWheelNm p) i
    * brake (computeLongitudinalForces p s brakeInput dt vLong).1.1
    / (wheelRadiusM (config p) + 1e-6).
Proof. destruct i; reflexivity. Qed.

Section QuietTick.

(** A tick without throttle at walking pace: no drive force and no slip
    angle, so the tires carry brake force only. *)
Variable c : Car.
Variables brakeInput steerInput dt : R.

Let s := state c.
Let p := params c.
Let setup := tireSetup c 0 brakeInput steerInput dt.

Hypothesis no_throttle : throttle s = 0.
Hypothesis slow : Vector.length (velocity s) <= 0.5.
Hypothesis slow_long : Rabs (Vector.dot (velocity s) (forwardVector s)) <= 0.5.
Hypothesis lateral_grips : forall i, 0 <= Wheel.get (lateralGripCoeffs p) i.

Lemma quiet_state_velocity : velocity (ts_state setup) = velocity s.
Proof. reflexivity. Qed.

Lemma quiet_state_heading : heading (ts_state setup) = heading s.
Proof. reflexivity. Qed.

Lemma quiet_state_angularVelocity : angularVelocity (ts_state setup) = angularVelocity s.
Proof. reflexivity. Qed.

Lemma quiet_state_throttle : throttle (ts_state setup) = 0.
Proof. apply updatePowertrain_throttle_zero, no_throttle. Qed.

Lemma quiet_state_brake :
  brake (ts_state setup)
  = JS.clamp (brake s + (brakeInput - brake s) * JS.clamp (dt * 6) 0 1) 0 1.
Proof. reflexivity. Qed.

Lemma quiet_speed : ts_speed setup = Vector.length (velocity s).
Proof. reflexivity. Qed.

Lemma quiet_normals_nonneg (i : wheel) : 0 <= Wheel.get (ts_tireNormals setup) i.
Proof. destruct i; apply Rmax_l. Qed.

Lemma quiet_lateral (i : wheel) : Wheel.get (ts_tireForcesLat setup) i = 0.
Proof.
  assert (Hs : (Vector.length (velocity s) >? 0.5) = false) by (apply gtb_false, slow).
  assert (Hl : (Rabs (Vector.dot (velocity s) (forwardVector s)) >? 0.5) = false)
    by (apply gtb_false, slow_long).
  pose proof (lateral_grips W_FL) as G0. pose proof (lateral_grips W_FR) as G1.
  pose proof (lateral_grips W_RL) as G2. pose proof (lateral_grips W_RR) as G3.
  pose proof (quiet_normals_nonneg W_FL) as N0. pose proof (quiet_normals_nonneg W_FR) as N1.
  pose proof (quiet_normals_nonneg W_RL) as N2. pose proof (quiet_normals_nonneg W_RR) as N3.
  cbn [Wheel.get] in *.
  assert (Hz : forall k m, 0 <= m -> JS.clamp (k * 0) (- m) m = 0).
  { intros k m Hm. rewrite Rmult_0_r. apply clamp_inside; lra. }
  unfold setup, tireSetup.
  fold s p. cbn [ts_tireForcesLat ts_tireNormals] in *.
  change (velocity (updatePowertrain p s 0 _ dt)) with (velocity s) in *.
  rewrite Hl, Hs. cbn [fst snd].
  repeat match goal with
  | |- context [JS.clamp (?k * 0) (- ?m) ?m] =>
      rewrite (Hz k m)
        by (cbn [FL FR RL RR]; apply Rplus_le_le_0_compat; apply Rmult_le_pos;
            auto using Rmax_l)
  end.
  destruct i; cbn [Wheel.get FL FR RL RR]; lra.
Qed.

Lemma quiet_longitudinal (i : wheel) :
  Wheel.get (ts_tireForcesLong setup) i
  = - brakeDirectionOf (Vector.dot (velocity s) (forwardVector s))
    * (Wheel.get (carBrakeTorquePerWheelNm p) i * brake (ts_state setup)
       / (wheelRadiusM (config p) + 1e-6)).
Proof.
  pose proof (computeLongitudinalForces_drive_zero p
    (updatePowertrain p s 0 (Vector.dot (velocity s) (forwardVector s)) dt)
    brakeInput dt (Vector.dot (velocity s) (forwardVector s))
    (updatePowertrain_throttle_zero p s _ dt no_throttle)) as Hd.
  unfold setup, tireSetup. fold s p. cbn [ts_tireForcesLong ts_state brake].
  rewrite Hd. unfold brakeDirectionOf.
  destruct i; cbn [Wheel.get FL FR RL RR]; unfold computeLongitudinalForces;
    cbn [fst snd Wheel.map FL FR RL RR brake]; lra.
Qed.

(** With the brake released as well, the wheel loop adds up nothing. *)
Hypothesis brake_released : brake s = 0.
Hypothesis no_brake : brakeInput = 0.

Lemma quiet_brake_zero : brake (ts_state setup) = 0.
Proof.
  rewrite quiet_state_brake, brake_released, no_brake.
  rewrite Rminus_0_r, Rmult_0_l, Rplus_0_r. apply clamp_inside; lra.
Qed.

Lemma coast_longitudinal (i : wheel) : Wheel.get (ts_tireForcesLong setup) i = 0.
Proof. rewrite quiet_longitudinal, quiet_brake_zero. unfold Rdiv. ring. Qed.

Lemma coast_tire (i : wheel) : combinedForce (saturateWheel p setup i) = Vector.mk 0 0.
Proof.
  unfold saturateWheel. rewrite coast_longitudinal, quiet_lateral.
  assert (Hr : forall a b, loadRatio a b 0 0 = 0).
  { intros a b. unfold loadRatio, Rdiv. rewrite !Rmult_0_l.
    repeat break_if; rewrite ?Rplus_0_l; apply sqrt_0. }
  rewrite Hr.
  assert (Hg : (0 >? 1) = false) by (apply gtb_false; lra).
  rewrite Hg. reflexivity.
Qed.

Lemma coast_totals :
  (wheelLoop p setup).2.1.1 = 0 /\ (wheelLoop p setup).2.1.2 = 0
  /\ (wheelLoop p setup).2.2 = 0.
Proof.
  unfold wheelLoop, accumulate. cbn [fst snd]. rewrite !coast_tire.
  cbn [Vector.x_ Vector.y_]. repeat split; lra.
Qed.

Lemma coast_integratedHeading :
  integratedHeading c 0 brakeInput steerInput dt = heading s + angularVelocity s * dt.
Proof.
  unfold integratedHeading. fold p setup.
  destruct coast_totals as (_ & _ & ->).
  rewrite quiet_state_heading, quiet_state_angularVelocity. unfold Rdiv. ring.
Qed.

(** The settle of lines 678-684 does not fire: the brake is not above
    0.1. *)
Lemma coast_velocity :
  velocity (state (update c 0 brakeInput steerInput dt))
  = integratedVelocity c 0 brakeInput steerInput dt.
Proof.
  unfold update, integratedVelocity. fold p setup. cbn [state velocity].
  rewrite quiet_brake_zero.
  assert (Hg : (0 >? 0.1) = false) by (apply gtb_false; lra).
  rewrite Hg, !andb_false_r. reflexivity.
Qed.

Lemma coast_integratedVelocity :
  integratedVelocity c 0 brakeInput steerInput dt
  = let cfg := config p in
    let velDir := Vector.normalize (velocity s) in
    if Vector.length (velocity s) >? 1e-3 then
      Vector.mk (Vector.x_ (velocity s)
                 + ((0 + - Vector.x_ velDir * ts_dragForce setup
                       + - Vector.x_ velDir * (rollingResistanceCoeff cfg * (massKg cfg * G)))
                    / massKg cfg) * dt)
                (Vector.y_ (velocity s)
                 + ((0 + - Vector.y_ velDir * ts_dragForce setup
                       + - Vector.y_ velDir * (rollingResistanceCoeff cfg * (massKg cfg * G)))
                    / massKg cfg) * dt)
    else Vector.mk (Vector.x_ (velocity s) + 0 / massKg cfg * dt)
                   (Vector.y_ (velocity s) + 0 / massKg cfg * dt).
Proof.
  unfold integratedVelocity. fold p setup.
  destruct coast_totals as (-> & -> & _).
  rewrite quiet_speed, quiet_state_velocity.
  rewrite !Rmult_0_r, !Rplus_0_r.
  cbv zeta. destruct (Vector.length (velocity s) >? 1e-3); reflexivity.
Qed.

End QuietTick.

Lemma length_zero : Vector.length (Vector.mk 0 0) = 0.
Proof.
  unfold Vector.length, JS.hypot; cbn. rewrite Rmult_0_l, Rplus_0_l. apply sqrt_0.
Qed.

Lemma default_lateral_grips (o : CarOptions) (i : wheel) :
  0 <= Wheel.get (lateralGripCoeffs (params (newCar emptyConfig o))) i.
Proof.
  destruct i; cbn; rcompute.
Qed.

Lemma carAtRest_integratedHeading (h0 si dt : R) :
  integratedHeading (carAtRest h0) 0 0 si dt = h0.
Proof.
  rewrite coast_integratedHeading; try reflexivity.
  - cbn. lra.
  - change (velocity (state (carAtRest h0))) with (Vector.mk 0 0).
    rewrite length_zero; lra.
  - unfold Vector.dot. change (velocity (state (carAtRest h0))) with (Vector.mk 0 0).
    cbn [Vector.x_ Vector.y_]. rewrite !Rmult_0_l, Rplus_0_l, Rabs_R0. lra.
  - apply default_lateral_grips.
Qed.

(** C8, as stated, fails.  A car standing still with heading pi, which lies
    in (-pi, pi], has heading -pi after a tick; and a heading of -5, under
    -pi, is left as it is, the remainder of a negative dividend being
    negative. *)
Lemma heading_leaves_interval :
  heading (state (update (carAtRest PI) 0 0 0 (1 / 60))) = - PI
  /\ heading (state (update (carAtRest (-5)) 0 0 0 (1 / 60))) = -5
  /\ ~ (- PI < - PI <= PI) /\ ~ (- PI < -5 <= PI).
Proof.
  pose proof PI_gt_3. pose proof PI_4.
  rewrite !update_heading, !carAtRest_integratedHeading.
  replace (PI + PI) with (2 * PI) by ring.
  rewrite rem_self by lra.
  rewrite rem_small_neg by lra.
  repeat split; lra.
Qed.

(** C8 (amended).  When the heading integrated during the tick is at least
    -pi, the heading stored by [update] lies in [-pi, pi). *)
Theorem heading_normalized (c : Car) (throttleInput brakeInput steerInput dt : R) :
  - PI <= integratedHeading c throttleInput brakeInput steerInput dt ->
  - PI <= heading (state (update c throttleInput brakeInput steerInput dt)) < PI.
Proof.
  intros H. rewrite update_heading.
  pose proof PI_gt_3.
  destruct (rem_nonneg (integratedHeading c throttleInput brakeInput steerInput dt + PI)
                       (2 * PI)); lra.
Qed.

Lemma heading_normalized_witness :
  - PI <= integratedHeading (carAtRest 0) 0 0 0 (1 / 60)
  /\ - PI <= heading (state (update (carAtRest 0) 0 0 0 (1 / 60))) < PI.
Proof.
  assert (H : - PI <= integratedHeading (carAtRest 0) 0 0 0 (1 / 60)).
  { rewrite carAtRest_integratedHeading. pose proof PI_gt_3. lra. }
  split; [exact H | exact (heading_normalized (carAtRest 0) 0 0 0 (1 / 60) H)].
Defined.

(** ** The low-speed settle *)

Lemma update_throttle (c : Car) (ti bi si dt : R) :
  throttle (state (update c ti bi si dt)) = throttle (ts_state (tireSetup c ti bi si dt)).
Proof. reflexivity. Qed.

Lemma update_brake (c : Car) (ti bi si dt : R) :
  brake (state (update c ti bi si dt))
  = JS.clamp (brake (state c) + (bi - brake (state c)) * JS.clamp (dt * 6) 0 1) 0 1.
Proof. reflexivity. Qed.

Lemma creeping_speed : Vector.length (velocity (state creepingCar)) = 0.04.
Proof.
  change (velocity (state creepingCar)) with (Vector.mk 0.04 0).
  unfold Vector.length, JS.hypot. cbn [Vector.x_ Vector.y_].
  replace (0.04 * 0.04 + 0 * 0) with (0.04 * 0.04) by ring.
  apply sqrt_square. lra.
Qed.

Lemma creeping_forward :
  Vector.dot (velocity (state creepingCar)) (forwardVector (state creepingCar)) = 0.04.
Proof.
  unfold Vector.dot, forwardVector.
  change (velocity (state creepingCar)) with (Vector.mk 0.04 0).
  change (heading (state creepingCar)) with 0.
  cbn [Vector.x_ Vector.y_]. rewrite cos_0, sin_0. lra.
Qed.

(** C9, as stated, fails.  The default car creeps at 0.04 m/s with throttle
    and brake released: speed, throttle and brake are all under any small
    threshold, and half the speed is under the stop threshold of 0.05, yet
    the tick neither halves nor zeroes the velocity. *)
Lemma settle_needs_brake :
  let c' := update creepingCar 0 0 0 (1 / 60) in
  Vector.length (velocity (state creepingCar)) < 0.2
  /\ Rabs (throttle (state c')) < 0.05
  /\ brake (state c') = 0
  /\ velocity (state c') = integratedVelocity creepingCar 0 0 0 (1 / 60)
  /\ 0.03 < Vector.x_ (velocity (state c'))
  /\ velocity (state c') <> Vector.mk 0 0.
Proof.
  intros c'.
  assert (Hth : throttle (state creepingCar) = 0) by reflexivity.
  assert (Hs : Vector.length (velocity (state creepingCar)) <= 0.5)
    by (rewrite creeping_speed; lra).
  assert (Hl : Rabs (Vector.dot (velocity (state creepingCar))
                                (forwardVector (state creepingCar))) <= 0.5)
    by (rewrite creeping_forward; rcompute).
  assert (Hg : forall i, 0 <= Wheel.get (lateralGripCoeffs (params creepingCar)) i)
    by (apply default_lateral_grips).
  assert (Hb : brake (state creepingCar) = 0) by reflexivity.
  assert (Hv : velocity (state c') = integratedVelocity creepingCar 0 0 0 (1 / 60)).
  { apply coast_velocity; auto. }
  assert (Hx : 0.03 < Vector.x_ (velocity (state c'))).
  { rewrite Hv, coast_integratedVelocity; auto.
    cbv zeta. rewrite creeping_speed.
    destruct (0.04 >? 1e-3) eqn:E; [|apply gtb_false in E; lra].
    cbn [Vector.x_].
    unfold Vector.normalize. rewrite creeping_speed.
    destruct (0.04 <? 1e-9) eqn:E2; [apply ltb_true in E2; lra|].
    change (velocity (state creepingCar)) with (Vector.mk 0.04 0).
    cbn [Vector.x_].
    unfold tireSetup. cbn [ts_dragForce]. unfold computeAeroForces. cbn [fst].
    rewrite creeping_speed, creeping_forward.
    destruct (0.04 <? -0.2) eqn:E3; [apply ltb_true in E3; lra|].
    cbn. unfold G, AIR_DENSITY. lra. }
  split; [rewrite creeping_speed; lra|].
  split; [unfold c'; rewrite update_throttle, quiet_state_throttle by exact Hth;
          rewrite Rabs_R0; lra|].
  split; [unfold c'; rewrite update_brake, Hb; rcompute|].
  split; [exact Hv|]. split; [exact Hx|].
  intros Heq. rewrite Heq in Hx. cbn in Hx. lra.
Qed.

Lemma update_settle (c : Car) (ti bi si dt : R) :
  let s' := ts_state (tireSetup c ti bi si dt) in
  let halved := Vector.scaleInPlace (integratedVelocity c ti bi si dt) 0.5 in
  (Vector.length (velocity (state c)) <? 0.2) && (Rabs (throttle s') <? 0.05)
    && (brake s' >? 0.1) = true ->
  velocity (state (update c ti bi si dt))
  = (if Vector.length halved <? 0.05 then Vector.mk 0 0 else halved)
  /\ (Vector.length halved < 0.05 -> angularVelocity (state (update c ti bi si dt)) = 0).
Proof.
  intros s' halved H. unfold update. cbn [state velocity angularVelocity].
  change (ts_speed (tireSetup c ti bi si dt)) with (Vector.length (velocity (state c))).
  fold s'. rewrite H.
  change (Vector.scaleInPlace _ 0.5) with halved.
  split.
  - destruct (Vector.length halved <? 0.05); reflexivity.
  - intros Hh. apply ltb_true in Hh. rewrite Hh. reflexivity.
Qed.

(** C9 (amended).  In a tick whose entry speed is under 0.2 m/s, whose
    smoothed throttle is under 0.05 in magnitude and whose smoothed brake is
    above 0.1, the integrated velocity is halved; when the halved speed is
    under 0.05 m/s the velocity becomes exactly (0, 0) and the angular
    velocity exactly 0. *)
Theorem low_speed_settle (c : Car) (throttleInput brakeInput steerInput dt : R) :
  let c' := update c throttleInput brakeInput steerInput dt in
  let halved :=
    Vector.scaleInPlace (integratedVelocity c throttleInput brakeInput steerInput dt) 0.5 in
  Vector.length (velocity (state c)) < 0.2 ->
  Rabs (throttle (state c')) < 0.05 ->
  0.1 < brake (state c') ->
  (Vector.length halved < 0.05 ->
     velocity (state c') = Vector.mk 0 0 /\ angularVelocity (state c') = 0)
  /\ (0.05 <= Vector.length halved -> velocity (state c') = halved).
Proof.
  intros c' halved Hs Ht Hb.
  apply ltb_true in Hs. apply ltb_true in Ht. apply gtb_true in Hb.
  destruct (update_settle c throttleInput brakeInput steerInput dt) as [Hv Hw].
  { change (throttle (ts_state (tireSetup c throttleInput brakeInput steerInput dt)))
      with (throttle (state c')).
    change (brake (ts_state (tireSetup c throttleInput brakeInput steerInput dt)))
      with (brake (state c')).
    rewrite Hs, Ht, Hb. reflexivity. }
  fold c' halved in Hv, Hw.
  split; intros Hh.
  - split; [|auto]. apply ltb_true in Hh. rewrite Hv, Hh. reflexivity.
  - apply ltb_false in Hh. rewrite Hv, Hh. reflexivity.
Qed.

Lemma low_speed_settle_witness :
  let c' := update (carAtRest 0) 0 1 0 (1 / 30) in
  Vector.length (velocity (state (carAtRest 0))) < 0.2
  /\ Rabs (throttle (state c')) < 0.05
  /\ 0.1 < brake (state c')
  /\ ((Vector.length
         (Vector.scaleInPlace (integratedVelocity (carAtRest 0) 0 1 0 (1 / 30)) 0.5) < 0.05 ->
       velocity (state c') = Vector.mk 0 0 /\ angularVelocity (state c') = 0)
      /\ (0.05 <= Vector.length
            (Vector.scaleInPlace (integratedVelocity (carAtRest 0) 0 1 0 (1 / 30)) 0.5) ->
          velocity (state c')
          = Vector.scaleInPlace (integratedVelocity (carAtRest 0) 0 1 0 (1 / 30)) 0.5)).
Proof.
  intros c'.
  assert (H1 : Vector.length (velocity (state (carAtRest 0))) < 0.2).
  { change (velocity (state (carAtRest 0))) with (Vector.mk 0 0).
    rewrite length_zero. lra. }
  assert (H2 : Rabs (throttle (state c')) < 0.05).
  { unfold c'. rewrite update_throttle, quiet_state_throttle by reflexivity.
    rewrite Rabs_R0. lra. }
  assert (H3 : 0.1 < brake (state c')).
  { unfold c'. rewrite update_brake. cbn [carAtRest newCar state constructorState brake].
    rcompute. }
  split; [exact H1|]. split; [exact H2|]. split; [exact H3|].
  exact (low_speed_settle (carAtRest 0) 0 1 0 (1 / 30) H1 H2 H3).
Defined.

(** ** The gear index in automatic mode *)

Lemma updatePowertrain_gear (p : CarParams) (s : VehicleState) (ti vLong dt : R) :
  manualMode s = false ->
  (1 <= gearIndex s <= Z.of_nat (List.length (gearRatios (config p))) - 1)%Z ->
  (1 <= gearIndex (updatePowertrain p s ti vLong dt)
     <= Z.of_nat (List.length (gearRatios (config p))) - 1)%Z
  /\ manualMode (updatePowertrain p s ti vLong dt) = false.
Proof.
  intros Hm Hg. split; [|exact Hm].
  unfold updatePowertrain. cbn [gearIndex]. rewrite Hm. cbn [negb andb].
  repeat break_if; cbn [fst snd] in *;
    repeat match goal with
    | H : (_ && _)%bool = true |- _ => apply andb_true_iff in H; destruct H
    | H : (_ <? _)%Z = true |- _ => apply Z.ltb_lt in H
    | H : (_ >? _)%Z = true |- _ => apply Z.gtb_lt in H
    end; lia.
Qed.

Lemma update_gear_in_range (c : Car) (ti bi si dt : R) :
  gear_in_range c -> gear_in_range (update c ti bi si dt).
Proof.
  intros [Hg Hm]. unfold gear_in_range.
  change (gearIndex (state (update c ti bi si dt)))
    with (gearIndex (updatePowertrain (params c) (state c) ti
            (Vector.dot (velocity (state c)) (forwardVector (state c))) dt)).
  change (manualMode (state (update c ti bi si dt)))
    with (manualMode (updatePowertrain (params c) (state c) ti
            (Vector.dot (velocity (state c)) (forwardVector (state c))) dt)).
  change (config (params (update c ti bi si dt))) with (config (params c)).
  apply updatePowertrain_gear; assumption.
Qed.

Lemma run_gear_in_range (inputs : list Inputs) (c : Car) :
  gear_in_range c -> gear_in_range (run c inputs).
Proof.
  revert c. induction inputs as [|i rest IH]; intros c H; [exact H|].
  apply IH. apply update_gear_in_range, H.
Qed.

Lemma run_params (inputs : list Inputs) (c : Car) : params (run c inputs) = params c.
Proof.
  revert c. induction inputs as [|i rest IH]; intros c; [reflexivity|].
  cbn [run fold_left]. fold (run (step c i) rest). rewrite IH. reflexivity.
Qed.

Lemma newCar_gear_in_range (cfg : CarConfigInput) (options : CarOptions) :
  (2 <= List.length (gearRatios (mergeConfig cfg)))%nat ->
  JS.coalesce (opt_manualMode options) false = false ->
  gear_in_range (newCar cfg options).
Proof.
  intros Hlen Hauto. unfold gear_in_range.
  change (gearIndex (state (newCar cfg options)))
    with (Z.min 1 (Z.of_nat (List.length (gearRatios (mergeConfig cfg))) - 1)).
  change (config (params (newCar cfg options))) with (mergeConfig cfg).
  split; [lia | exact Hauto].
Qed.

(** C10.  A car constructed in automatic mode from a gear-ratio list of
    length at least 2 keeps, through any sequence of [update] calls, a gear
    index between 1 and N = gearRatios.length - 1 and stays in automatic
    mode: the index is never 0 or -1, whatever [reverseMode] is. *)
Theorem automatic_gear_index_in_range
    (cfg : CarConfigInput) (options : CarOptions) (inputs : list Inputs) :
  (2 <= List.length (gearRatios (mergeConfig cfg)))%nat ->
  JS.coalesce (opt_manualMode options) false = false ->
  let c := run (newCar cfg options) inputs in
  let N := (Z.of_nat (List.length (gearRatios (mergeConfig cfg))) - 1)%Z in
  (1 <= gearIndex (state c) <= N)%Z
  /\ gearIndex (state c) <> 0%Z /\ gearIndex (state c) <> (-1)%Z
  /\ manualMode (state c) = false.
Proof.
  intros Hlen Hauto c N.
  destruct (run_gear_in_range inputs _ (newCar_gear_in_range cfg options Hlen Hauto))
    as [Hg Hm].
  assert (Hc : config (params c) = mergeConfig cfg)
    by (unfold c; rewrite run_params; reflexivity).
  fold c in Hg, Hm. rewrite Hc in Hg. fold N in Hg.
  repeat split; try lia. exact Hm.
Qed.

Lemma automatic_gear_index_in_range_witness :
  let c := run (newCar emptyConfig noOptions)
               [mkInputs 1 0 0 (1 / 60); mkInputs (-1) 0 0 (1 / 60)] in
  (2 <= List.length (gearRatios (mergeConfig emptyConfig)))%nat
  /\ JS.coalesce (opt_manualMode noOptions) false = false
  /\ (1 <= gearIndex (state c) <= 6)%Z.
Proof.
  intros c.
  assert (H1 : (2 <= List.length (gearRatios (mergeConfig emptyConfig)))%nat)
    by (cbn; lia).
  assert (H2 : JS.coalesce (opt_manualMode noOptions) false = false) by reflexivity.
  split; [exact H1|]. split; [exact H2|].
  exact (proj1 (automatic_gear_index_in_range emptyConfig noOptions
                  [mkInputs 1 0 0 (1 / 60); mkInputs (-1) 0 0 (1 / 60)] H1 H2)).
Defined.

(** ** The friction ellipse *)

Lemma scaled_on_ellipse (a b : R) :
  let rho := sqrt (a * a + b * b) in
  1 < rho ->
  (a * (1 / rho)) * (a * (1 / rho)) + (b * (1 / rho)) * (b * (1 / rho)) = 1.
Proof.
  intros rho H.
  assert (Hsq : rho * rho = a * a + b * b) by (apply sqrt_sqrt; nra).
  assert (Hne : rho <> 0) by lra.
  replace (a * (1 / rho) * (a * (1 / rho)) + b * (1 / rho) * (b * (1 / rho)))
    with ((a * a + b * b) / (rho * rho)) by (field; exact Hne).
  rewrite <- Hsq. field. exact Hne.
Qed.

Lemma inside_ellipse (a b : R) : sqrt (a * a + b * b) <= 1 -> a * a + b * b <= 1.
Proof.
  intros H. destruct (Rle_dec (a * a + b * b) 1) as [|Hn]; [assumption|].
  exfalso. assert (1 < sqrt (a * a + b * b)); [|lra].
  rewrite <- sqrt_1 at 1. apply sqrt_lt_1; lra.
Qed.

(** Dividing by the capacity instead of the capacity plus 1e-6 enlarges a
    ratio by at most [1 + 1e-6 / m], [m] a lower bound of the capacity. *)
Lemma unshift_ratio (f cap m : R) :
  0 < m -> m <= cap ->
  (f / cap) * (f / cap)
  <= (1 + 1e-6 / m) * (1 + 1e-6 / m) * ((f / (cap + 1e-6)) * (f / (cap + 1e-6))).
Proof.
  intros Hm Hcap.
  assert (Hq : (cap + 1e-6) / cap <= 1 + 1e-6 / m).
  { replace ((cap + 1e-6) / cap) with (1 + 1e-6 / cap) by (field; lra).
    apply Rplus_le_compat_l. unfold Rdiv. apply Rmult_le_compat_l; [lra|].
    apply Rinv_le_contravar; lra. }
  assert (Hq1 : 1 <= (cap + 1e-6) / cap).
  { replace ((cap + 1e-6) / cap) with (1 + 1e-6 / cap) by (field; lra).
    assert (0 < 1e-6 / cap) by (apply Rdiv_lt_0_compat; lra). lra. }
  replace (f / cap) with ((f / (cap + 1e-6)) * ((cap + 1e-6) / cap)) by (field; lra).
  set (u := f / (cap + 1e-6)). set (q := (cap + 1e-6) / cap) in *.
  set (w := 1 + 1e-6 / m) in *.
  assert (0 <= u * u) by nra.
  assert (q * q <= w * w) by nra.
  nra.
Qed.

Section WheelLoop.

Variable p : CarParams.
Variable setup : TireSetup.
Variable i : wheel.

Let normal := Wheel.get (ts_tireNormals setup) i.
Let fLong := Wheel.get (ts_tireForcesLong setup) i.
Let fLat := Wheel.get (ts_tireForcesLat setup) i.
Let longCap := longitudinalCap p normal i.
Let latCap := lateralCap p normal (ts_frontGripBonus setup) i.
Let ratio := loadRatio longCap latCap fLong fLat.
Let tire := saturateWheel p setup i.

Lemma saturate_normalLoad : normalLoad tire = normal.
Proof. unfold tire, saturateWheel. break_if; reflexivity. Qed.

(** Both components are multiplied by one factor: 1, or [1 / loadRatio]
    when the load ratio exceeds 1. *)
Lemma saturate_common_factor :
  exists k : R,
    0 < k <= 1
    /\ Vector.x_ (combinedForce tire) = fLong * k
    /\ Vector.y_ (combinedForce tire) = fLat * k
    /\ (1 < ratio -> 0 < longCap \/ 0 < latCap -> k = 1 / ratio)
    /\ (ratio <= 1 -> k = 1).
Proof.
  unfold tire, saturateWheel. fold normal fLong fLat longCap latCap ratio.
  destruct ((ratio >? 1) && ((longCap >? 0) || (latCap >? 0))) eqn:E.
  - apply andb_true_iff in E. destruct E as [E1 E2]. apply gtb_true in E1.
    exists (1 / ratio). cbn [combinedForce Vector.x_ Vector.y_].
    assert (0 < 1 / ratio <= 1).
    { split; [apply Rdiv_lt_0_compat; lra|].
      apply Rmult_le_reg_r with ratio; [lra|].
      unfold Rdiv. rewrite Rmult_assoc, Rinv_l by lra. lra. }
    repeat split; try lra; auto.
  - exists 1. cbn [combinedForce Vector.x_ Vector.y_].
    repeat split; try lra.
    intros H1 H2. exfalso.
    apply andb_false_iff in E. destruct E as [E|E].
    + apply gtb_false in E. lra.
    + apply orb_false_iff in E. destruct E as [Ea Eb].
      apply gtb_false in Ea. apply gtb_false in Eb. lra.
Qed.

(** With both capacities above the guard of 1e-6, the saturated force lies
    within the ellipse whose semi-axes are the capacities plus 1e-6. *)
Lemma saturate_within_ellipse :
  1e-6 < longCap -> 1e-6 < latCap ->
  let a := Vector.x_ (combinedForce tire) / (longCap + 1e-6) in
  let b := Vector.y_ (combinedForce tire) / (latCap + 1e-6) in
  a * a + b * b <= 1.
Proof.
  intros HL HT.
  assert (Hratio : ratio = sqrt (fLong / (longCap + 1e-6) * (fLong / (longCap + 1e-6))
                                 + fLat / (latCap + 1e-6) * (fLat / (latCap + 1e-6)))).
  { unfold ratio, loadRatio.
    apply gtb_true in HL. apply gtb_true in HT. rewrite HL, HT. reflexivity. }
  destruct saturate_common_factor as (k & Hk & Hx & Hy & Hscaled & Hkept).
  rewrite Hx, Hy. cbv zeta.
  destruct (Rlt_dec 1 ratio) as [Hgt|Hle].
  - rewrite (Hscaled Hgt) by lra.
    pose proof (scaled_on_ellipse (fLong / (longCap + 1e-6)) (fLat / (latCap + 1e-6))) as He.
    cbv zeta in He. rewrite <- Hratio in He. specialize (He Hgt).
    right. etransitivity; [|exact He]. field. repeat split; lra.
  - rewrite Hkept by lra. rewrite !Rmult_1_r.
    apply inside_ellipse. rewrite <- Hratio. lra.
Qed.

End WheelLoop.

Lemma update_tire (c : Car) (ti bi si dt : R) (i : wheel) :
  Wheel.get (tires (state (update c ti bi si dt))) i
  = saturateWheel (params c) (tireSetup c ti bi si dt) i.
Proof. destruct i; reflexivity. Qed.

Lemma latMultiplier_ge_1 (bonus : R) (i : wheel) : 1 <= latMultiplier bonus i.
Proof.
  unfold latMultiplier. destruct (Wheel.isFront i); [|lra].
  pose proof (Rmax_l 0 bonus). lra.
Qed.

Lemma frontLight_normal :
  Wheel.get (ts_tireNormals (tireSetup frontLightCar 0 1 0 (1 / 60))) W_FL = 5e-7.
Proof.
  unfold tireSetup. cbn [ts_tireNormals Wheel.get FL].
  change (velocity (state frontLightCar)) with (Vector.mk 0 0).
  rewrite length_zero.
  unfold computeAeroForces. cbn [fst snd].
  cbn. unfold G. rcompute.
Qed.

Lemma frontLight_quiet :
  throttle (state frontLightCar) = 0
  /\ Vector.length (velocity (state frontLightCar)) <= 0.5
  /\ Rabs (Vector.dot (velocity (state frontLightCar)) (forwardVector (state frontLightCar)))
     <= 0.5
  /\ (forall i, 0 <= Wheel.get (lateralGripCoeffs (params frontLightCar)) i).
Proof.
  split; [reflexivity|]. split; [|split].
  - change (velocity (state frontLightCar)) with (Vector.mk 0 0). rewrite length_zero. lra.
  - unfold Vector.dot. change (velocity (state frontLightCar)) with (Vector.mk 0 0).
    cbn [Vector.x_ Vector.y_]. rewrite !Rmult_0_l, Rplus_0_l, Rabs_R0. lra.
  - apply default_lateral_grips.
Qed.

Lemma frontLight_bonus :
  ts_frontGripBonus (tireSetup frontLightCar 0 1 0 (1 / 60)) = 0.1.
Proof.
  unfold tireSetup. cbn [ts_frontGripBonus].
  change (velocity (state frontLightCar)) with (Vector.mk 0 0).
  rewrite length_zero.
  assert (H5 : (0 >? 0.5) = false) by (apply gtb_false; lra).
  rewrite H5.
  assert (Hv : (Vector.dot (Vector.mk 0 0) (forwardVector (state frontLightCar)) >? 0.2)
               = false).
  { apply gtb_false. unfold Vector.dot. cbn [Vector.x_ Vector.y_]. lra. }
  rewrite Hv, andb_false_r. lra.
Qed.

Lemma frontLight_brake :
  brake (ts_state (tireSetup frontLightCar 0 1 0 (1 / 60))) = 0.1.
Proof.
  rewrite quiet_state_brake.
  change (brake (state frontLightCar)) with 0. rcompute.
Qed.

Lemma frontLight_longitudinal :
  Wheel.get (ts_tireForcesLong (tireSetup frontLightCar 0 1 0 (1 / 60))) W_FL
  = - (4200 * 0.1 / (0.32 + 1e-6)).
Proof.
  destruct frontLight_quiet as (Ht & _).
  rewrite quiet_longitudinal by exact Ht.
  rewrite frontLight_brake.
  unfold brakeDirectionOf, Vector.dot.
  change (velocity (state frontLightCar)) with (Vector.mk 0 0).
  cbn [Vector.x_ Vector.y_].
  replace (0 * _ + 0 * _) with 0 by ring.
  assert (Hs : JS.sign 0 = 0) by rcompute.
  rewrite Hs, Rabs_R0.
  assert (Hl : (0 <? 0.1) = true) by (apply ltb_true; lra).
  rewrite Hl. cbn. lra.
Qed.

(** C1, as stated, fails.  The front-left wheel of [frontLightCar] carries
    5e-7 N when the brake is applied at rest: both capacities are positive
    and under the guard of 1e-6, the loop counts neither ratio, and the
    wheel keeps a brake force of more than 1000 N. *)
Lemma friction_ellipse_sub_threshold_load :
  let setup := tireSetup frontLightCar 0 1 0 (1 / 60) in
  let tire := Wheel.get (tires (state (update frontLightCar 0 1 0 (1 / 60)))) W_FL in
  let FlongMax :=
    Wheel.get (longitudinalGripCoeffs (params frontLightCar)) W_FL * normalLoad tire in
  let FlatMax :=
    Wheel.get (lateralGripCoeffs (params frontLightCar)) W_FL * normalLoad tire
    * latMultiplier (ts_frontGripBonus setup) W_FL in
  let Flong := Vector.x_ (combinedForce tire) in
  let Flat := Vector.y_ (combinedForce tire) in
  normalLoad tire = 5e-7
  /\ 0 < FlongMax /\ 0 < FlatMax
  /\ Flong < -1000
  /\ 1e18 < (Flong / FlongMax) * (Flong / FlongMax) + (Flat / FlatMax) * (Flat / FlatMax).
Proof.
  intros setup tire FlongMax FlatMax Flong Flat. subst setup.
  assert (Hn : normalLoad tire = 5e-7).
  { unfold tire. rewrite update_tire, saturate_normalLoad. apply frontLight_normal. }
  assert (HgL : Wheel.get (longitudinalGripCoeffs (params frontLightCar)) W_FL = 1.05)
    by reflexivity.
  assert (HgT : Wheel.get (lateralGripCoeffs (params frontLightCar)) W_FL = 1.05 * 1.12).
  { cbn. rcompute. }
  assert (Hm : latMultiplier (ts_frontGripBonus (tireSetup frontLightCar 0 1 0 (1 / 60))) W_FL
               = 1.1).
  { rewrite frontLight_bonus. unfold latMultiplier. cbn [Wheel.isFront]. rcompute. }
  assert (HL : FlongMax = 5.25e-7) by (unfold FlongMax; rewrite HgL, Hn; lra).
  assert (HT : FlatMax = 6.468e-7) by (unfold FlatMax; rewrite HgT, Hn, Hm; lra).
  assert (Hf : Flong = - (4200 * 0.1 / (0.32 + 1e-6)) /\ Flat = 0).
  { unfold Flong, Flat, tire. rewrite update_tire.
    destruct (saturate_common_factor (params frontLightCar)
                (tireSetup frontLightCar 0 1 0 (1 / 60)) W_FL)
      as (k & _ & Hx & Hy & _ & Hk).
    rewrite Hx, Hy. rewrite frontLight_longitudinal.
    destruct frontLight_quiet as (Q1 & Q2 & Q3 & Q4).
    rewrite quiet_lateral by assumption.
    rewrite Hk; [lra|].
    unfold loadRatio, longitudinalCap, lateralCap.
    rewrite frontLight_normal, frontLight_bonus.
    rewrite HgL, HgT.
    assert (E1 : (Rmax 0 (1.05 * 5e-7) >? 1e-6) = false) by (apply gtb_false; rcompute).
    assert (E2 : (Rmax 0 (1.05 * 1.12 * 5e-7) * latMultiplier 0.1 W_FL >? 1e-6) = false).
    { apply gtb_false. unfold latMultiplier. cbn [Wheel.isFront]. rcompute. }
    rewrite E1, E2, Rplus_0_l, sqrt_0. lra. }
  destruct Hf as [HfL HfT].
  assert (Hbig : Flong < -1000).
  { rewrite HfL.
    assert (1000 < 4200 * 0.1 / (0.32 + 1e-6)); [|lra].
    apply Rmult_lt_reg_r with (0.32 + 1e-6); [lra|].
    unfold Rdiv. rewrite Rmult_assoc, Rinv_l by lra. lra. }
  split; [exact Hn|]. split; [lra|]. split; [lra|]. split; [exact Hbig|].
  rewrite HfT, HL.
  replace (0 / FlatMax * (0 / FlatMax)) with 0 by (unfold Rdiv; ring).
  assert (Hq : Flong / 5.25e-7 < -1e9).
  { apply Rmult_lt_reg_r with 5.25e-7; [lra|].
    unfold Rdiv. rewrite Rmult_assoc, Rinv_l by lra. lra. }
  nra.
Qed.

(** C1 (amended).  After [update], every wheel whose two capacities exceed
    the guard of 1e-6 satisfies the friction-ellipse bound with the
    capacities plus 1e-6 as semi-axes; with the capacities themselves the
    sum is at most [(1 + 1e-6 / m)^2], [m] a lower bound of both, so at most
    1 + 3e-6 once both reach 1 N.  The two components are always the
    unsaturated ones times one common factor, which is
    [1 / loadRatio] whenever the unsaturated sum exceeds 1. *)
Theorem friction_ellipse_after_update
    (c : Car) (throttleInput brakeInput steerInput dt : R) (i : wheel) :
  let setup := tireSetup c throttleInput brakeInput steerInput dt in
  let tire :=
    Wheel.get (tires (state (update c throttleInput brakeInput steerInput dt))) i in
  let FlongMax := Wheel.get (longitudinalGripCoeffs (params c)) i * normalLoad tire in
  let FlatMax :=
    Wheel.get (lateralGripCoeffs (params c)) i * normalLoad tire
    * latMultiplier (ts_frontGripBonus setup) i in
  let Flong := Vector.x_ (combinedForce tire) in
  let Flat := Vector.y_ (combinedForce tire) in
  let Flong0 := Wheel.get (ts_tireForcesLong setup) i in
  let Flat0 := Wheel.get (ts_tireForcesLat setup) i in
  let sum0 :=
    (Flong0 / (FlongMax + 1e-6)) * (Flong0 / (FlongMax + 1e-6))
    + (Flat0 / (FlatMax + 1e-6)) * (Flat0 / (FlatMax + 1e-6)) in
  1e-6 < FlongMax -> 1e-6 < FlatMax ->
  (Flong / (FlongMax + 1e-6)) * (Flong / (FlongMax + 1e-6))
  + (Flat / (FlatMax + 1e-6)) * (Flat / (FlatMax + 1e-6)) <= 1
  /\ (forall m, 0 < m -> m <= FlongMax -> m <= FlatMax ->
        (Flong / FlongMax) * (Flong / FlongMax) + (Flat / FlatMax) * (Flat / FlatMax)
        <= (1 + 1e-6 / m) * (1 + 1e-6 / m))
  /\ (1 <= FlongMax -> 1 <= FlatMax ->
        (Flong / FlongMax) * (Flong / FlongMax) + (Flat / FlatMax) * (Flat / FlatMax)
        <= 1 + 3e-6)
  /\ (exists k, 0 < k <= 1 /\ Flong = Flong0 * k /\ Flat = Flat0 * k
                /\ (1 < sum0 -> k = 1 / sqrt sum0) /\ (sum0 <= 1 -> k = 1)).
Proof.
  intros setup tire FlongMax FlatMax Flong Flat Flong0 Flat0 sum0 HL HT.
  assert (Htire : tire = saturateWheel (params c) setup i) by apply update_tire.
  assert (Hn : normalLoad tire = Wheel.get (ts_tireNormals setup) i)
    by (rewrite Htire; apply saturate_normalLoad).
  pose proof (latMultiplier_ge_1 (ts_frontGripBonus setup) i) as Hmult.
  assert (HcapL : longitudinalCap (params c) (Wheel.get (ts_tireNormals setup) i) i = FlongMax).
  { unfold longitudinalCap, FlongMax. rewrite Hn. apply Rmax_right.
    unfold FlongMax in HL. rewrite Hn in HL. lra. }
  assert (HcapT : lateralCap (params c) (Wheel.get (ts_tireNormals setup) i)
                    (ts_frontGripBonus setup) i = FlatMax).
  { unfold lateralCap, FlatMax. rewrite Hn. f_equal. apply Rmax_right.
    unfold FlatMax in HT. rewrite Hn in HT.
    set (g := Wheel.get (lateralGripCoeffs (params c)) i * Wheel.get (ts_tireNormals setup) i)
      in *.
    destruct (Rle_dec 0 g); [assumption|]. exfalso. nra. }
  pose proof (saturate_within_ellipse (params c) setup i) as Hin.
  cbv zeta in Hin. rewrite HcapL, HcapT, <- Htire in Hin. specialize (Hin HL HT).
  fold Flong Flat in Hin.
  assert (Hgen : forall m, 0 < m -> m <= FlongMax -> m <= FlatMax ->
            (Flong / FlongMax) * (Flong / FlongMax) + (Flat / FlatMax) * (Flat / FlatMax)
            <= (1 + 1e-6 / m) * (1 + 1e-6 / m)).
  { intros m Hm HmL HmT.
    pose proof (unshift_ratio Flong FlongMax m Hm HmL) as H1.
    pose proof (unshift_ratio Flat FlatMax m Hm HmT) as H2.
    set (u := Flong / (FlongMax + 1e-6) * (Flong / (FlongMax + 1e-6))) in *.
    set (v := Flat / (FlatMax + 1e-6) * (Flat / (FlatMax + 1e-6))) in *.
    set (w := (1 + 1e-6 / m) * (1 + 1e-6 / m)) in *.
    assert (0 <= w) by (unfold w; apply Rle_0_sqr).
    set (x := Flong / FlongMax * (Flong / FlongMax)) in *.
    set (y := Flat / FlatMax * (Flat / FlatMax)) in *.
    assert (w * (u + v) <= w * 1) by (apply Rmult_le_compat_l; assumption).
    lra. }
  split; [exact Hin|]. split; [exact Hgen|]. split.
  - intros H1L H1T. eapply Rle_trans; [apply (Hgen 1); lra|]. lra.
  - destruct (saturate_common_factor (params c) setup i)
      as (k & Hk & Hx & Hy & Hscaled & Hkept).
    rewrite HcapL, HcapT, <- Htire in *.
    assert (Hratio : loadRatio FlongMax FlatMax Flong0 Flat0 = sqrt sum0).
    { unfold loadRatio. apply gtb_true in HL. apply gtb_true in HT.
      rewrite HL, HT. reflexivity. }
    fold Flong0 Flat0 in Hscaled, Hkept, Hx, Hy. rewrite Hratio in Hscaled, Hkept.
    assert (H0 : 0 <= sum0) by (unfold sum0; nra).
    exists k. split; [exact Hk|]. split; [exact Hx|]. split; [exact Hy|]. split.
    + intros Hs. apply Hscaled; [|lra].
      rewrite <- sqrt_1. apply sqrt_lt_1; lra.
    + intros Hs. apply Hkept. rewrite <- sqrt_1. apply sqrt_le_1; lra.
Qed.

Lemma rest_normal :
  Wheel.get (ts_tireNormals (tireSetup (carAtRest 0) 0 1 0 (1 / 30))) W_FL
  = 1450 * 9.81 * 0.52 * 0.5.
Proof.
  unfold tireSetup. cbn [ts_tireNormals Wheel.get FL].
  change (velocity (state (carAtRest 0))) with (Vector.mk 0 0).
  rewrite length_zero.
  unfold computeAeroForces. cbn [fst snd].
  cbn. unfold G. rcompute.
Qed.

Lemma friction_ellipse_after_update_witness :
  let setup := tireSetup (carAtRest 0) 0 1 0 (1 / 30) in
  let tire := Wheel.get (tires (state (update (carAtRest 0) 0 1 0 (1 / 30)))) W_FL in
  let FlongMax :=
    Wheel.get (longitudinalGripCoeffs (params (carAtRest 0))) W_FL * normalLoad tire in
  let FlatMax :=
    Wheel.get (lateralGripCoeffs (params (carAtRest 0))) W_FL * normalLoad tire
    * latMultiplier (ts_frontGripBonus setup) W_FL in
  let Flong := Vector.x_ (combinedForce tire) in
  let Flat := Vector.y_ (combinedForce tire) in
  1e-6 < FlongMax /\ 1e-6 < FlatMax
  /\ (Flong / (FlongMax + 1e-6)) * (Flong / (FlongMax + 1e-6))
     + (Flat / (FlatMax + 1e-6)) * (Flat / (FlatMax + 1e-6)) <= 1.
Proof.
  intros setup tire FlongMax FlatMax Flong Flat.
  assert (Hn : normalLoad tire = 1450 * 9.81 * 0.52 * 0.5).
  { unfold tire. rewrite update_tire, saturate_normalLoad. apply rest_normal. }
  assert (HgL : Wheel.get (longitudinalGripCoeffs (params (carAtRest 0))) W_FL = 1.05)
    by reflexivity.
  assert (HgT : Wheel.get (lateralGripCoeffs (params (carAtRest 0))) W_FL = 1.05 * 1.12).
  { cbn. rcompute. }
  pose proof (latMultiplier_ge_1 (ts_frontGripBonus setup) W_FL) as Hm.
  assert (HL : 1e-6 < FlongMax) by (unfold FlongMax; rewrite HgL, Hn; lra).
  assert (HT : 1e-6 < FlatMax) by (unfold FlatMax; rewrite HgT, Hn; nra).
  split; [exact HL|]. split; [exact HT|].
  exact (proj1 (friction_ellipse_after_update (carAtRest 0) 0 1 0 (1 / 30) W_FL HL HT)).
Defined.

(** ** Calibration: the acceleration correction *)

Import Catalog.
Import Calibration.



(** ** Calibration: skipped and timed-out runs *)

Section CalibrationRuns.

Variable now : nat -> R.
Variable parseNumber : string -> option R.
Variable numberToString : R -> string.
Variable trim : string -> string.
Variable managerVersion : Z.

Local Abbreviation runCalibration' :=
  (runCalibration now parseNumber numberToString trim managerVersion).

(** C5.  When [extractTargets] finds no target, [runCalibration] returns
    a record with verified = true, overrides = null, iterations = 0 and
    the note that calibration was skipped; it builds no test car and runs
    no simulation tick. *)
Theorem skipped_without_targets
    (car : CatalogCar) (options : CalibrationOptions) (w : World) :
  extractTargets parseNumber (JS.coalesce (specs car) ∅) = None ->
  exists record car' w',
    runCalibration' car options w = Some (Normal (record, car'), w')
    /\ verified record = true
    /\ overrides record = None
    /\ iterations record = 0%nat
    /\ note record = Some "No performance targets provided; skipped calibration."%string
    /\ ticks w' = ticks w
    /\ testCars w' = testCars w.
Proof.
  intros H. unfold runCalibration. rewrite H.
  unfold bind, dateNow, ret. cbn.
  eexists _, _, _. split; [reflexivity|]. cbn. repeat split; reflexivity.
Qed.

Lemma zeroToHundredFuel_S : exists fuel, zeroToHundredFuel = S fuel.
Proof. exists 2999%nat. reflexivity. Qed.

Lemma topSpeedFuel_S : exists fuel, topSpeedFuel = S fuel.
Proof. exists 31999%nat. reflexivity. Qed.

Lemma zeroToHundredLoop_expired (fuel : nat) (interval deadline : R) (car : Car)
    (samples : option (list Sample)) (time previousSpeed sampleTimer : R) (w : World) :
  time < 15 ->
  deadline < now (clockReads w) ->
  exists samples',
    zeroToHundredLoop now (S fuel) interval (Some deadline) car samples time previousSpeed
                      sampleTimer w
    = Some ((mkZeroResult None false, samples'),
            mkWorld (S (clockReads w)) (ticks w) (testCars w)).
Proof.
  intros Ht H. cbn [zeroToHundredLoop].
  apply ltb_true in Ht. rewrite Ht.
  unfold deadlinePassed. unfold bind, dateNow, ret.
  apply gtb_true in H. rewrite H.
  eexists. reflexivity.
Qed.

Lemma topSpeedLoop_expired (fuel : nat) (interval deadline : R) (car : Car)
    (samples : option (list Sample)) (time maxSpeed stableTime sampleTimer : R) (w : World) :
  time < 160 ->
  deadline < now (clockReads w) ->
  exists samples',
    topSpeedLoop now (S fuel) interval (Some deadline) car samples time maxSpeed stableTime
                 sampleTimer w
    = Some ((mkTopResult (Some maxSpeed) time, samples'),
            mkWorld (S (clockReads w)) (ticks w) (testCars w)).
Proof.
  intros Ht H. cbn [topSpeedLoop].
  apply ltb_true in Ht. rewrite Ht.
  unfold deadlinePassed. unfold bind, dateNow, ret.
  apply gtb_true in H. rewrite H.
  eexists. reflexivity.
Qed.

Lemma zeroToHundred_expired (config : CarConfigInput) (collect : bool)
    (interval : option R) (deadline : R) (w : World) :
  deadline < now (clockReads w) ->
  exists samples,
    measureZeroToHundred now config (mkMeasureOptions collect interval (Some deadline)) w
    = Some ((mkZeroResult None false, samples),
            mkWorld (S (clockReads w)) (ticks w) (S (testCars w))).
Proof.
  intros H. unfold measureZeroToHundred.
  destruct zeroToHundredFuel_S as [fuel ->].
  unfold bind at 1. unfold createTestCar. cbn [deadlineMs].
  match goal with
  | |- context [zeroToHundredLoop now (S fuel) ?i (Some deadline) ?c ?s 0 0 0 ?w'] =>
      destruct (zeroToHundredLoop_expired fuel i deadline c s 0 0 0 w') as [samples' Hl];
        [lra | exact H | rewrite Hl]
  end.
  eexists. reflexivity.
Qed.

Lemma topSpeed_expired (config : CarConfigInput) (collect : bool)
    (interval : option R) (deadline : R) (w : World) :
  deadline < now (clockReads w) ->
  exists samples,
    measureTopSpeed now config (mkMeasureOptions collect interval (Some deadline)) w
    = Some ((mkTopResult (Some 0) 0, samples),
            mkWorld (S (clockReads w)) (ticks w) (S (testCars w))).
Proof.
  intros H. unfold measureTopSpeed.
  destruct topSpeedFuel_S as [fuel ->].
  unfold bind at 1. unfold createTestCar. cbn [deadlineMs].
  match goal with
  | |- context [topSpeedLoop now (S fuel) ?i (Some deadline) ?c ?s 0 0 0 0 ?w'] =>
      destruct (topSpeedLoop_expired fuel i deadline c s 0 0 0 0 w') as [samples' Hl];
        [lra | exact H | rewrite Hl]
  end.
  eexists. reflexivity.
Qed.

Lemma calibrationLoop_expired (driveType : JsVal) (remaining index : nat)
    (targets : Targets) (deadline : R) (st : LoopState) (w : World) :
  deadline < now (clockReads w) ->
  calibrationLoop now driveType (S remaining) index targets deadline st w
  = Some (Normal (mkLoopState (workingConfig st) (measuredZero st) (measuredTop st)
                              (S index) true),
          mkWorld (S (clockReads w)) (ticks w) (testCars w)).
Proof.
  intros H. cbn [calibrationLoop]. unfold bind, dateNow.
  apply gtb_true in H. rewrite H. reflexivity.
Qed.

Lemma maxIterations_S (options : CalibrationOptions) :
  exists n,
    match opt_maxIterations options with
    | Some m => Z.to_nat (Z.max 1 (Zfloor m))
    | None => 12%nat
    end = S n.
Proof.
  destruct (opt_maxIterations options) as [m|].
  - exists (Z.to_nat (Z.max 1 (Zfloor m)) - 1)%nat. lia.
  - exists 11%nat. reflexivity.
Qed.

(** The [driveType] of the configuration built from a specification. *)
Lemma built_driveType (spec : JsObject) (applied : option Overrides) :
  driveTypeOf (createCarConfigFromSpec parseNumber trim spec applied)
  = JS.coalesce (present spec "driveType") (JStr "RWD").
Proof. unfold createCarConfigFromSpec. destruct applied; reflexivity. Qed.

Lemma built_driveType_text (spec : JsObject) (applied : option Overrides) :
  driveTypeIsText spec = true ->
  exists text,
    driveTypeOf (createCarConfigFromSpec parseNumber trim spec applied) = JStr text.
Proof.
  rewrite built_driveType. unfold driveTypeIsText.
  destruct (JS.coalesce _ _); try discriminate. eexists. reflexivity.
Qed.

Lemma built_driveType_other (spec : JsObject) (applied : option Overrides) :
  driveTypeIsText spec = false ->
  isText (driveTypeOf (createCarConfigFromSpec parseNumber trim spec applied)) = false.
Proof. rewrite built_driveType. intros H. exact H. Qed.

(** A [driveType] that is not a string makes the test car throw. *)
Lemma onTestCar_throws {A} (driveType : JsVal) (measurement : M A) (w : World) :
  isText driveType = false ->
  onTestCar driveType measurement w
  = Some (Throw TypeError, mkWorld (clockReads w) (ticks w) (S (testCars w))).
Proof. destruct driveType; intros H; try reflexivity. discriminate. Qed.

Lemma extractTargets_some (spec : JsObject) (targets : Targets) :
  extractTargets parseNumber spec = Some targets ->
  target_zeroToHundredSec targets <> None \/ target_topSpeedKph targets <> None.
Proof.
  unfold extractTargets.
  set (top := match findNumeric parseNumber spec _ with Some v => Some v | None => _ end).
  set (zero := match findNumeric parseNumber spec _ with Some v => Some v | None => _ end).
  destruct top as [t|], zero as [z|]; intros [= <-]; cbn;
    [left|right|left]; discriminate.
Qed.

(** With a [driveType] that is not a string the loop of [runCalibration]
    either stops at the deadline before any measurement or throws in its
    first measurement; no tick is run either way. *)
Lemma calibrationLoop_mistyped (driveType : JsVal) (remaining index : nat)
    (targets : Targets) (deadline : R) (st : LoopState) (w : World) :
  isText driveType = false ->
  target_zeroToHundredSec targets <> None \/ target_topSpeedKph targets <> None ->
  exists completion w',
    calibrationLoop now driveType remaining index targets deadline st w
    = Some (completion, w')
    /\ ticks w' = ticks w
    /\ (completion = Throw TypeError \/ exists st', completion = Normal st').
Proof.
  intros Hd Ht. destruct remaining as [|remaining].
  - eexists _, _. split; [reflexivity|]. split; [reflexivity|]. right. eexists. reflexivity.
  - cbn [calibrationLoop]. unfold bind at 1. unfold dateNow at 1.
    destruct (_ >? deadline).
    + eexists _, _. split; [reflexivity|]. split; [reflexivity|]. right.
      eexists. reflexivity.
    + destruct (target_zeroToHundredSec targets) as [targetSec|].
      * unfold bindC at 1. unfold bind at 1. unfold bindC at 1. unfold bind at 1.
        rewrite onTestCar_throws by exact Hd.
        eexists _, _. split; [reflexivity|]. split; [reflexivity|]. left. reflexivity.
      * destruct (target_topSpeedKph targets) as [targetKph|];
          [|destruct Ht as [Ht|Ht]; contradiction].
        unfold bindC at 1. unfold bind at 1. unfold ret at 1.
        unfold bindC at 1. unfold bind at 1. unfold bindC at 1. unfold bind at 1.
        rewrite onTestCar_throws by exact Hd.
        eexists _, _. split; [reflexivity|]. split; [reflexivity|]. left. reflexivity.
Qed.

(** For a car with a target whose [driveType] is not a string,
    [runCalibration] throws, whatever its options are, before any tick. *)
Lemma runCalibration_throws (car : CatalogCar) (options : CalibrationOptions)
    (targets : Targets) (w : World) :
  extractTargets parseNumber (JS.coalesce (specs car) ∅) = Some targets ->
  driveTypeIsText (JS.coalesce (specs car) ∅) = false ->
  exists w',
    runCalibration' car options w = Some (Throw TypeError, w')
    /\ ticks w' = ticks w.
Proof.
  intros Ht Htext. pose proof (extractTargets_some _ _ Ht) as Hsome.
  pose proof (built_driveType_other _ None Htext) as Hd.
  unfold runCalibration. rewrite Ht. cbv zeta.
  set (built := createCarConfigFromSpec parseNumber trim _ None) in *.
  unfold bind at 1. unfold dateNow at 1.
  unfold bindC at 1. unfold bind at 1.
  match goal with
  | |- context [calibrationLoop now ?d ?n ?i ?t ?dl ?st ?w0] =>
      destruct (calibrationLoop_mistyped d n i t dl st w0 Hd Hsome)
        as (completion & w1 & Hloop & Hticks & Hwhich)
  end.
  rewrite Hloop.
  destruct Hwhich as [->|[st' ->]].
  - eexists. split; [reflexivity|]. exact Hticks.
  - destruct (target_zeroToHundredSec targets) as [targetSec|].
    + unfold bindC at 1. unfold bind at 1.
      rewrite onTestCar_throws by exact Hd.
      eexists. split; [reflexivity|]. exact Hticks.
    + destruct (target_topSpeedKph targets) as [targetKph|];
        [|destruct Hsome as [H|H]; contradiction].
      unfold bindC at 1. unfold bind at 1. unfold ret at 1.
      unfold bindC at 1. unfold bind at 1.
      rewrite onTestCar_throws by exact Hd.
      eexists. split; [reflexivity|]. exact Hticks.
Qed.

(** C6 (amended).  For a car with at least one target whose [driveType]
    is a string or is absent, [runCalibration] with timeoutMs = 0, under
    a clock whose readings after the start instant are all later than it,
    returns a record with verified = false and a note that contains
    "timed out"; no simulation tick is run. *)
Theorem forced_timeout
    (car : CatalogCar) (options : CalibrationOptions) (targets : Targets) (w : World) :
  extractTargets parseNumber (JS.coalesce (specs car) ∅) = Some targets ->
  driveTypeIsText (JS.coalesce (specs car) ∅) = true ->
  opt_timeoutMs options = Some 0 ->
  (forall n, (clockReads w < n)%nat -> now (clockReads w) < now n) ->
  exists record car' w',
    runCalibration' car options w = Some (Normal (record, car'), w')
    /\ verified record = false
    /\ (exists before after,
          note record = Some (before ++ "timed out" ++ after)%string)
    /\ iterations record = 1%nat
    /\ ticks w' = ticks w.
Proof.
  intros Ht Htext Ho Hclock.
  destruct (built_driveType_text _ None Htext) as [text Hdrive].
  unfold runCalibration. rewrite Ht, Ho. cbv zeta. rewrite Hdrive.
  set (built := createCarConfigFromSpec parseNumber trim _ None) in *.
  replace (Rmax 0 0) with 0 by (symmetry; apply Rmax_left; lra).
  destruct (maxIterations_S options) as [n ->].
  unfold bind at 1. unfold dateNow at 1.
  set (w1 := mkWorld (S (clockReads w)) (ticks w) (testCars w)).
  set (deadline := now (clockReads w) + 0).
  assert (Hd : forall w2, (clockReads w < clockReads w2)%nat -> deadline < now (clockReads w2)).
  { intros w2 Hlt. unfold deadline. rewrite Rplus_0_r. apply Hclock, Hlt. }
  unfold bindC at 1. unfold bind at 1.
  rewrite calibrationLoop_expired by (apply Hd; cbn; lia).
  cbn [workingConfig timedOut actualIterations measuredZero measuredTop].
  set (w2 := mkWorld (S (clockReads w1)) (ticks w1) (testCars w1)).
  assert (Hz : exists r2 w3,
    (match target_zeroToHundredSec targets with
     | Some _ =>
         onTestCar (JStr text)
           (measureZeroToHundred now (numbers built)
              (mkMeasureOptions true None (Some deadline)))
     | None => ret (Normal (mkZeroResult None false, Some []))
     end) w2 = Some (Normal r2, w3)
    /\ (clockReads w < clockReads w3)%nat /\ ticks w3 = ticks w).
  { destruct (target_zeroToHundredSec targets).
    - destruct (zeroToHundred_expired (numbers built) true None deadline w2)
        as [smp Hm]; [apply Hd; cbn; lia|].
      cbn [onTestCar]. unfold lift, bind. rewrite Hm.
      eexists _, _. split; [reflexivity|]. cbn. split; [lia | reflexivity].
    - eexists _, _. split; [reflexivity|]. cbn. split; [lia | reflexivity]. }
  destruct Hz as (r2 & w3 & Hz & Hc3 & Ht3).
  unfold bindC at 1. unfold bind at 1. rewrite Hz.
  assert (Hp : exists r3 w4,
    (match target_topSpeedKph targets with
     | Some _ =>
         onTestCar (JStr text)
           (measureTopSpeed now (numbers built)
              (mkMeasureOptions true None (Some deadline)))
     | None => ret (Normal (mkTopResult None 0, Some []))
     end) w3 = Some (Normal r3, w4)
    /\ ticks w4 = ticks w).
  { destruct (target_topSpeedKph targets).
    - destruct (topSpeed_expired (numbers built) true None deadline w3)
        as [smp Hm]; [apply Hd; exact Hc3|].
      cbn [onTestCar]. unfold lift, bind. rewrite Hm.
      eexists _, _. split; [reflexivity|]. cbn. exact Ht3.
    - eexists _, _. split; [reflexivity|]. exact Ht3. }
  destruct Hp as (r3 & w4 & Hp & Ht4).
  unfold bindC at 1. unfold bind at 1. rewrite Hp.
  unfold bind, dateNow, ret.
  eexists _, _, _. split; [reflexivity|]. cbn.
  split; [reflexivity|]. split; [|split; [reflexivity | exact Ht4]].
  exists "Calibration "%string, (" after " ++ numberToString 0 ++ " ms")%string.
  reflexivity.
Qed.

End CalibrationRuns.

Lemma plainCar_no_targets :
  extractTargets parseNothing (JS.coalesce (specs plainCar) ∅) = None.
Proof. reflexivity. Qed.

Lemma skipped_without_targets_witness :
  extractTargets parseNothing (JS.coalesce (specs plainCar) ∅) = None
  /\ exists record car' w',
       runCalibration tickingClock parseNothing printZero keepText 1
                      plainCar (mkCalibrationOptions None None) startWorld
       = Some (Normal (record, car'), w')
       /\ verified record = true
       /\ overrides record = None
       /\ iterations record = 0%nat
       /\ note record = Some "No performance targets provided; skipped calibration."%string
       /\ ticks w' = ticks startWorld
       /\ testCars w' = testCars startWorld.
Proof.
  split; [exact plainCar_no_targets|].
  exact (skipped_without_targets tickingClock parseNothing printZero keepText 1
           plainCar (mkCalibrationOptions None None) startWorld plainCar_no_targets).
Defined.

Lemma fastCar_targets :
  extractTargets parseNothing (JS.coalesce (specs fastCar) ∅)
  = Some (mkTargets (Some 280) None).
Proof.
  unfold extractTargets.
  assert (H1 : findNumeric parseNothing (JS.coalesce (specs fastCar) ∅)
                 ["topSpeedKph"; "topSpeedKmH"; "topSpeed"; "vMaxKph"; "vMaxKmH"]%string
               = Some 280).
  { unfold findNumeric. cbn [findNumericKeys findInContainers].
    change (JS.coalesce (specs fastCar) ∅ !! "topSpeedKph"%string) with (Some (JNum 280)).
    cbn [toNumber].
    assert (E : (280 >? 0) = true) by (apply gtb_true; lra).
    rewrite E. reflexivity. }
  rewrite H1.
  assert (H2 : forall keys,
             Forall (fun k => k <> "topSpeedKph"%string) keys ->
             findNumeric parseNothing (JS.coalesce (specs fastCar) ∅) keys = None).
  { intros keys Hk. unfold findNumeric.
    change (subObject (JS.coalesce (specs fastCar) ∅) "performance") with (@None JsObject).
    change (subObject (JS.coalesce (specs fastCar) ∅) "realWorld") with (@None JsObject).
    change (subObject (JS.coalesce (specs fastCar) ∅) "stats") with (@None JsObject).
    induction Hk as [|k keys Hne _ IH]; [reflexivity|].
    cbn [findNumericKeys findInContainers].
    unfold fastCar. cbn [specs JS.coalesce].
    rewrite lookup_insert_ne by congruence. rewrite lookup_empty.
    exact IH. }
  rewrite !H2; [reflexivity| |];
    repeat (constructor; [discriminate|]); constructor.
Qed.

Lemma mistypedCar_targets :
  extractTargets parseNothing (JS.coalesce (specs mistypedCar) ∅)
  = Some (mkTargets (Some 280) None).
Proof.
  unfold extractTargets.
  assert (H1 : findNumeric parseNothing (JS.coalesce (specs mistypedCar) ∅)
                 ["topSpeedKph"; "topSpeedKmH"; "topSpeed"; "vMaxKph"; "vMaxKmH"]%string
               = Some 280).
  { unfold findNumeric. cbn [findNumericKeys findInContainers].
    change (JS.coalesce (specs mistypedCar) ∅ !! "topSpeedKph"%string)
      with (Some (JNum 280)).
    cbn [toNumber].
    assert (E : (280 >? 0) = true) by (apply gtb_true; lra).
    rewrite E. reflexivity. }
  rewrite H1.
  assert (H2 : forall keys,
             Forall (fun k => k <> "topSpeedKph"%string /\ k <> "driveType"%string) keys ->
             findNumeric parseNothing (JS.coalesce (specs mistypedCar) ∅) keys = None).
  { intros keys Hk. unfold findNumeric.
    change (subObject (JS.coalesce (specs mistypedCar) ∅) "performance")
      with (@None JsObject).
    change (subObject (JS.coalesce (specs mistypedCar) ∅) "realWorld")
      with (@None JsObject).
    change (subObject (JS.coalesce (specs mistypedCar) ∅) "stats") with (@None JsObject).
    induction Hk as [|k keys [Hne1 Hne2] _ IH]; [reflexivity|].
    cbn [findNumericKeys findInContainers].
    unfold mistypedCar. cbn [specs JS.coalesce].
    rewrite !lookup_insert_ne by congruence. rewrite lookup_empty.
    exact IH. }
  rewrite !H2; [reflexivity| |];
    repeat (constructor; [split; discriminate|]); constructor.
Qed.

(** C6, as stated, fails: a car with a top speed whose [driveType] is the
    number 4 makes [runCalibration] with timeoutMs = 0 throw a TypeError
    under a clock that increases at every reading, so that no record is
    returned. *)
Lemma mistyped_driveType_throws :
  extractTargets parseNothing (JS.coalesce (specs mistypedCar) ∅)
  = Some (mkTargets (Some 280) None)
  /\ (forall n, (clockReads startWorld < n)%nat ->
        tickingClock (clockReads startWorld) < tickingClock n)
  /\ (exists w',
        runCalibration tickingClock parseNothing printZero keepText 1
                       mistypedCar (mkCalibrationOptions (Some 0) None) startWorld
        = Some (Throw TypeError, w'))
  /\ ~ (exists record car' w',
          runCalibration tickingClock parseNothing printZero keepText 1
                         mistypedCar (mkCalibrationOptions (Some 0) None) startWorld
          = Some (Normal (record, car'), w')).
Proof.
  destruct (runCalibration_throws tickingClock parseNothing printZero keepText 1
              mistypedCar (mkCalibrationOptions (Some 0) None) (mkTargets (Some 280) None)
              startWorld mistypedCar_targets eq_refl) as (w' & Hthrow & _).
  split; [exact mistypedCar_targets|].
  split; [intros n Hn; unfold tickingClock; apply lt_INR; exact Hn|].
  split; [exists w'; exact Hthrow|].
  intros (record & car' & w2 & Hrun). rewrite Hthrow in Hrun. discriminate.
Qed.

Lemma tickingClock_increases (w : World) (n : nat) :
  (clockReads w < n)%nat -> tickingClock (clockReads w) < tickingClock n.
Proof. intros H. unfold tickingClock. apply lt_INR. exact H. Qed.

Lemma forced_timeout_witness :
  extractTargets parseNothing (JS.coalesce (specs fastCar) ∅)
  = Some (mkTargets (Some 280) None)
  /\ (forall n, (clockReads startWorld < n)%nat ->
        tickingClock (clockReads startWorld) < tickingClock n)
  /\ exists record car' w',
       runCalibration tickingClock parseNothing printZero keepText 1
                      fastCar (mkCalibrationOptions (Some 0) None) startWorld
       = Some (Normal (record, car'), w')
       /\ verified record = false
       /\ (exists before after,
             note record = Some (before ++ "timed out" ++ after)%string)
       /\ iterations record = 1%nat
       /\ ticks w' = ticks startWorld.
Proof.
  split; [exact fastCar_targets|].
  split; [exact (tickingClock_increases startWorld)|].
  exact (forced_timeout tickingClock parseNothing printZero keepText 1
           fastCar (mkCalibrationOptions (Some 0) None) (mkTargets (Some 280) None) startWorld
           fastCar_targets eq_refl eq_refl (tickingClock_increases startWorld)).
Defined.

(** ** Determinism *)


Lemma updatePowertrain_scratch p s t r ti v dt :
  updatePowertrain p (setLimiter (setTires s t) r) ti v dt
  = setTires (updatePowertrain p s ti v dt) t.
Proof. reflexivity. Qed.

Lemma computeLongitudinalForces_scratch p s t bi dt v :
  computeLongitudinalForces p (setTires s t) bi dt v
  = (setTires (computeLongitudinalForces p s bi dt v).1.1 t,
     (computeLongitudinalForces p s bi dt v).1.2,
     (computeLongitudinalForces p s bi dt v).2).
Proof. reflexivity. Qed.

Lemma scratch_velocity s t r : velocity (setLimiter (setTires s t) r) = velocity s.
Proof. reflexivity. Qed.

Lemma scratch_forward s t r : forwardVector (setLimiter (setTires s t) r) = forwardVector s.
Proof. reflexivity. Qed.

Lemma scratch_right s t r : rightVector (setLimiter (setTires s t) r) = rightVector s.
Proof. reflexivity. Qed.

Lemma params_mkCar p s : params (mkCar p s) = p.
Proof. reflexivity. Qed.

Lemma state_mkCar p s : state (mkCar p s) = s.
Proof. reflexivity. Qed.

(** The tire setup reads neither the tires nor the limiter flag of the
    state it starts from. *)
Lemma tireSetup_scratch p s t r ti bi si dt :
  tireSetup (mkCar p (setLimiter (setTires s t) r)) ti bi si dt
  = setupTires (tireSetup (mkCar p s) ti bi si dt) t.
Proof.
  unfold tireSetup. rewrite !params_mkCar, !state_mkCar. cbv zeta.
  rewrite !scratch_velocity, !scratch_forward, !scratch_right.
  rewrite !updatePowertrain_scratch.
  generalize (updatePowertrain p s ti (Vector.dot (velocity s) (forwardVector s)) dt).
  intros s1.
  rewrite !computeLongitudinalForces_scratch.
  generalize (computeLongitudinalForces p s1 bi dt (Vector.dot (velocity s) (forwardVector s))).
  intros longitudinal.
  reflexivity.
Qed.

(** The wheel loop keeps the name and grip of each tire and reads nothing
    else of it. *)
Lemma saturateWheel_scratch p u t i :
  name (Wheel.get t i) = name (Wheel.get (tires (ts_state u)) i) ->
  gripCoefficient (Wheel.get t i) = gripCoefficient (Wheel.get (tires (ts_state u)) i) ->
  saturateWheel p (setupTires u t) i = saturateWheel p u i.
Proof.
  intros Hn Hg. unfold saturateWheel.
  change (tires (ts_state (setupTires u t))) with t.
  rewrite Hn, Hg. reflexivity.
Qed.

Lemma freshTires_tags t i :
  name (Wheel.get (freshTires t) i) = name (Wheel.get t i)
  /\ gripCoefficient (Wheel.get (freshTires t) i) = gripCoefficient (Wheel.get t i).
Proof. destruct i; split; reflexivity. Qed.

Lemma wheelLoop_scratch p u :
  wheelLoop p (setupTires u (freshTires (tires (ts_state u)))) = wheelLoop p u.
Proof.
  unfold wheelLoop.
  rewrite !saturateWheel_scratch by apply freshTires_tags.
  reflexivity.
Qed.

Lemma tireSetup_tires p s ti bi si dt :
  tires (ts_state (tireSetup (mkCar p s) ti bi si dt)) = tires s.
Proof. reflexivity. Qed.

Lemma setupTires_state u t : ts_state (setupTires u t) = setTires (ts_state u) t.
Proof. reflexivity. Qed.
Lemma setupTires_forward u t : ts_forward (setupTires u t) = ts_forward u.
Proof. reflexivity. Qed.
Lemma setupTires_right u t : ts_right (setupTires u t) = ts_right u.
Proof. reflexivity. Qed.
Lemma setupTires_speed u t : ts_speed (setupTires u t) = ts_speed u.
Proof. reflexivity. Qed.
Lemma setupTires_dragForce u t : ts_dragForce (setupTires u t) = ts_dragForce u.
Proof. reflexivity. Qed.
Lemma setTires_velocity s t : velocity (setTires s t) = velocity s.
Proof. reflexivity. Qed.
Lemma setTires_heading s t : heading (setTires s t) = heading s.
Proof. reflexivity. Qed.
Lemma setTires_angularVelocity s t : angularVelocity (setTires s t) = angularVelocity s.
Proof. reflexivity. Qed.
Lemma setTires_position s t : position (setTires s t) = position s.
Proof. reflexivity. Qed.
Lemma setTires_steerAngle s t : steerAngle (setTires s t) = steerAngle s.
Proof. reflexivity. Qed.
Lemma setTires_gearIndex s t : gearIndex (setTires s t) = gearIndex s.
Proof. reflexivity. Qed.
Lemma setTires_engineRpm s t : engineRpm (setTires s t) = engineRpm s.
Proof. reflexivity. Qed.
Lemma setTires_throttle s t : throttle (setTires s t) = throttle s.
Proof. reflexivity. Qed.
Lemma setTires_brake s t : brake (setTires s t) = brake s.
Proof. reflexivity. Qed.
Lemma setTires_reverseMode s t : reverseMode (setTires s t) = reverseMode s.
Proof. reflexivity. Qed.
Lemma setTires_manualMode s t : manualMode (setTires s t) = manualMode s.
Proof. reflexivity. Qed.
Lemma setTires_revLimiterActive s t : revLimiterActive (setTires s t) = revLimiterActive s.
Proof. reflexivity. Qed.

(** [update] reads the vehicle state proper and nothing of the scratch
    fields. *)
Lemma update_scrub (c : Car) (ti bi si dt : R) :
  update (scrub c) ti bi si dt = update c ti bi si dt.
Proof.
  destruct c as [p s]. unfold scrub. rewrite params_mkCar, state_mkCar.
  unfold update. rewrite !params_mkCar.
  rewrite !tireSetup_scratch.
  rewrite <- (tireSetup_tires p s ti bi si dt).
  rewrite !wheelLoop_scratch.
  generalize (tireSetup (mkCar p s) ti bi si dt). intros u.
  generalize (wheelLoop p u). intros loop.
  cbv zeta.
  rewrite ?setupTires_state, ?setupTires_forward, ?setupTires_right, ?setupTires_speed,
    ?setupTires_dragForce.
  rewrite ?setTires_velocity, ?setTires_heading, ?setTires_angularVelocity,
    ?setTires_position, ?setTires_steerAngle, ?setTires_gearIndex, ?setTires_engineRpm,
    ?setTires_throttle, ?setTires_brake, ?setTires_reverseMode, ?setTires_manualMode,
    ?setTires_revLimiterActive.
  reflexivity.
Qed.

Lemma step_observable (c1 c2 : Car) (i : Inputs) :
  scrub c1 = scrub c2 -> step c1 i = step c2 i.
Proof.
  intros H. unfold step.
  rewrite <- (update_scrub c1), <- (update_scrub c2), H. reflexivity.
Qed.

Lemma trajectory_observable (inputs : list Inputs) (c1 c2 : Car) :
  scrub c1 = scrub c2 -> trajectory c1 inputs = trajectory c2 inputs.
Proof.
  intros H. destruct inputs as [|i rest]; [reflexivity|].
  cbn [trajectory]. rewrite (step_observable c1 c2 i H). reflexivity.
Qed.

Lemma zeroToHundredFuel_INR : INR zeroToHundredFuel = 3000.
Proof.
  rewrite INR_IZR_INZ.
  replace (Z.of_nat zeroToHundredFuel) with 3000%Z by reflexivity. reflexivity.
Qed.

Lemma topSpeedFuel_INR : INR topSpeedFuel = 32000.
Proof.
  rewrite INR_IZR_INZ.
  replace (Z.of_nat topSpeedFuel) with 32000%Z by reflexivity. reflexivity.
Qed.

(** Without a deadline the 0-100 loop never reads the clock, and fuel for
    the simulated time that is left lets it finish: its result is one and
    the same under every clock and from every world. *)
Lemma zeroToHundredLoop_total (fuel : nat) :
  forall (interval : R) (car : Car) (samples : option (list Sample))
         (time previousSpeed sampleTimer : R),
    15 <= time + INR fuel / 200 ->
    exists result k,
      forall (now : nat -> R) (w : World),
        zeroToHundredLoop now fuel interval None car samples time previousSpeed sampleTimer w
        = Some (result, mkWorld (clockReads w) (k + ticks w) (testCars w)).
Proof.
  induction fuel as [|fuel IH]; intros interval car samples time previousSpeed sampleTimer Hf.
  - cbn [INR] in Hf.
    assert (E : (time <? 15) = false) by (apply ltb_false; lra).
    eexists _, 0%nat. intros now w. cbn [zeroToHundredLoop]. rewrite E.
    destruct w; reflexivity.
  - destruct (time <? 15) eqn:E.
    + rewrite S_INR in Hf.
      set (car' := update car 1 0 0 (1 / 200)).
      set (time' := time + 1 / 200).
      destruct (getSpeedMetersPerSecond car' * 3.6 >=? 100) eqn:Es.
      * eexists _, 1%nat. intros now w. cbn [zeroToHundredLoop]. rewrite E.
        unfold deadlinePassed. unfold bind, ret, carUpdate. fold car'. rewrite Es.
        reflexivity.
      * match type of Es with
        | (?speed >=? 100) = false =>
            destruct (IH interval car'
                        (if match samples with
                            | Some _ => sampleTimer + 1 / 200 >=? interval
                            | None => false
                            end
                         then pushSample samples (sampleOf car' time' speed "zeroToHundred" false)
                         else samples)
                        time' speed
                        (if match samples with
                            | Some _ => sampleTimer + 1 / 200 >=? interval
                            | None => false
                            end
                         then 0 else sampleTimer + 1 / 200))
              as (result & k & Hk); [unfold time'; lra|]
        end.
        exists result, (S k). intros now w. cbn [zeroToHundredLoop]. rewrite E.
        unfold deadlinePassed. unfold bind, ret, carUpdate. fold car'. rewrite Es.
        fold time'. rewrite Hk. cbn [clockReads ticks testCars].
        rewrite Nat.add_succ_r. reflexivity.
    + eexists _, 0%nat. intros now w. cbn [zeroToHundredLoop]. rewrite E.
      destruct w; reflexivity.
Qed.

Lemma measureZeroToHundred_deterministic
    (config : CarConfigInput) (collect : bool) (interval : option R) :
  exists result,
    forall (now : nat -> R) (w : World),
      exists w',
        measureZeroToHundred now config (mkMeasureOptions collect interval None) w
        = Some (result, w').
Proof.
  destruct (zeroToHundredLoop_total zeroToHundredFuel
              (JS.coalesce interval 0.02)
              (resetState
                 (newCar config
                    (mkCarOptions (Some PIXELS_PER_METER) (Some (Vector.mk 0 0)) (Some 0) None))
                 (Vector.mk 0 0) 0)
              (if collect then Some [mkSample 0 0 0 "zeroToHundred" false] else None)
              0 0 0) as (result & k & Hk).
  { rewrite zeroToHundredFuel_INR. lra. }
  exists result. intros now w.
  unfold measureZeroToHundred. cbn [collectSamples sampleInterval deadlineMs].
  unfold bind, createTestCar. rewrite Hk.
  eexists. reflexivity.
Qed.

Lemma topSpeedLoop_total (fuel : nat) :
  forall (interval : R) (car : Car) (samples : option (list Sample))
         (time maxSpeed stableTime sampleTimer : R),
    160 <= time + INR fuel / 200 ->
    exists result k,
      forall (now : nat -> R) (w : World),
        topSpeedLoop now fuel interval None car samples time maxSpeed stableTime sampleTimer w
        = Some (result, mkWorld (clockReads w) (k + ticks w) (testCars w)).
Proof.
  induction fuel as [|fuel IH];
    intros interval car samples time maxSpeed stableTime sampleTimer Hf.
  - cbn [INR] in Hf.
    assert (E : (time <? 160) = false) by (apply ltb_false; lra).
    eexists _, 0%nat. intros now w. cbn [topSpeedLoop]. rewrite E.
    destruct w; reflexivity.
  - destruct (time <? 160) eqn:E.
    + rewrite S_INR in Hf.
      set (car' := update car 1 0 0 (1 / 200)).
      set (time' := time + 1 / 200).
      set (speed := getSpeedMetersPerSecond car' * 3.6).
      set (sampling := match samples with
                       | Some _ => sampleTimer + 1 / 200 >=? interval
                       | None => false
                       end).
      set (samples' := if sampling
                       then pushSample samples (sampleOf car' time' speed "topSpeed" false)
                       else samples).
      set (stableTime' := if speed >? maxSpeed + 0.05 then 0
                          else if Rabs (speed - maxSpeed) <? 0.1 then stableTime + 1 / 200
                          else stableTime + 1 / 200 * 0.25).
      set (maxSpeed' := if speed >? maxSpeed + 0.05 then speed else maxSpeed).
      destruct ((time' >? 5) && (stableTime' >=? 7)) eqn:Es.
      * eexists _, 1%nat. intros now w. cbn [topSpeedLoop]. rewrite E.
        unfold deadlinePassed. unfold bind, ret, carUpdate.
        fold car' time' speed sampling samples' stableTime' maxSpeed'. rewrite Es.
        reflexivity.
      * destruct (IH interval car' samples' time' maxSpeed' stableTime'
                    (if sampling then 0 else sampleTimer + 1 / 200))
          as (result & k & Hk); [unfold time'; lra|].
        exists result, (S k). intros now w. cbn [topSpeedLoop]. rewrite E.
        unfold deadlinePassed. unfold bind, ret, carUpdate.
        fold car' time' speed sampling samples' stableTime' maxSpeed'. rewrite Es.
        rewrite Hk. cbn [clockReads ticks testCars].
        rewrite Nat.add_succ_r. reflexivity.
    + eexists _, 0%nat. intros now w. cbn [topSpeedLoop]. rewrite E.
      destruct w; reflexivity.
Qed.

Lemma measureTopSpeed_deterministic
    (config : CarConfigInput) (collect : bool) (interval : option R) :
  exists result,
    forall (now : nat -> R) (w : World),
      exists w',
        measureTopSpeed now config (mkMeasureOptions collect interval None) w
        = Some (result, w').
Proof.
  destruct (topSpeedLoop_total topSpeedFuel
              (JS.coalesce interval 0.04)
              (resetState
                 (newCar config
                    (mkCarOptions (Some PIXELS_PER_METER) (Some (Vector.mk 0 0)) (Some 0) None))
                 (Vector.mk 0 0) 0)
              (if collect then Some [mkSample 0 0 0 "topSpeed" false] else None)
              0 0 0 0) as (result & k & Hk).
  { rewrite topSpeedFuel_INR. lra. }
  exists result. intros now w.
  unfold measureTopSpeed. cbn [collectSamples sampleInterval deadlineMs].
  unfold bind, createTestCar. rewrite Hk.
  eexists. reflexivity.
Qed.

(** C2.  Two cars with the same configuration and the same vehicle state
    (they may differ in what [update] overwrites before reading) go through
    the same trajectory under the same inputs; and without a deadline
    [measureZeroToHundred] and [measureTopSpeed] finish with one result per
    configuration, whatever the clock reads and whenever they are called. *)
Theorem determinism
    (c1 c2 : Car) (inputs : list Inputs)
    (config : CarConfigInput) (collect : bool) (interval : option R) :
  scrub c1 = scrub c2 ->
  trajectory c1 inputs = trajectory c2 inputs
  /\ (exists result,
        forall (now : nat -> R) (w : World),
          exists w',
            measureZeroToHundred now config (mkMeasureOptions collect interval None) w
            = Some (result, w'))
  /\ (exists result,
        forall (now : nat -> R) (w : World),
          exists w',
            measureTopSpeed now config (mkMeasureOptions collect interval None) w
            = Some (result, w')).
Proof.
  intros H. split; [apply trajectory_observable, H|]. split.
  - apply measureZeroToHundred_deterministic.
  - apply measureTopSpeed_deterministic.
Qed.

Lemma determinism_witness :
  scrub (carAtRest 0) = scrub (withLimiterFlag (carAtRest 0))
  /\ trajectory (carAtRest 0) [mkInputs 1 0 0 (1 / 60); mkInputs 1 0 0.5 (1 / 60)]
     = trajectory (withLimiterFlag (carAtRest 0))
                  [mkInputs 1 0 0 (1 / 60); mkInputs 1 0 0.5 (1 / 60)].
Proof.
  assert (H : scrub (carAtRest 0) = scrub (withLimiterFlag (carAtRest 0))) by reflexivity.
  split; [exact H|].
  exact (proj1 (determinism (carAtRest 0) (withLimiterFlag (carAtRest 0))
                  [mkInputs 1 0 0 (1 / 60); mkInputs 1 0 0.5 (1 / 60)]
                  emptyConfig false None H)).
Defined.

(** ** The calibration store: which cars are queued *)

Section Scan.

Variable now : nat -> R.
Variable parseNumber : string -> option R.
Variable managerVersion : Z.
Variable heap0 : gmap nat CatalogCar.

(** The first loop of [verifyAllCars], without a limit and over distinct
    cars, queues the cars that [queued] selects, in catalog order; it runs
    no simulation tick and builds no test car. *)
Lemma scanCars_pending (cars : list nat) :
  forall (st : Scan) (w : World),
    List.NoDup cars ->
    (forall ref, In ref cars -> scan_heap st !! ref = heap0 !! ref) ->
    exists st' w',
      scanCars now parseNumber managerVersion None cars st w = Some (st', w')
      /\ scan_pending st' = scan_pending st ++ List.filter (queued heap0) cars
      /\ ticks w' = ticks w
      /\ testCars w' = testCars w.
Proof.
  induction cars as [|ref rest IH]; intros st w Hnd Hheap.
  - exists st, w. cbn. rewrite app_nil_r. auto.
  - apply List.NoDup_cons_iff in Hnd. destruct Hnd as [Hnotin Hnd].
    assert (Hrest : forall h' r, In r rest ->
              (<[ ref := h' ]> (scan_heap st)) !! r = heap0 !! r).
    { intros h' r Hr. rewrite lookup_insert_ne by (intros ->; contradiction).
      apply Hheap. right. exact Hr. }
    cbn [scanCars List.filter]. unfold queued at 1.
    rewrite <- (Hheap ref) by (left; reflexivity).
    destruct (scan_heap st !! ref) as [car|] eqn:Hcar.
    2:{ apply IH; [exact Hnd|]. intros r Hr. apply Hheap. right. exact Hr. }
    destruct (id car) as [carId|] eqn:Hid.
    2:{ apply IH; [exact Hnd|]. intros r Hr. apply Hheap. right. exact Hr. }
    destruct (isSpecMarkedVerified car) eqn:Hflag; cbn [negb].
    + destruct (isRecordCurrent managerVersion (records (scan_manager st) !! carId)).
      * cbn [andb].
        match goal with
        | |- context [scanCars _ _ _ None rest ?st1 w] =>
            destruct (IH st1 w Hnd) as (st' & w' & Hs & Hp & Ht & Hc);
              [cbn [scan_heap]; intros r Hr; apply Hrest, Hr|]
        end.
        exists st', w'. auto.
      * cbn [andb]. unfold bind, dateNow.
        match goal with
        | |- context [scanCars _ _ _ None rest ?st1 ?w1] =>
            destruct (IH st1 w1 Hnd) as (st' & w' & Hs & Hp & Ht & Hc);
              [cbn [scan_heap]; intros r Hr; apply Hrest, Hr|]
        end.
        exists st', w'. auto.
    + rewrite andb_false_r.
      match goal with
      | |- context [scanCars _ _ _ None rest ?st1 w] =>
          destruct (IH st1 w Hnd) as (st' & w' & Hs & Hp & Ht & Hc);
            [cbn [scan_heap]; intros r Hr; apply Hrest, Hr|]
      end.
      exists st', w'. split; [exact Hs|]. split; [|auto].
      rewrite Hp. cbn [scan_pending]. rewrite <- app_assoc. reflexivity.
Qed.

End Scan.

(** ** Every run of the controller returns *)

Section Returns.

Variable now : nat -> R.
Variable parseNumber : string -> option R.
Variable numberToString : R -> string.
Variable trim : string -> string.
Variable managerVersion : Z.
Variable describeError : Thrown -> string.

Lemma deadlinePassed_returns (deadline : option R) (w : World) :
  exists b w', deadlinePassed now deadline w = Some (b, w').
Proof.
  destruct deadline as [d|]; unfold deadlinePassed; unfold bind, dateNow, ret;
    eexists _, _; reflexivity.
Qed.

Lemma zeroToHundredLoop_returns (fuel : nat) :
  forall (interval : R) (deadline : option R) (car : Car) (samples : option (list Sample))
         (time previousSpeed sampleTimer : R) (w : World),
    15 <= time + INR fuel / 200 ->
    exists result w',
      zeroToHundredLoop now fuel interval deadline car samples time previousSpeed
                        sampleTimer w
      = Some (result, w').
Proof.
  induction fuel as [|fuel IH];
    intros interval deadline car samples time previousSpeed sampleTimer w Hf.
  - cbn [INR] in Hf.
    assert (E : (time <? 15) = false) by (apply ltb_false; lra).
    cbn [zeroToHundredLoop]. rewrite E. eexists _, _. reflexivity.
  - cbn [zeroToHundredLoop]. destruct (time <? 15) eqn:E; [|eexists _, _; reflexivity].
    rewrite S_INR in Hf.
    destruct (deadlinePassed_returns deadline w) as (b & w1 & Hd).
    unfold bind at 1. rewrite Hd.
    destruct b; [eexists _, _; reflexivity|].
    unfold bind, carUpdate.
    match goal with
    | |- context [if ?c then ret _ else _] => destruct c; [eexists _, _; reflexivity|]
    end.
    apply IH. lra.
Qed.

Lemma topSpeedLoop_returns (fuel : nat) :
  forall (interval : R) (deadline : option R) (car : Car) (samples : option (list Sample))
         (time maxSpeed stableTime sampleTimer : R) (w : World),
    160 <= time + INR fuel / 200 ->
    exists result w',
      topSpeedLoop now fuel interval deadline car samples time maxSpeed stableTime
                   sampleTimer w
      = Some (result, w').
Proof.
  induction fuel as [|fuel IH];
    intros interval deadline car samples time maxSpeed stableTime sampleTimer w Hf.
  - cbn [INR] in Hf.
    assert (E : (time <? 160) = false) by (apply ltb_false; lra).
    cbn [topSpeedLoop]. rewrite E. eexists _, _. reflexivity.
  - cbn [topSpeedLoop]. destruct (time <? 160) eqn:E; [|eexists _, _; reflexivity].
    rewrite S_INR in Hf.
    destruct (deadlinePassed_returns deadline w) as (b & w1 & Hd).
    unfold bind at 1. rewrite Hd.
    destruct b; [eexists _, _; reflexivity|].
    unfold bind, carUpdate.
    match goal with
    | |- context [if ?c then ret _ else _] => destruct c; [eexists _, _; reflexivity|]
    end.
    apply IH. lra.
Qed.

Lemma measureZeroToHundred_returns
    (config : CarConfigInput) (options : MeasureOptions) (w : World) :
  exists result w', measureZeroToHundred now config options w = Some (result, w').
Proof.
  unfold measureZeroToHundred. unfold bind, createTestCar.
  apply zeroToHundredLoop_returns. rewrite zeroToHundredFuel_INR. lra.
Qed.

Lemma measureTopSpeed_returns
    (config : CarConfigInput) (options : MeasureOptions) (w : World) :
  exists result w', measureTopSpeed now config options w = Some (result, w').
Proof.
  unfold measureTopSpeed. unfold bind, createTestCar.
  apply topSpeedLoop_returns. rewrite topSpeedFuel_INR. lra.
Qed.

Lemma onTestCar_returns {A} (driveType : JsVal) (measurement : M A) (w : World) :
  (exists result w', measurement w = Some (result, w')) ->
  exists completion w', onTestCar driveType measurement w = Some (completion, w').
Proof.
  intros (result & w' & H).
  destruct driveType; try (eexists _, _; reflexivity).
  cbn [onTestCar]. unfold lift, bind. rewrite H. eexists _, _. reflexivity.
Qed.

(** [bindC] of two calls that return. *)
Lemma bindC_returns {A B} (m : M (Completion A)) (k : A -> M (Completion B)) (w : World) :
  (exists completion w', m w = Some (completion, w')) ->
  (forall a w', exists completion w'', k a w' = Some (completion, w'')) ->
  exists completion w', bindC m k w = Some (completion, w').
Proof.
  intros (c & w1 & Hm) Hk. unfold bindC, bind. rewrite Hm.
  destruct c as [a|e]; [apply Hk|eexists _, _; reflexivity].
Qed.

Lemma calibrationLoop_returns (driveType : JsVal) (remaining : nat) :
  forall (index : nat) (targets : Targets) (deadline : R) (st : LoopState) (w : World),
    exists completion w',
      calibrationLoop now driveType remaining index targets deadline st w
      = Some (completion, w').
Proof.
  induction remaining as [|remaining IH]; intros index targets deadline st w.
  - eexists _, _. reflexivity.
  - cbn [calibrationLoop]. unfold bind at 1. unfold dateNow at 1.
    destruct (_ >? deadline); [eexists _, _; reflexivity|].
    apply bindC_returns.
    { destruct (target_zeroToHundredSec targets).
      - apply bindC_returns.
        + apply onTestCar_returns, measureZeroToHundred_returns.
        + intros; eexists _, _; reflexivity.
      - eexists _, _. reflexivity. }
    intros afterZero wz. apply bindC_returns.
    { destruct (target_topSpeedKph targets).
      - apply bindC_returns.
        + apply onTestCar_returns, measureTopSpeed_returns.
        + intros; eexists _, _; reflexivity.
      - eexists _, _. reflexivity. }
    intros afterTop wp.
    match goal with
    | |- context [if ?c then ret _ else _] => destruct c; [eexists _, _; reflexivity|]
    end.
    apply IH.
Qed.

Lemma runCalibration_returns (car : CatalogCar) (options : CalibrationOptions) (w : World) :
  exists completion w',
    runCalibration now parseNumber numberToString trim managerVersion car options w
    = Some (completion, w').
Proof.
  unfold runCalibration.
  destruct (extractTargets parseNumber (JS.coalesce (specs car) ∅)) as [targets|].
  2:{ unfold bind, dateNow, ret. eexists _, _. reflexivity. }
  cbv zeta. unfold bind at 1. unfold dateNow at 1.
  apply bindC_returns; [apply calibrationLoop_returns|].
  intros st w1. apply bindC_returns.
  { destruct (target_zeroToHundredSec targets).
    - apply onTestCar_returns, measureZeroToHundred_returns.
    - eexists _, _. reflexivity. }
  intros finalZero w2. apply bindC_returns.
  { destruct (target_topSpeedKph targets).
    - apply onTestCar_returns, measureTopSpeed_returns.
    - eexists _, _. reflexivity. }
  intros finalTop w3.
  unfold bind, dateNow, ret. eexists _, _. reflexivity.
Qed.

(** With a [driveType] that is a string nothing throws. *)
Lemma onTestCar_normal {A} (driveType : JsVal) (measurement : M A) (w : World) :
  isText driveType = true ->
  (exists result w', measurement w = Some (result, w')) ->
  exists result w', onTestCar driveType measurement w = Some (Normal result, w').
Proof.
  intros Hd (result & w' & H).
  destruct driveType; try discriminate.
  cbn [onTestCar]. unfold lift, bind. rewrite H. eexists _, _. reflexivity.
Qed.

Lemma bindC_normal {A B} (m : M (Completion A)) (k : A -> M (Completion B)) (w : World) :
  (exists a w', m w = Some (Normal a, w')) ->
  (forall a w', exists b w'', k a w' = Some (Normal b, w'')) ->
  exists b w', bindC m k w = Some (Normal b, w').
Proof.
  intros (a & w1 & Hm) Hk. unfold bindC, bind. rewrite Hm. apply Hk.
Qed.

Lemma calibrationLoop_normal (driveType : JsVal) (remaining : nat) :
  isText driveType = true ->
  forall (index : nat) (targets : Targets) (deadline : R) (st : LoopState) (w : World),
    exists st' w',
      calibrationLoop now driveType remaining index targets deadline st w
      = Some (Normal st', w').
Proof.
  intros Hd.
  induction remaining as [|remaining IH]; intros index targets deadline st w.
  - eexists _, _. reflexivity.
  - cbn [calibrationLoop]. unfold bind at 1. unfold dateNow at 1.
    destruct (_ >? deadline); [eexists _, _; reflexivity|].
    apply bindC_normal.
    { destruct (target_zeroToHundredSec targets).
      - apply bindC_normal.
        + apply onTestCar_normal; [exact Hd|apply measureZeroToHundred_returns].
        + intros; eexists _, _; reflexivity.
      - eexists _, _. reflexivity. }
    intros afterZero wz. apply bindC_normal.
    { destruct (target_topSpeedKph targets).
      - apply bindC_normal.
        + apply onTestCar_normal; [exact Hd|apply measureTopSpeed_returns].
        + intros; eexists _, _; reflexivity.
      - eexists _, _. reflexivity. }
    intros afterTop wp.
    match goal with
    | |- context [if ?c then ret _ else _] => destruct c; [eexists _, _; reflexivity|]
    end.
    apply IH.
Qed.

(** [runCalibration] returns a record, and throws nothing, for a car
    whose [driveType] is a string or absent. *)
Lemma runCalibration_normal (car : CatalogCar) (options : CalibrationOptions) (w : World) :
  driveTypeIsText (JS.coalesce (specs car) ∅) = true ->
  exists result w',
    runCalibration now parseNumber numberToString trim managerVersion car options w
    = Some (Normal result, w').
Proof.
  intros Htext. unfold runCalibration.
  destruct (extractTargets parseNumber (JS.coalesce (specs car) ∅)) as [targets|].
  2:{ unfold bind, dateNow, ret. eexists _, _. reflexivity. }
  cbv zeta.
  assert (Hd : isText (driveTypeOf (createCarConfigFromSpec parseNumber trim
                                      (JS.coalesce (specs car) ∅) None)) = true).
  { unfold createCarConfigFromSpec. exact Htext. }
  set (built := createCarConfigFromSpec parseNumber trim _ None) in *.
  unfold bind at 1. unfold dateNow at 1.
  apply bindC_normal; [apply calibrationLoop_normal; exact Hd|].
  intros st w1. apply bindC_normal.
  { destruct (target_zeroToHundredSec targets).
    - apply onTestCar_normal; [exact Hd|apply measureZeroToHundred_returns].
    - eexists _, _. reflexivity. }
  intros finalZero w2. apply bindC_normal.
  { destruct (target_topSpeedKph targets).
    - apply onTestCar_normal; [exact Hd|apply measureTopSpeed_returns].
    - eexists _, _. reflexivity. }
  intros finalTop w3.
  unfold bind, dateNow, ret. eexists _, _. reflexivity.
Qed.

Lemma calibratePending_returns (limit : option nat) (options : CalibrationOptions)
    (pending : list nat) :
  forall (processed : nat) (m : Manager) (heap : gmap nat CatalogCar) (w : World),
    exists result w',
      calibratePending now parseNumber numberToString trim managerVersion describeError
                       limit options pending processed m heap w
      = Some (result, w').
Proof.
  induction pending as [|ref rest IH]; intros processed m heap w.
  - eexists _, _. reflexivity.
  - cbn [calibratePending].
    destruct (heap !! ref) as [car|]; [|apply IH].
    unfold bind.
    destruct (runCalibration_returns car options w) as (completion & w1 & ->).
    assert (Hnext : forall m1 heap1,
      exists result w',
        match limit with
        | Some n =>
            if (n <=? S processed)%nat then ret (m1, heap1)
            else calibratePending now parseNumber numberToString trim managerVersion
                   describeError limit options rest (S processed) m1 heap1
        | None =>
            calibratePending now parseNumber numberToString trim managerVersion
              describeError limit options rest (S processed) m1 heap1
        end w1 = Some (result, w')).
    { intros m1 heap1. destruct limit as [n|]; [|apply IH].
      destruct (n <=? S processed)%nat; [eexists _, _; reflexivity|apply IH]. }
    destruct completion as [result|thrown]; [|apply Hnext].
    destruct (negb (verified result.1)); [apply IH|apply Hnext].
Qed.

End Returns.

(** * Further properties of carPhysics.js *)

Import Physics.
Import Controls.

(** ** World position *)

(** X1.  With a non-zero scale, [getWorldPosition] reads back what
    [setWorldPosition] wrote, and [applyWorldDisplacement] moves the world
    position by exactly the displacement given. *)
Theorem world_position_round_trip (c : Car) (x y dx dy : R) :
  pixelsPerMeter (params c) <> 0 ->
  getWorldPosition (setWorldPosition c x y) = Vector.mk x y
  /\ getWorldPosition (applyWorldDisplacement c dx dy)
     = Vector.mk (Vector.x_ (getWorldPosition c) + dx) (Vector.y_ (getWorldPosition c) + dy).
Proof.
  intros Hppm. unfold getWorldPosition, setWorldPosition, applyWorldDisplacement.
  cbn [params state position setPosition Vector.x_ Vector.y_].
  split; f_equal; field; exact Hppm.
Qed.

Lemma world_position_round_trip_witness :
  pixelsPerMeter (params (carAtRest 0)) <> 0
  /\ getWorldPosition (setWorldPosition (carAtRest 0) 32 48) = Vector.mk 32 48.
Proof.
  assert (H : pixelsPerMeter (params (carAtRest 0)) <> 0).
  { cbn. lra. }
  split; [exact H|].
  exact (proj1 (world_position_round_trip (carAtRest 0) 32 48 0 0 H)).
Defined.

(** ** The manual gearbox *)

Lemma setGearbox_same (s : VehicleState) :
  setGearbox s (gearIndex s) (reverseMode s) (manualMode s) = s.
Proof. destruct s; reflexivity. Qed.

(** X2.  [shiftUp] returns true exactly when the car is in manual mode and
    its gear is not the last one, [shiftDown] exactly when the car is in
    manual mode and its gear is not -1; a shift that returns false leaves
    the car as it was. *)
Theorem shift_returns (c : Car) :
  ((shiftUp c).2 = true
     <-> manualMode (state c) = true /\ gearIndex (state c) <> maxGear c)
  /\ ((shiftDown c).2 = true
        <-> manualMode (state c) = true /\ gearIndex (state c) <> (-1)%Z)
  /\ ((shiftUp c).2 = false -> (shiftUp c).1 = c)
  /\ ((shiftDown c).2 = false -> (shiftDown c).1 = c).
Proof.
  unfold shiftUp, shiftDown.
  destruct (manualMode (state c)) eqn:Hm; cbn [negb].
  - destruct (Z.eqb_spec (Z.min (maxGear c) (gearIndex (state c) + 1)) (gearIndex (state c)))
      as [Hu|Hu];
    destruct (Z.eqb_spec (Z.max (-1) (gearIndex (state c) - 1)) (gearIndex (state c)))
      as [Hd|Hd];
    cbn [negb fst snd]; repeat split; intros; try discriminate; try reflexivity;
      try lia; try (destruct_and?; lia).
  - repeat split; intros; cbn [fst snd] in *; try discriminate; try reflexivity;
      destruct_and?; discriminate.
Qed.

(** X3.  Shifting up and then down, or down and then up, brings a manual
    car back to the gear it had, provided the first shift had room to
    move: the two shifts are inverse to each other inside [-1, N]. *)
Theorem shift_round_trip (c : Car) :
  manualMode (state c) = true ->
  (-1 <= gearIndex (state c) <= maxGear c)%Z ->
  reverseMode (state c) = (gearIndex (state c) =? -1)%Z ->
  ((gearIndex (state c) < maxGear c)%Z -> (shiftDown (shiftUp c).1).1 = c)
  /\ ((-1 < gearIndex (state c))%Z -> (shiftUp (shiftDown c).1).1 = c).
Proof.
  intros Hm Hg Hr. destruct c as [p s]. cbn [state params] in *.
  split; intros Hroom.
  - unfold shiftUp. cbn [state params]. rewrite Hm. cbn [negb].
    unfold maxGear in *. cbn [params] in *.
    destruct (Z.eqb_spec (Z.min (Z.of_nat (List.length (gearRatios (config p))) - 1)
                                (gearIndex s + 1)) (gearIndex s)) as [E|E]; [lia|].
    cbn [negb fst]. unfold shiftDown. cbn [state params setGearbox manualMode gearIndex].
    rewrite ?Hm. cbn [negb].
    rewrite Z.min_r by lia.
    replace (Z.max (-1) (gearIndex s + 1 - 1)) with (gearIndex s) by lia.
    destruct (Z.eqb_spec (gearIndex s) (gearIndex s + 1)) as [E'|E']; [lia|].
    cbn [negb fst]. f_equal. rewrite <- Hr.
    destruct s; cbn in *. subst. reflexivity.
  - unfold shiftDown. cbn [state params]. rewrite Hm. cbn [negb].
    destruct (Z.eqb_spec (Z.max (-1) (gearIndex s - 1)) (gearIndex s)) as [E|E]; [lia|].
    cbn [negb fst]. unfold shiftUp. cbn [state params setGearbox manualMode gearIndex].
    rewrite ?Hm. cbn [negb].
    unfold maxGear in *. cbn [params] in *.
    rewrite Z.max_r by lia.
    replace (Z.min (Z.of_nat (List.length (gearRatios (config p))) - 1) (gearIndex s - 1 + 1))
      with (gearIndex s) by lia.
    destruct (Z.eqb_spec (gearIndex s) (gearIndex s - 1)) as [E'|E']; [lia|].
    cbn [negb fst]. f_equal. rewrite <- Hr.
    destruct s; cbn in *. subst. reflexivity.
Qed.

Lemma shift_round_trip_witness :
  (shiftDown (shiftUp (setManualMode (carAtRest 0) true)).1).1
  = setManualMode (carAtRest 0) true.
Proof.
  assert (Hm : manualMode (state (setManualMode (carAtRest 0) true)) = true) by reflexivity.
  assert (Hg : (-1 <= gearIndex (state (setManualMode (carAtRest 0) true))
                <= maxGear (setManualMode (carAtRest 0) true))%Z).
  { vm_compute. split; discriminate. }
  assert (Hr : reverseMode (state (setManualMode (carAtRest 0) true))
               = (gearIndex (state (setManualMode (carAtRest 0) true)) =? -1)%Z)
    by reflexivity.
  assert (Hroom : (gearIndex (state (setManualMode (carAtRest 0) true))
                   < maxGear (setManualMode (carAtRest 0) true))%Z) by reflexivity.
  exact (proj1 (shift_round_trip _ Hm Hg Hr) Hroom).
Defined.

(** ** The gear index under every control *)

Ltac bool_hyps :=
  repeat match goal with
  | H : (_ && _)%bool = true |- _ => apply andb_true_iff in H; destruct H
  | H : (_ <? _)%Z = true |- _ => apply Z.ltb_lt in H
  | H : (_ <? _)%Z = false |- _ => apply Z.ltb_ge in H
  | H : (_ >? _)%Z = true |- _ => apply Z.gtb_lt in H
  | H : (_ <=? _)%Z = true |- _ => apply Z.leb_le in H
  | H : (_ <=? _)%Z = false |- _ => apply Z.leb_gt in H
  | H : (_ =? _)%Z = true |- _ => apply Z.eqb_eq in H
  | H : (_ =? _)%Z = false |- _ => apply Z.eqb_neq in H
  end.

Lemma updatePowertrain_gear_bounds (p : CarParams) (s : VehicleState) (ti vLong dt : R) :
  (1 <= Z.of_nat (List.length (gearRatios (config p))) - 1)%Z ->
  (-1 <= gearIndex s <= Z.of_nat (List.length (gearRatios (config p))) - 1)%Z ->
  (-1 <= gearIndex (updatePowertrain p s ti vLong dt)
      <= Z.of_nat (List.length (gearRatios (config p))) - 1)%Z.
Proof.
  intros HN Hg. unfold updatePowertrain. cbn [gearIndex].
  destruct (manualMode s); cbn [negb andb fst snd].
  - exact Hg.
  - repeat break_if; cbn [fst snd] in *; bool_hyps; lia.
Qed.

Lemma updatePowertrain_manual (p : CarParams) (s : VehicleState) (ti vLong dt : R) :
  manualMode s = true ->
  gearIndex (updatePowertrain p s ti vLong dt) = gearIndex s
  /\ reverseMode (updatePowertrain p s ti vLong dt) = (gearIndex s =? -1)%Z
  /\ manualMode (updatePowertrain p s ti vLong dt) = true.
Proof.
  intros Hm. unfold updatePowertrain. cbn [gearIndex reverseMode manualMode].
  rewrite Hm. cbn [negb andb fst snd]. auto.
Qed.

Lemma update_gearIndex (c : Car) (ti bi si dt : R) :
  gearIndex (state (update c ti bi si dt))
  = gearIndex (updatePowertrain (params c) (state c) ti
                 (Vector.dot (velocity (state c)) (forwardVector (state c))) dt).
Proof. reflexivity. Qed.

Lemma update_reverseMode (c : Car) (ti bi si dt : R) :
  reverseMode (state (update c ti bi si dt))
  = reverseMode (updatePowertrain (params c) (state c) ti
                   (Vector.dot (velocity (state c)) (forwardVector (state c))) dt).
Proof. reflexivity. Qed.

Lemma update_manualMode (c : Car) (ti bi si dt : R) :
  manualMode (state (update c ti bi si dt)) = manualMode (state c).
Proof. reflexivity. Qed.

Lemma update_params (c : Car) (ti bi si dt : R) : params (update c ti bi si dt) = params c.
Proof. reflexivity. Qed.

Lemma act_params (c : Car) (a : Action) : params (act c a) = params c.
Proof.
  destruct a as [| |enabled|i]; cbn [act].
  - unfold shiftUp. repeat break_if; reflexivity.
  - unfold shiftDown. repeat break_if; reflexivity.
  - unfold setManualMode. destruct enabled; reflexivity.
  - apply update_params.
Qed.

Lemma act_gear_bounds (c : Car) (a : Action) :
  (1 <= maxGear c)%Z ->
  (-1 <= gearIndex (state c) <= maxGear c)%Z ->
  (-1 <= gearIndex (state (act c a)) <= maxGear c)%Z.
Proof.
  intros HN Hg. destruct a as [| |enabled|i]; cbn [act].
  - unfold shiftUp. repeat break_if; cbn [fst state gearIndex setGearbox]; lia.
  - unfold shiftDown. repeat break_if; cbn [fst state gearIndex setGearbox]; lia.
  - unfold setManualMode. destruct enabled; cbn [negb state gearIndex setGearbox];
      [lia|]. break_if; lia.
  - unfold step. rewrite update_gearIndex.
    apply updatePowertrain_gear_bounds; assumption.
Qed.

(** X4.  Whatever the driver does to a car with at least two gear ratios
    (shifting up or down, switching between manual and automatic mode,
    running ticks), the gear index stays between -1 and the last index of
    the ratio list. *)
Theorem gear_index_bounds (c : Car) (actions : list Action) :
  (1 <= maxGear c)%Z ->
  (-1 <= gearIndex (state c) <= maxGear c)%Z ->
  (-1 <= gearIndex (state (drive c actions)) <= maxGear c)%Z.
Proof.
  revert c. induction actions as [|a rest IH]; intros c HN Hg; [exact Hg|].
  cbn [drive fold_left]. fold (drive (act c a) rest).
  assert (Hmax : maxGear (act c a) = maxGear c).
  { unfold maxGear. rewrite act_params. reflexivity. }
  rewrite <- Hmax. apply IH; rewrite Hmax; [exact HN|].
  apply act_gear_bounds; assumption.
Qed.

Lemma gear_index_bounds_witness :
  (-1 <= gearIndex (state (drive (carAtRest 0)
                              [ManualMode true; ShiftDown; ShiftDown; ShiftUp;
                               Tick (mkInputs 1 0 0 (1 / 60))]))
      <= maxGear (carAtRest 0))%Z.
Proof.
  apply gear_index_bounds; vm_compute; try split; discriminate.
Defined.

(** X5.  In manual mode a tick never shifts: [update] leaves the gear index
    as it is, keeps the car in manual mode and sets [reverseMode] exactly
    when the gear index is -1. *)
Theorem manual_update_keeps_gear (c : Car) (throttleInput brakeInput steerInput dt : R) :
  manualMode (state c) = true ->
  let c' := update c throttleInput brakeInput steerInput dt in
  gearIndex (state c') = gearIndex (state c)
  /\ reverseMode (state c') = (gearIndex (state c) =? -1)%Z
  /\ manualMode (state c') = true.
Proof.
  intros Hm c'. subst c'.
  rewrite update_gearIndex, update_reverseMode, update_manualMode.
  pose proof (updatePowertrain_manual (params c) (state c) throttleInput
                (Vector.dot (velocity (state c)) (forwardVector (state c))) dt Hm)
    as (H1 & H2 & _).
  auto.
Qed.

Lemma manual_update_keeps_gear_witness :
  gearIndex (state (update (setManualMode (carAtRest 0) true) 1 0 0 (1 / 60))) = 1%Z.
Proof.
  assert (Hm : manualMode (state (setManualMode (carAtRest 0) true)) = true) by reflexivity.
  exact (proj1 (manual_update_keeps_gear (setManualMode (carAtRest 0) true) 1 0 0 (1 / 60) Hm)).
Defined.

(** X6.  Leaving manual mode puts the car back into the range of the
    automatic gearbox: after [setManualMode(false)] on a car with at least
    two ratios whose gear is not above the last one, [reverseMode] is off
    and every sequence of ticks keeps the gear index between 1 and the last
    index, in automatic mode. *)
Theorem automatic_after_manual (c : Car) (inputs : list Inputs) :
  (1 <= maxGear c)%Z ->
  (gearIndex (state c) <= maxGear c)%Z ->
  let c' := run (setManualMode c false) inputs in
  reverseMode (state (setManualMode c false)) = false
  /\ (1 <= gearIndex (state c') <= maxGear c)%Z
  /\ manualMode (state c') = false.
Proof.
  intros HN Hg c'. split; [reflexivity|].
  assert (H : gear_in_range (setManualMode c false)).
  { unfold gear_in_range, setManualMode, maxGear in *.
    cbn [negb state params gearIndex manualMode setGearbox].
    split; [|reflexivity]. break_if; bool_hyps; lia. }
  apply (run_gear_in_range inputs) in H. destruct H as [H1 H2].
  rewrite run_params in H1. split; [exact H1|exact H2].
Qed.

Lemma automatic_after_manual_witness :
  let c := (shiftDown (shiftDown (setManualMode (carAtRest 0) true)).1).1 in
  gearIndex (state c) = (-1)%Z
  /\ (1 <= gearIndex (state (run (setManualMode c false) [mkInputs 1 0 0 (1 / 60)]))
      <= maxGear c)%Z.
Proof.
  cbv zeta. split; [reflexivity|].
  apply (automatic_after_manual
           (shiftDown (shiftDown (setManualMode (carAtRest 0) true)).1).1
           [mkInputs 1 0 0 (1 / 60)]); vm_compute; discriminate.
Defined.

(** ** The outline of the body *)

Lemma hypot_of_square (a b m : R) : a * a + b * b = m * m -> JS.hypot a b = Rabs m.
Proof.
  intros H. unfold JS.hypot. rewrite H. fold (Rsqr m). apply sqrt_Rsqr_abs.
Qed.

Lemma sin_cos_square (h : R) : sin h * sin h + cos h * cos h = 1.
Proof. pose proof (sin2_cos2 h) as H. unfold Rsqr in H. exact H. Qed.

(** X7.  [worldPoints] returns the four corners of a rectangle centred on
    the world position of the car: opposite corners are symmetric about
    it, two sides have the length of the track width plus 0.6 m, the other
    two that of the wheelbase plus 1.2 m, both scaled by [pixelsPerMeter],
    and the two diagonals are equal. *)
Theorem worldPoints_rectangle (c : Car) :
  let ppm := pixelsPerMeter (params c) in
  let lengthM := wheelbaseM (config (params c)) + 1.2 in
  let widthM := trackWidthM (config (params c)) + 0.6 in
  let centre := getWorldPosition c in
  let between (a b : Vector.t) :=
    Vector.length (Vector.mk (Vector.x_ a - Vector.x_ b) (Vector.y_ a - Vector.y_ b)) in
  exists p0 p1 p2 p3 : Vector.t,
    worldPoints c = [p0; p1; p2; p3]
    /\ Vector.x_ p0 + Vector.x_ p2 = 2 * Vector.x_ centre
    /\ Vector.y_ p0 + Vector.y_ p2 = 2 * Vector.y_ centre
    /\ Vector.x_ p1 + Vector.x_ p3 = 2 * Vector.x_ centre
    /\ Vector.y_ p1 + Vector.y_ p3 = 2 * Vector.y_ centre
    /\ between p0 p1 = Rabs (widthM * ppm)
    /\ between p2 p3 = Rabs (widthM * ppm)
    /\ between p1 p2 = Rabs (lengthM * ppm)
    /\ between p3 p0 = Rabs (lengthM * ppm)
    /\ between p0 p2 = between p1 p3.
Proof.
  intros ppm lengthM widthM centre between.
  unfold worldPoints. cbn [List.map].
  do 4 eexists. split; [reflexivity|].
  subst centre between. unfold getWorldPosition, Vector.length, rightVector.
  unfold forwardVector. cbn [Vector.x_ Vector.y_].
  fold ppm. fold lengthM. fold widthM.
  set (px := Vector.x_ (position (state c))). set (py := Vector.y_ (position (state c))).
  pose proof (sin_cos_square (heading (state c))) as H.
  set (S := sin (heading (state c))) in *. set (C := cos (heading (state c))) in *.
  replace 0.5 with (/ 2) by lra.
  repeat split; try field.
  - apply hypot_of_square.
    transitivity (widthM * ppm * (widthM * ppm) * (S * S + C * C)); [field|].
    rewrite H; ring.
  - apply hypot_of_square.
    transitivity (widthM * ppm * (widthM * ppm) * (S * S + C * C)); [field|].
    rewrite H; ring.
  - apply hypot_of_square.
    transitivity (lengthM * ppm * (lengthM * ppm) * (S * S + C * C)); [field|].
    rewrite H; ring.
  - apply hypot_of_square.
    transitivity (lengthM * ppm * (lengthM * ppm) * (S * S + C * C)); [field|].
    rewrite H; ring.
  - unfold JS.hypot. f_equal.
    transitivity ((lengthM * lengthM + widthM * widthM) * (ppm * ppm) * (S * S + C * C));
      [field|field].
Qed.

(** ** Saving and restoring the state *)

Lemma trunc_IZR (g : Z) : JS.trunc (IZR g) = g.
Proof.
  unfold JS.trunc. destruct (0 <=? IZR g) eqn:E.
  - apply ZfloorZ.
  - rewrite ZfloorNZ. lia.
Qed.

Lemma graft_same (s : VehicleState) : graft s s = s.
Proof. destruct s; reflexivity. Qed.

Lemma restoreFields_serialized (c c' : Car) :
  params c' = params c ->
  pixelsPerMeter (params c) <> 0 ->
  idleRpm (params c) <= engineRpm (state c) <= limiterRpm (params c) * 1.05 ->
  -1 <= throttle (state c) <= 1 ->
  0 <= brake (state c) <= 1 ->
  restoreFields c' (serializeState c) = mkCar (params c) (graft (state c) (state c')).
Proof.
  intros Hp Hppm Hrpm Hthr Hbr. unfold restoreFields. rewrite Hp.
  change (serializeState c !! "position") with (Some (vectorObject (getWorldPosition c))).
  change (serializeState c !! "velocity") with (Some (vectorObject (velocity (state c)))).
  change (serializeState c !! "heading") with (Some (JNum (heading (state c)))).
  change (serializeState c !! "angularVelocity")
    with (Some (JNum (angularVelocity (state c)))).
  change (serializeState c !! "steerAngle") with (Some (JNum (steerAngle (state c)))).
  change (serializeState c !! "gearIndex") with (Some (JNum (IZR (gearIndex (state c))))).
  change (serializeState c !! "engineRpm") with (Some (JNum (engineRpm (state c)))).
  change (serializeState c !! "throttle") with (Some (JNum (throttle (state c)))).
  change (serializeState c !! "brake") with (Some (JNum (brake (state c)))).
  change (serializeState c !! "lastLongitudinalAccel")
    with (Some (JNum (lastLongitudinalAccel (state c)))).
  change (serializeState c !! "lastLateralAccel")
    with (Some (JNum (lastLateralAccel (state c)))).
  change (serializeState c !! "reverseMode") with (Some (JBool (reverseMode (state c)))).
  change (serializeState c !! "manualMode") with (Some (JBool (manualMode (state c)))).
  cbn [truthy vectorObject finite JS.coalesce].
  change (member (vectorObject (getWorldPosition c)) "x")
    with (Some (JNum (Vector.x_ (getWorldPosition c)))).
  change (member (vectorObject (getWorldPosition c)) "y")
    with (Some (JNum (Vector.y_ (getWorldPosition c)))).
  change (member (vectorObject (velocity (state c))) "x")
    with (Some (JNum (Vector.x_ (velocity (state c))))).
  change (member (vectorObject (velocity (state c))) "y")
    with (Some (JNum (Vector.y_ (velocity (state c))))).
  cbn [finite JS.coalesce].
  rewrite trunc_IZR, !clamp_inside by assumption.
  unfold getWorldPosition. cbn [Vector.x_ Vector.y_].
  replace (Vector.x_ (position (state c)) * pixelsPerMeter (params c)
           / pixelsPerMeter (params c))
    with (Vector.x_ (position (state c))) by (field; exact Hppm).
  replace (Vector.y_ (position (state c)) * pixelsPerMeter (params c)
           / pixelsPerMeter (params c))
    with (Vector.y_ (position (state c))) by (field; exact Hppm).
  f_equal. unfold graft, setLimiter, setTires, isTrue.
  destruct (state c) as [[px py] [vx vy] h w sa t g rpm th br la lt rev man lim].
  cbn. destruct rev, man; reflexivity.
Qed.

(** X8.  A state written by [serializeState] is read back by
    [restoreState] exactly, on the car itself or on any car with the same
    parameters (whose tires and limiter flag are kept), provided the scale
    is not zero, the engine speed lies between idle and 105% of the limiter
    and the pedals lie in their ranges. *)
Theorem restore_serialized (c c' : Car) :
  params c' = params c ->
  pixelsPerMeter (params c) <> 0 ->
  idleRpm (params c) <= engineRpm (state c) <= limiterRpm (params c) * 1.05 ->
  -1 <= throttle (state c) <= 1 ->
  0 <= brake (state c) <= 1 ->
  restoreState c' (JObj (serializeState c)) = mkCar (params c) (graft (state c) (state c'))
  /\ restoreState c (JObj (serializeState c)) = c.
Proof.
  intros Hp Hppm Hrpm Hthr Hbr. cbn [restoreState]. split.
  - apply restoreFields_serialized; assumption.
  - rewrite restoreFields_serialized by (reflexivity || assumption).
    rewrite graft_same. destruct c; reflexivity.
Qed.

Lemma restore_serialized_witness :
  restoreState (carAtRest 0) (JObj (serializeState (carAtRest 0))) = carAtRest 0.
Proof.
  apply (restore_serialized (carAtRest 0) (carAtRest 0)).
  - reflexivity.
  - cbn. lra.
  - cbn. lra.
  - cbn. lra.
  - cbn. lra.
Defined.

(** X9.  Whatever object [restoreState] is given, the restored engine
    speed is at least idle (and at most 105% of the limiter when that is
    not below idle), the throttle lies in [-1, 1] and the brake in [0, 1];
    a member that is absent resets the pedals to 0, the engine to idle and
    the two mode flags to false, while [null] and values that are not
    objects leave the car untouched. *)
Theorem restoreState_sanitises (c : Car) (fields : JsObject) :
  let c' := restoreState c (JObj fields) in
  params c' = params c
  /\ idleRpm (params c) <= engineRpm (state c')
  /\ (idleRpm (params c) <= limiterRpm (params c) * 1.05 ->
      engineRpm (state c') <= limiterRpm (params c) * 1.05)
  /\ -1 <= throttle (state c') <= 1
  /\ 0 <= brake (state c') <= 1
  /\ (fields = ∅ ->
      engineRpm (state c') = idleRpm (params c)
      /\ throttle (state c') = 0 /\ brake (state c') = 0
      /\ reverseMode (state c') = false /\ manualMode (state c') = false
      /\ position (state c') = position (state c)
      /\ velocity (state c') = velocity (state c)
      /\ gearIndex (state c') = gearIndex (state c))
  /\ restoreState c JNull = c
  /\ (forall r, restoreState c (JNum r) = c)
  /\ (forall s, restoreState c (JStr s) = c).
Proof.
  intros c'. subst c'. cbn [restoreState]. unfold restoreFields.
  cbn [params state engineRpm throttle brake reverseMode manualMode position velocity
       gearIndex].
  split; [reflexivity|].
  split.
  { destruct (finite (fields !! "engineRpm")); [|lra]. unfold JS.clamp. apply Rmax_l. }
  split.
  { intros H. destruct (finite (fields !! "engineRpm")); [|exact H].
    apply clamp_bounds. exact H. }
  split.
  { destruct (finite (fields !! "throttle")); [apply clamp_bounds|]; lra. }
  split.
  { destruct (finite (fields !! "brake")); [apply clamp_bounds|]; lra. }
  split.
  { intros ->. rewrite !lookup_empty. cbn. repeat split; reflexivity. }
  repeat split; reflexivity.
Qed.

(** ** What a tick keeps in range *)

Lemma updatePowertrain_throttle_range (p : CarParams) (s : VehicleState) (ti vLong dt : R) :
  -1 <= throttle (updatePowertrain p s ti vLong dt) <= 1.
Proof.
  unfold updatePowertrain. cbn [throttle].
  set (t1 := JS.clamp (throttle s + (JS.clamp ti (-1) 1 - throttle s)
                                    * JS.clamp (dt * 4) 0 1) (-1) 1).
  assert (H1 : -1 <= t1 <= 1) by (apply clamp_bounds; lra).
  assert (H2 : -1 <= JS.clamp t1 0 1 <= 1).
  { pose proof (clamp_bounds t1 0 1 ltac:(lra)). lra. }
  assert (Hlim : forall t, -1 <= t <= 1 ->
                 -1 <= (if t >=? 0 then 1 else -1) * Rabs t * 0.6 <= 1).
  { intros t Ht. destruct (t >=? 0); unfold Rabs; destruct (Rcase_abs t); lra. }
  cbv zeta. repeat break_if; cbn [fst snd]; auto;
    unfold Rabs;
    repeat match goal with |- context [Rcase_abs ?x] => destruct (Rcase_abs x) end; lra.
Qed.

Lemma updatePowertrain_rpm_range (p : CarParams) (s : VehicleState) (ti vLong dt : R) :
  engineRpm (updatePowertrain p s ti vLong dt) <= limiterRpm p
  /\ (idleRpm p <= limiterRpm p -> idleRpm p <= engineRpm (updatePowertrain p s ti vLong dt)).
Proof.
  unfold updatePowertrain. cbn [engineRpm].
  match goal with
  | |- context [if ?rpm1 >? limiterRpm p then _ else _] =>
      set (rpm := rpm1);
      assert (Hidle : idleRpm p <= rpm)
  end.
  { subst rpm.
    match goal with |- _ <= (if ?b then _ else _) => destruct b end;
      [apply Rmax_l|apply Rmax_r]. }
  destruct (rpm >? limiterRpm p) eqn:E; cbn [fst snd].
  - split; [lra|auto].
  - apply gtb_false in E. split; [exact E|intros _; exact Hidle].
Qed.

Lemma update_engineRpm (c : Car) (ti bi si dt : R) :
  engineRpm (state (update c ti bi si dt))
  = engineRpm (updatePowertrain (params c) (state c) ti
                 (Vector.dot (velocity (state c)) (forwardVector (state c))) dt).
Proof. reflexivity. Qed.

Lemma update_throttle_powertrain (c : Car) (ti bi si dt : R) :
  throttle (state (update c ti bi si dt))
  = throttle (updatePowertrain (params c) (state c) ti
                (Vector.dot (velocity (state c)) (forwardVector (state c))) dt).
Proof. reflexivity. Qed.

(** X10.  After every tick, whatever the inputs and the state before, the
    smoothed throttle lies in [-1, 1], the smoothed brake in [0, 1] and the
    engine speed does not exceed the rev limiter; it is at least idle when
    the limiter is. *)
Theorem update_keeps_ranges (c : Car) (throttleInput brakeInput steerInput dt : R) :
  let c' := update c throttleInput brakeInput steerInput dt in
  -1 <= throttle (state c') <= 1
  /\ 0 <= brake (state c') <= 1
  /\ engineRpm (state c') <= limiterRpm (params c)
  /\ (idleRpm (params c) <= limiterRpm (params c) ->
      idleRpm (params c) <= engineRpm (state c')).
Proof.
  intros c'. subst c'.
  rewrite update_throttle_powertrain, update_brake, update_engineRpm.
  split; [apply updatePowertrain_throttle_range|].
  split; [apply clamp_bounds; lra|].
  apply updatePowertrain_rpm_range.
Qed.

(** X11.  A state saved after a tick is restored exactly: for a car with a
    non-zero scale whose limiter is not negative and not below idle,
    [restoreState] of [serializeState] of the car that [update] returns is
    that car. *)
Theorem restore_after_update (c : Car) (throttleInput brakeInput steerInput dt : R) :
  pixelsPerMeter (params c) <> 0 ->
  0 <= limiterRpm (params c) ->
  idleRpm (params c) <= limiterRpm (params c) ->
  let c' := update c throttleInput brakeInput steerInput dt in
  restoreState c' (JObj (serializeState c')) = c'.
Proof.
  intros Hppm Hlim Hidle c'. subst c'.
  set (c' := update c throttleInput brakeInput steerInput dt).
  cbn [restoreState].
  assert (Hp : params c' = params c) by reflexivity.
  pose proof (updatePowertrain_rpm_range (params c) (state c) throttleInput
                (Vector.dot (velocity (state c)) (forwardVector (state c))) dt)
    as [Hhi Hlo].
  rewrite restoreFields_serialized.
  - rewrite graft_same. destruct c'; reflexivity.
  - reflexivity.
  - rewrite Hp. exact Hppm.
  - rewrite Hp. unfold c'. rewrite update_engineRpm. split; [auto|lra].
  - unfold c'. rewrite update_throttle_powertrain. apply updatePowertrain_throttle_range.
  - unfold c'. rewrite update_brake. apply clamp_bounds; lra.
Qed.

Lemma restore_after_update_witness :
  restoreState (update (carAtRest 0) 1 0 0 (1 / 60))
               (JObj (serializeState (update (carAtRest 0) 1 0 0 (1 / 60))))
  = update (carAtRest 0) 1 0 0 (1 / 60).
Proof.
  apply (restore_after_update (carAtRest 0) 1 0 0 (1 / 60)).
  - cbn. lra.
  - cbn. lra.
  - cbn. lra.
Defined.

(** ** Steering *)

Lemma update_steerAngle (c : Car) (ti bi si dt : R) :
  steerAngle (state (update c ti bi si dt))
  = let speed := Vector.length (velocity (state c)) in
    let reduction := JS.clamp (speed * 2.237 - 25) 0 160 in
    let speedFactor := 1 - JS.clamp (JS.pow reduction 1.2 / 200) 0 0.9 in
    let targetSteer := JS.clamp si (-1) 1 * (PI / 6 * speedFactor) in
    steerAngle (state c) + (targetSteer - steerAngle (state c)) * JS.clamp (dt * 5) 0 1.
Proof. reflexivity. Qed.

Lemma Rabs_bound (a b : R) : Rabs a <= b -> - b <= a <= b.
Proof. unfold Rabs. destruct (Rcase_abs a); lra. Qed.

Lemma update_steer_bounded (c : Car) (ti bi si dt : R) :
  Rabs (steerAngle (state c)) <= PI / 6 ->
  Rabs (steerAngle (state (update c ti bi si dt))) <= PI / 6.
Proof.
  intros H. rewrite update_steerAngle. cbv zeta.
  set (sf := 1 - JS.clamp (JS.pow (JS.clamp (Vector.length (velocity (state c)) * 2.237 - 25)
                                           0 160) 1.2 / 200) 0 0.9).
  assert (Hsf : 0.1 <= sf <= 1).
  { subst sf.
    match goal with |- _ <= 1 - JS.clamp ?v 0 0.9 <= _ =>
      pose proof (clamp_bounds v 0 0.9 ltac:(lra)) end. lra. }
  pose proof (clamp_bounds si (-1) 1 ltac:(lra)) as Hu.
  pose proof (clamp_bounds (dt * 5) 0 1 ltac:(lra)) as Hk.
  set (u := JS.clamp si (-1) 1) in *. set (k := JS.clamp (dt * 5) 0 1) in *.
  set (s := steerAngle (state c)) in *.
  pose proof PI_gt_3 as Hpi. set (A := PI / 6) in *.
  assert (HA : 0 < A) by (subst A; lra).
  apply Rabs_bound in H. apply Rabs_le.
  assert (Hm : 0 <= A * sf <= A) by (split; nra).
  set (m := A * sf) in *.
  assert (HT : - A <= u * m <= A).
  { assert (0 <= (1 - u) * m) by (apply Rmult_le_pos; lra).
    assert (0 <= (1 + u) * m) by (apply Rmult_le_pos; lra).
    split; lra. }
  set (T := u * m) in *.
  assert (0 <= (A - s) * (1 - k)) by (apply Rmult_le_pos; lra).
  assert (0 <= (A - T) * k) by (apply Rmult_le_pos; lra).
  assert (0 <= (A + s) * (1 - k)) by (apply Rmult_le_pos; lra).
  assert (0 <= (A + T) * k) by (apply Rmult_le_pos; lra).
  split; lra.
Qed.

(** X12.  The steering angle never leaves [-pi/6, pi/6]: a car whose
    steering angle is within 30 degrees, as every new car is, keeps it
    within 30 degrees under any sequence of ticks, shifts and mode
    switches, whatever the steering input and the time step. *)
Theorem steer_angle_bounded (c : Car) (actions : list Action) :
  Rabs (steerAngle (state c)) <= PI / 6 ->
  Rabs (steerAngle (state (drive c actions))) <= PI / 6.
Proof.
  revert c. induction actions as [|a rest IH]; intros c H; [exact H|].
  cbn [drive fold_left]. fold (drive (act c a) rest). apply IH.
  destruct a as [| |enabled|i]; cbn [act].
  - unfold shiftUp. repeat break_if; exact H.
  - unfold shiftDown. repeat break_if; exact H.
  - unfold setManualMode. destruct enabled; exact H.
  - apply update_steer_bounded, H.
Qed.

Lemma steer_angle_bounded_witness :
  Rabs (steerAngle (state (drive (carAtRest 0) [Tick (mkInputs 1 0 5 3); ShiftUp]))) <= PI / 6.
Proof.
  apply steer_angle_bounded. cbn. rewrite Rabs_R0. pose proof PI_gt_3. lra.
Defined.

(** ** Normal loads *)

Lemma update_normalLoad (c : Car) (ti bi si dt : R) (i : wheel) :
  normalLoad (Wheel.get (tires (state (update c ti bi si dt))) i)
  = Wheel.get (ts_tireNormals (tireSetup c ti bi si dt)) i.
Proof. rewrite update_tire. apply saturate_normalLoad. Qed.

Lemma tireNormals_formula (c : Car) (ti bi si dt : R) :
  ts_tireNormals (tireSetup c ti bi si dt)
  = let cfg := config (params c) in
    let speed := Vector.length (velocity (state c)) in
    let downforce := (computeAeroForces (params c) speed false).2 in
    let weight := massKg cfg * G in
    let frontStatic := weight * frontWeightDistribution cfg in
    let rearStatic := weight - frontStatic in
    let downforceFront := downforce * frontWeightDistribution cfg in
    let downforceRear := downforce - downforceFront in
    let longitudinalTransfer :=
      (massKg cfg * lastLongitudinalAccel (state c) * cgHeightM cfg)
      / Rmax 0.1 (wheelbaseM cfg) in
    let frontAxleLoad := frontStatic + downforceFront - longitudinalTransfer in
    let rearAxleLoad := rearStatic + downforceRear + longitudinalTransfer in
    let lateralBias :=
      JS.clamp ((lastLateralAccel (state c) * cgHeightM cfg)
                / (G * Rmax 0.1 (trackWidthM cfg))) (-0.45) 0.45 in
    mkWheels (Rmax 0 (frontAxleLoad * 0.5 * (1 + lateralBias)))
             (Rmax 0 (frontAxleLoad * 0.5 * (1 - lateralBias)))
             (Rmax 0 (rearAxleLoad * 0.5 * (1 + lateralBias)))
             (Rmax 0 (rearAxleLoad * 0.5 * (1 - lateralBias))).
Proof. reflexivity. Qed.

Lemma split_load (F b : R) :
  -0.45 <= b <= 0.45 ->
  0 <= Rmax 0 (F * 0.5 * (1 + b)) /\ 0 <= Rmax 0 (F * 0.5 * (1 - b))
  /\ F <= Rmax 0 (F * 0.5 * (1 + b)) + Rmax 0 (F * 0.5 * (1 - b))
  /\ (0 < Rmax 0 (F * 0.5 * (1 + b)) ->
      Rmax 0 (F * 0.5 * (1 + b)) + Rmax 0 (F * 0.5 * (1 - b)) = F).
Proof.
  intros Hb. unfold Rmax.
  destruct (Rle_dec 0 (F * 0.5 * (1 + b))); destruct (Rle_dec 0 (F * 0.5 * (1 - b)));
    repeat split; intros; try lra; try nra.
Qed.

(** X13.  After every tick the four tires carry at least the weight of the
    car plus the aerodynamic downforce at the speed of entry: no normal
    load is negative, their sum is at least [m g + downforce], and it is
    exactly that whenever all four loads are positive, however the load
    transfer distributes them. *)
Theorem normal_loads_carry_the_car (c : Car) (throttleInput brakeInput steerInput dt : R) :
  let c' := update c throttleInput brakeInput steerInput dt in
  let load (i : wheel) := normalLoad (Wheel.get (tires (state c')) i) in
  let downforce := (computeAeroForces (params c) (getSpeedMetersPerSecond c) false).2 in
  let carried := massKg (config (params c)) * G + downforce in
  (forall i, 0 <= load i)
  /\ carried <= load W_FL + load W_FR + load W_RL + load W_RR
  /\ ((forall i, 0 < load i) -> load W_FL + load W_FR + load W_RL + load W_RR = carried).
Proof.
  intros c' load downforce carried. subst c' load carried downforce.
  cbv beta. unfold getSpeedMetersPerSecond.
  assert (Hload : forall i,
    normalLoad (Wheel.get (tires (state (update c throttleInput brakeInput steerInput dt))) i)
    = Wheel.get (ts_tireNormals (tireSetup c throttleInput brakeInput steerInput dt)) i)
    by (intros i; apply update_normalLoad).
  rewrite !Hload.
  assert (Hall : (forall i, 0 < normalLoad (Wheel.get (tires (state
                     (update c throttleInput brakeInput steerInput dt))) i))
                 <-> (forall i, 0 < Wheel.get (ts_tireNormals
                     (tireSetup c throttleInput brakeInput steerInput dt)) i)).
  { split; intros H i; [rewrite <- Hload|rewrite Hload]; apply H. }
  rewrite tireNormals_formula in *. cbv zeta in *.
  set (D := (computeAeroForces (params c) (Vector.length (velocity (state c))) false).2) in *.
  set (cfg := config (params c)) in *.
  match goal with
  | |- context [JS.clamp ?v (-0.45) 0.45] =>
      pose proof (clamp_bounds v (-0.45) 0.45 ltac:(lra)) as Hb;
      set (b := JS.clamp v (-0.45) 0.45) in *
  end.
  match goal with
  | |- context [Rmax 0 (?f * 0.5 * (1 + b))] =>
      lazymatch f with
      | context [Rminus] => set (F := f) in *
      end
  end.
  match goal with
  | |- context [Rmax 0 (?f * 0.5 * (1 + b))] =>
      lazymatch f with
      | F => fail
      | _ => set (Rr := f) in *
      end
  end.
  assert (Hsum : F + Rr = massKg cfg * G + D) by (subst F Rr; ring).
  pose proof (split_load F b Hb) as (HF1 & HF2 & HF3 & HF4).
  pose proof (split_load Rr b Hb) as (HR1 & HR2 & HR3 & HR4).
  cbn [Wheel.get FL FR RL RR].
  split; [intros i; rewrite Hload; destruct i; cbn [Wheel.get FL FR RL RR]; assumption|].
  split; [lra|].
  intros Hpos. pose proof (proj1 Hall Hpos) as Hpos'. clear Hpos. rename Hpos' into Hpos.
  pose proof (Hpos W_FL) as P1. pose proof (Hpos W_RL) as P2.
  cbn [Wheel.get FL FR RL RR] in P1, P2.
  specialize (HF4 P1). specialize (HR4 P2). lra.
Qed.

(** ** Reverse *)

(** X14.  The automatic gearbox changes direction only near standstill:
    when the longitudinal speed at entry is 0.6 m/s or more in magnitude,
    a tick of a car in automatic mode leaves [reverseMode] as it was,
    whatever the throttle. *)
Theorem reverse_only_near_standstill (c : Car) (throttleInput brakeInput steerInput dt : R) :
  manualMode (state c) = false ->
  0.6 <= Rabs (getLongitudinalSpeed c) ->
  reverseMode (state (update c throttleInput brakeInput steerInput dt))
  = reverseMode (state c).
Proof.
  intros Hm Hv. rewrite update_reverseMode. unfold getLongitudinalSpeed in Hv.
  unfold updatePowertrain. cbn [reverseMode]. rewrite Hm.
  apply ltb_false in Hv. rewrite Hv. rewrite !andb_false_r.
  destruct (reverseMode (state c)); reflexivity.
Qed.

Lemma reverse_only_near_standstill_witness :
  reverseMode (state (update (withVelocity (carAtRest 0) (Vector.mk 1 0)) (-1) 0 0 (1 / 60)))
  = false.
Proof.
  apply (reverse_only_near_standstill (withVelocity (carAtRest 0) (Vector.mk 1 0))
           (-1) 0 0 (1 / 60)).
  - reflexivity.
  - unfold getLongitudinalSpeed, Vector.dot, forwardVector.
    cbn [withVelocity carAtRest newCar state velocity heading constructorState
         JS.coalesce opt_heading Vector.x_ Vector.y_].
    rewrite cos_0, sin_0. unfold Rabs. destruct (Rcase_abs (1 * 1 + 0 * 0)); lra.
Defined.

(** ** The torque curve as a whole *)

Lemma clamp_low (v lo hi : R) : lo <= JS.clamp v lo hi.
Proof. unfold JS.clamp. apply Rmax_l. Qed.

Lemma clamp_idle (rpm idle top : R) : rpm <= idle -> JS.clamp rpm idle top = idle.
Proof. intros H. unfold JS.clamp, Rmax, Rmin. rsplit; lra. Qed.

(** X15.  For a non-negative peak torque and whatever the idle, peak and
    limiter speeds are, [torqueAtRpm] stays between 5% and 100% of the peak
    torque at every engine speed; at and below idle it returns the torque
    at idle. *)
Theorem torque_within_peak (p : CarParams) (rpm : R) :
  0 <= peakTorqueNm (config p) ->
  0.05 * peakTorqueNm (config p) <= torqueAtRpm p rpm <= peakTorqueNm (config p)
  /\ (rpm <= idleRpm p -> torqueAtRpm p rpm = torqueAtRpm p (idleRpm p)).
Proof.
  intros Hpk. split.
  - unfold torqueAtRpm.
    set (eff := JS.clamp rpm (idleRpm p) (limiterRpm p + 600)).
    set (pk := peakTorqueNm (config p)) in *.
    destruct (eff <=? peakRpm p).
    + set (ratio := JS.clamp ((eff - idleRpm p) / Rmax 1 (peakRpm p - idleRpm p)) 0 1).
      assert (Hr : 0 <= ratio <= 1) by (apply clamp_bounds; lra).
      pose proof (pow_unit ratio 1.25 Hr ltac:(lra)) as Hs.
      rewrite clamp_inside by lra. split; nra.
    + destruct (eff <=? limiterRpm p).
      * pose proof (clamp_bounds ((horsepower (config p) * 5252) / Rmax eff 1)
                      (pk * 0.45) pk ltac:(lra)).
        lra.
      * set (o := JS.clamp ((eff - limiterRpm p) / 600) 0 1).
        pose proof (clamp_bounds (0.12 * (1 - o)) 0.05 0.12 ltac:(lra)) as Hf.
        split; nra.
  - intros Hlow. unfold torqueAtRpm.
    rewrite (clamp_idle rpm) by exact Hlow.
    rewrite (clamp_idle (idleRpm p)) by lra. reflexivity.
Qed.

Lemma torque_within_peak_witness :
  0.05 * 530 <= torqueAtRpm (params (carAtRest 0)) 12000 <= 530.
Proof.
  assert (H : 0 <= peakTorqueNm (config (params (carAtRest 0)))) by (cbn; lra).
  exact (proj1 (torque_within_peak (params (carAtRest 0)) 12000 H)).
Defined.

(** ** The shift points the constructor computes *)

(** X16.  For every configuration the constructor leaves a band between the
    shift points: [downshiftRpm] is strictly below [upshiftRpm], the peak
    speed is at least 2500 rpm, above idle, the drive split adds up to 1 and
    [lf + lr] is the wheelbase; with a positive rev limiter [upshiftRpm] is
    at most 97% and [redlineRpm] at most 99.5% of it. *)
Theorem constructor_shift_band (cfg : CarConfigInput) (options : CarOptions) :
  let p := params (newCar cfg options) in
  downshiftRpm p < upshiftRpm p
  /\ idleRpm p < 2500 <= peakRpm p
  /\ driveSplitFront p + driveSplitRear p = 1
  /\ lf p + lr p = wheelbaseM (config p)
  /\ (0 < limiterRpm p ->
      upshiftRpm p <= limiterRpm p * 0.97 /\ redlineRpm p <= limiterRpm p * 0.995).
Proof.
  intros p. subst p. unfold newCar. cbn [params]. unfold constructorParams.
  cbn [downshiftRpm upshiftRpm redlineRpm idleRpm peakRpm driveSplitFront driveSplitRear
       lf lr limiterRpm config].
  set (m := mergeConfig cfg).
  set (peak := Rmax 2500 (horsepower m * 745.7 / (peakTorqueNm m + 1e-6) * (60 / (2 * PI)))).
  assert (Hpeak : 2500 <= peak) by apply Rmax_l.
  set (lim := JS.coalesce (revLimiterRpm m) 7000).
  split; [|split; [|split; [|split]]].
  - destruct (lim >? 0) eqn:E; cbn [fst snd].
    + apply gtb_true in E.
      set (up := Rmin (peak * 1.15 * 0.95) (lim * 0.97)).
      assert (Hup : 0 < up).
      { subst up. unfold Rmin. destruct (Rle_dec (peak * 1.15 * 0.95) (lim * 0.97)); lra. }
      destruct (peak * 0.6 >=? up) eqn:E2.
      * lra.
      * apply geb_false in E2. exact E2.
    + lra.
  - lra.
  - repeat break_if; cbn [fst snd]; lra.
  - ring.
  - intros Hlim. apply gtb_true in Hlim. rewrite Hlim. cbn [fst snd].
    split; apply Rmin_r.
Qed.

(** * Further properties of main.js *)

Import Calibration.
Import Catalog.

(** ** Wrapping *)

Lemma rem_small (a b : R) : 0 <= a < b -> JS.rem a b = a.
Proof.
  intros [H0 Hb]. unfold JS.rem, JS.trunc.
  assert (Hq : 0 <= a / b < 1).
  { split.
    - apply Rmult_le_pos; [lra|]. left. apply Rinv_0_lt_compat. lra.
    - apply Rmult_lt_reg_r with b; [lra|]. unfold Rdiv. rewrite Rmult_assoc, Rinv_l by lra.
      lra. }
  destruct (0 <=? a / b) eqn:E; [|apply leb_false in E; lra].
  rewrite (Zfloor_eq 0 (a / b)) by (simpl; lra). simpl. lra.
Qed.

Lemma rem_shift (a b : R) : 0 <= a < b -> JS.rem (a + b) b = a.
Proof.
  intros [H0 Hb]. unfold JS.rem, JS.trunc.
  assert (Hq : 1 <= (a + b) / b < 2).
  { replace ((a + b) / b) with (a / b + 1) by (field; lra).
    assert (0 <= a / b < 1); [|lra]. split.
    - apply Rmult_le_pos; [lra|]. left. apply Rinv_0_lt_compat. lra.
    - apply Rmult_lt_reg_r with b; [lra|]. unfold Rdiv. rewrite Rmult_assoc, Rinv_l by lra.
      lra. }
  destruct (0 <=? (a + b) / b) eqn:E; [|apply leb_false in E; lra].
  rewrite (Zfloor_eq 1 ((a + b) / b)) by (simpl; lra). simpl. lra.
Qed.

(** X17.  For a positive modulus [mod] returns the representative of its
    argument in [0, modulo): the result lies in that interval, differs from
    the argument by an integer multiple of the modulus, and is the argument
    itself when that lies in the interval already; negative arguments are
    wrapped upwards, unlike with the remainder operator alone. *)
Theorem mod_wraps (value modulo : R) :
  0 < modulo ->
  0 <= mod_ value modulo < modulo
  /\ (exists k : Z, mod_ value modulo = value - IZR k * modulo)
  /\ (0 <= value < modulo -> mod_ value modulo = value)
  /\ (- modulo <= value < 0 -> mod_ value modulo = value + modulo).
Proof.
  intros Hm. unfold mod_.
  assert (Hr : - modulo < JS.rem value modulo < modulo).
  { destruct (Rlt_dec value 0) as [Hneg|Hpos].
    - pose proof (rem_neg value modulo Hneg Hm). lra.
    - pose proof (rem_nonneg value modulo ltac:(lra) Hm). lra. }
  split; [apply rem_nonneg; lra|]. split; [|split].
  - set (k2 := JS.trunc ((JS.rem value modulo + modulo) / modulo)).
    exists (JS.trunc (value / modulo) + k2 - 1)%Z.
    rewrite minus_IZR, plus_IZR.
    unfold JS.rem at 1. fold k2. unfold JS.rem. lra.
  - intros Hv. rewrite (rem_small value) by exact Hv. apply rem_shift. exact Hv.
  - intros Hv. destruct (Req_dec value (- modulo)) as [->|Hne].
    + replace (JS.rem (- modulo) modulo) with (- modulo + modulo).
      * replace (- modulo + modulo + modulo) with modulo by ring.
        rewrite rem_self by exact Hm. ring.
      * unfold JS.rem, JS.trunc.
        replace (- modulo / modulo) with (-1) by (field; lra).
        destruct (0 <=? -1) eqn:E; [apply leb_true in E; lra|].
        replace (- -1) with 1 by ring. rewrite (Zfloor_eq 1 1) by (simpl; lra).
        change (- (1))%Z with (-1)%Z. lra.
    + rewrite (rem_small_neg value) by lra. apply rem_small. lra.
Qed.

Lemma mod_wraps_witness : mod_ (-1) 96 = 95.
Proof.
  assert (H : 0 < 96) by lra.
  destruct (mod_wraps (-1) 96 H) as (_ & _ & _ & Hneg).
  rewrite Hneg by lra. lra.
Defined.

(** ** Gear ratios and brake torque *)

(** X18.  [ensureGearRatios] always returns a non-empty list whose first
    entry is the neutral 0; it is idempotent; it prepends the neutral to a
    list that starts with a drive ratio and falls back to the default list
    for a missing or empty one, so the result has at least two entries
    unless the list given was [[0]]. *)
Theorem ensureGearRatios_neutral_first (ratios : option (list R)) :
  (exists first rest, ensureGearRatios ratios = first :: rest /\ first = 0)
  /\ ensureGearRatios (Some (ensureGearRatios ratios)) = ensureGearRatios ratios
  /\ (forall first rest, ratios = Some (first :: rest) -> first <> 0 ->
      ensureGearRatios ratios = 0 :: first :: rest)
  /\ ((2 <= List.length (ensureGearRatios ratios))%nat
      \/ exists zero, ratios = Some [zero] /\ zero = 0).
Proof.
  unfold ensureGearRatios.
  destruct ratios as [[|first rest]|]; cbn [gearRatios defaultCarConfig].
  - split; [eexists _, _; split; [reflexivity|lra]|].
    split; [destruct (Req_dec_T 0.0 0); [reflexivity|lra]|].
    split; [intros ? ? [=]|]. left. cbn. lia.
  - destruct (Req_dec_T first 0) as [E|E].
    + split; [eexists _, _; split; [reflexivity|exact E]|].
      split; [destruct (Req_dec_T first 0); [reflexivity|contradiction]|].
      split; [intros ? ? [= <- <-] Hne; contradiction|].
      destruct rest; [right; eexists; split; [reflexivity|exact E]|left; cbn; lia].
    + split; [eexists _, _; split; reflexivity|].
      split; [destruct (Req_dec_T 0 0); [reflexivity|lra]|].
      split; [intros ? ? [= <- <-] _; reflexivity|]. left. cbn. lia.
  - split; [eexists _, _; split; [reflexivity|lra]|].
    split; [destruct (Req_dec_T 0.0 0); [reflexivity|lra]|].
    split; [intros ? ? [=]|]. left. cbn. lia.
Qed.

(** X19.  [computeFallbackBrakeTorque] splits the brake torque of
    [brakeHp * 745.7 / 30] newtons at the wheel radius between the axles by
    the brake bias, equally between the two wheels of an axle; for a
    configuration that names its brake horsepower it is the very fallback
    that the [Car] constructor computes when the configuration has fewer
    than four brake torques. *)
Theorem fallback_brake_torque (config : CarConfigInput) (options : CarOptions) :
  let torque := computeFallbackBrakeTorque config in
  let wheelRadius := JS.coalesce (in_wheelRadiusM config) 0.32 in
  let brakeHp :=
    JS.coalesce (in_brakeHorsepower config)
                (JS.coalesce (in_horsepower config) 420 * 0.82) in
  let bias := JS.coalesce (in_brakeBiasFront config) 0.6 in
  FL torque = FR torque /\ RL torque = RR torque
  /\ FL torque + FR torque + RL torque + RR torque = brakeHp * 745.7 / 30 * wheelRadius
  /\ FL torque + FR torque = bias * (brakeHp * 745.7 / 30 * wheelRadius)
  /\ (forall (hp : R) (short : list R),
        in_brakeHorsepower config = Some hp ->
        in_brakeTorquePerWheelNm config = Some short ->
        (List.length short < 4)%nat ->
        carBrakeTorquePerWheelNm (params (newCar config options)) = torque).
Proof.
  intros torque wheelRadius brakeHp bias. subst torque wheelRadius brakeHp bias.
  unfold computeFallbackBrakeTorque, computeBrakeHorsepower.
  cbn [FL FR RL RR wheelRadiusM horsepower defaultCarConfig].
  split; [reflexivity|]. split; [reflexivity|].
  set (total := JS.coalesce (in_brakeHorsepower config)
                  (JS.coalesce (in_horsepower config) 420 * 0.82) * 745.7 / 30).
  set (radius := JS.coalesce (in_wheelRadiusM config) 0.32).
  set (bias := JS.coalesce (in_brakeBiasFront config) 0.6).
  split; [field|]. split; [field|].
  subst total radius bias.
  intros hp short Hhp Hshort Hlen.
  unfold newCar. cbn [params]. unfold constructorParams. cbn [carBrakeTorquePerWheelNm].
  unfold mergeConfig.
  cbn [brakeTorquePerWheelNm wheelRadiusM brakeHorsepower brakeBiasFront].
  rewrite Hhp, Hshort. cbn [JS.coalesce].
  destruct short as [|a [|b [|d [|e rest]]]]; cbn in Hlen; try lia; reflexivity.
Qed.

(** ** Grip arrays *)

Section GripArrays.

Variable parseNumber : string -> option R.
Variable trim : string -> string.

Lemma orNull_nonempty (values result : list R) :
  orNull values = Some result -> result = values /\ values <> [].
Proof. destruct values; cbn; intros [=]; subst; split; [reflexivity|discriminate]. Qed.

Lemma normalizeGripInput_nonempty (input : JsVal) (result : list R) :
  normalizeGripInput parseNumber trim input = Some result -> result <> [].
Proof.
  destruct input; cbn [normalizeGripInput]; intros H;
    try discriminate;
    try (apply orNull_nonempty in H; destruct H as [-> H]; exact H);
    try (destruct (toNumber parseNumber _); [injection H as <-; discriminate|discriminate]).
Qed.

Lemma cycleFour_length (values : list R) : List.length (cycleFour values) = 4%nat.
Proof. reflexivity. Qed.

Lemma cycleFour_members (values : list R) (value : R) :
  values <> [] -> In value (cycleFour values) -> In value values.
Proof.
  intros Hne Hin. unfold cycleFour in Hin. apply in_map_iff in Hin.
  destruct Hin as (index & <- & _). apply nth_In.
  apply Nat.mod_upper_bound. destruct values; [contradiction|cbn; lia].
Qed.

Lemma firstn_members (n : nat) (values : list R) (value : R) :
  In value (firstn n values) -> In value values.
Proof.
  revert values. induction n as [|n IH]; intros [|head rest]; cbn; intros H;
    try contradiction. destruct H as [->|H]; [left; reflexivity|right; apply IH, H].
Qed.

End GripArrays.

(** X20.  [ensureGripArray] returns either [undefined] or exactly four
    numbers, each one of the finite numbers found in [values] or, when
    [values] has none, in [fallbackArray]; it is [undefined] exactly when
    neither holds a finite number, and [fallbackFactor] never changes the
    result. *)
Theorem ensureGripArray_four
    (parseNumber : string -> option R) (trim : string -> string)
    (values fallbackArray : JsVal) (fallbackFactor : option R) :
  let normalize := normalizeGripInput parseNumber trim in
  let result := ensureGripArray parseNumber trim values fallbackArray fallbackFactor in
  (forall grips, result = Some grips ->
     List.length grips = 4%nat
     /\ forall value, In value grips ->
          match normalize values with
          | Some found => In value found
          | None => exists found, normalize fallbackArray = Some found /\ In value found
          end)
  /\ (result = None <-> normalize values = None /\ normalize fallbackArray = None)
  /\ result = ensureGripArray parseNumber trim values fallbackArray None.
Proof.
  intros normalize result. subst normalize result. unfold ensureGripArray.
  destruct (normalizeGripInput parseNumber trim values) as [found|] eqn:Hv.
  - pose proof (normalizeGripInput_nonempty _ _ _ _ Hv) as Hne.
    cbn [JS.coalesce].
    destruct (4 <=? List.length found)%nat eqn:E4.
    + apply Nat.leb_le in E4. split; [|split; [|reflexivity]].
      * intros grips [= <-]. split.
        -- rewrite length_firstn. lia.
        -- intros value. apply firstn_members.
      * split; [discriminate|intros [? _]; discriminate].
    + assert (E0 : (0 <? List.length found)%nat = true).
      { apply Nat.ltb_lt. destruct found; [contradiction|cbn; lia]. }
      rewrite E0. split; [|split; [|reflexivity]].
      * intros grips [= <-]. split; [apply cycleFour_length|].
        intros value. apply cycleFour_members, Hne.
      * split; [discriminate|intros [? _]; discriminate].
  - destruct (normalizeGripInput parseNumber trim fallbackArray) as [found|] eqn:Hf.
    + pose proof (normalizeGripInput_nonempty _ _ _ _ Hf) as Hne.
      cbn [JS.coalesce].
      destruct (4 <=? List.length found)%nat eqn:E4.
      * apply Nat.leb_le in E4. split; [|split; [|reflexivity]].
        -- intros grips [= <-]. split; [rewrite length_firstn; lia|].
           intros value Hin. exists found. split; [reflexivity|].
           eapply firstn_members, Hin.
        -- split; [discriminate|intros [_ ?]; discriminate].
      * assert (E0 : (0 <? List.length found)%nat = true).
        { apply Nat.ltb_lt. destruct found; [contradiction|cbn; lia]. }
        rewrite E0. split; [|split; [|reflexivity]].
        -- intros grips [= <-]. split; [apply cycleFour_length|].
           intros value Hin. exists found. split; [reflexivity|].
           eapply cycleFour_members; eassumption.
        -- split; [discriminate|intros [_ ?]; discriminate].
    + rewrite !andb_false_r.
      assert (Hnone : (match fallbackArray with
                       | JArr [] => None
                       | _ => if JS.opt_gtb fallbackFactor 0 then None else None
                       end : option (list R)) = None).
      { destruct fallbackArray as [| | | | | | |[|? ?]|]; try reflexivity;
          destruct (JS.opt_gtb fallbackFactor 0); reflexivity. }
      rewrite Hnone.
      split; [intros grips [=]|]. split; [split; auto|].
      destruct fallbackArray as [| | | | | | |[|? ?]|]; reflexivity.
Qed.

(** ** The performance flag of a specification *)

(** X21.  On a car that has a specification object, [markSpecVerified]
    writes the flag that [isSpecMarkedVerified] reads back, and
    [applyRecordToSpec] makes the flag equal to the record's [verified],
    reports a change exactly when the flag differed, and reports none when
    applied a second time; both leave the id and every other member of the
    specification alone.  On a car without a specification nothing is
    written and the flag reads false. *)
Theorem spec_flag_round_trip (car : CatalogCar) (record : CalibrationRecord) (flag : bool) :
  (forall spec, specs car = Some spec ->
     isSpecMarkedVerified (markSpecVerified car flag) = flag
     /\ id (markSpecVerified car flag) = id car
     /\ isSpecMarkedVerified (applyRecordToSpec car record).1 = verified record
     /\ (applyRecordToSpec car record).2
        = negb (Bool.eqb (isSpecMarkedVerified car) (verified record))
     /\ (applyRecordToSpec (applyRecordToSpec car record).1 record).2 = false
     /\ (forall key, key <> "performanceVerified"%string ->
           JS.coalesce (specs (markSpecVerified car flag)) ∅ !! key = spec !! key
           /\ JS.coalesce (specs (applyRecordToSpec car record).1) ∅ !! key = spec !! key))
  /\ (specs car = None ->
      markSpecVerified car flag = car
      /\ applyRecordToSpec car record = (car, false)
      /\ isSpecMarkedVerified car = false).
Proof.
  split.
  - intros spec Hspec.
    assert (Hmark : forall b, isSpecMarkedVerified
              (mkCatalogCar (id car) (Some (<[ "performanceVerified"%string := JBool b ]> spec)))
              = b).
    { intros b. unfold isSpecMarkedVerified. cbn [specs].
      rewrite lookup_insert_eq. destruct b; reflexivity. }
    unfold markSpecVerified, applyRecordToSpec. rewrite Hspec.
    split; [apply Hmark|]. split; [reflexivity|].
    destruct (Bool.eqb (isSpecMarkedVerified car) (verified record)) eqn:E; cbn [negb fst snd].
    + apply Bool.eqb_prop in E. split; [exact E|]. split; [reflexivity|].
      rewrite ?Hspec. rewrite ?E, ?Bool.eqb_reflx. cbn [negb snd].
      split; [reflexivity|]. intros key Hkey. cbn [specs JS.coalesce].
      rewrite ?lookup_insert_ne by congruence. rewrite ?Hspec. auto.
    + split; [apply Hmark|]. split; [reflexivity|].
      cbn [specs]. rewrite Hmark, Bool.eqb_reflx. cbn [negb snd].
      split; [reflexivity|]. intros key Hkey. cbn [specs JS.coalesce].
      rewrite !lookup_insert_ne by congruence. auto.
  - intros Hnone. unfold markSpecVerified, applyRecordToSpec, isSpecMarkedVerified.
    rewrite Hnone. auto.
Qed.

Lemma spec_flag_round_trip_witness :
  isSpecMarkedVerified (markSpecVerified plainCar true) = true.
Proof.
  destruct (spec_flag_round_trip plainCar
              (mkRecord 1 true None None None None None 0 None None None) true) as [H _].
  exact (proj1 (H ∅ eq_refl)).
Defined.

(** ** Targets *)

Section Targets.

Variable parseNumber : string -> option R.

Lemma findInContainers_positive (containers : list (option JsObject)) (key : string) (v : R) :
  findInContainers parseNumber containers key = Some v -> 0 < v.
Proof.
  induction containers as [|[container|] rest IH]; cbn [findInContainers]; intros H.
  - discriminate.
  - destruct (container !! key) as [value|]; [|auto].
    destruct (toNumber parseNumber value) as [num|]; [|auto].
    destruct (num >? 0) eqn:E; [|auto].
    injection H as <-. apply gtb_true in E. exact E.
  - auto.
Qed.

Lemma findNumericKeys_positive (containers : list (option JsObject)) (keys : list string)
    (v : R) :
  findNumericKeys parseNumber containers keys = Some v -> 0 < v.
Proof.
  induction keys as [|key rest IH]; cbn [findNumericKeys]; intros H; [discriminate|].
  destruct (findInContainers parseNumber containers key) as [num|] eqn:E; [|auto].
  injection H as <-. eapply findInContainers_positive, E.
Qed.

Lemma findNumeric_positive (spec : JsObject) (keys : list string) (v : R) :
  findNumeric parseNumber spec keys = Some v -> 0 < v.
Proof. apply findNumericKeys_positive. Qed.

Lemma findNumeric_own_first (spec : JsObject) (key : string) (rest : list string) (v : R) :
  spec !! key = Some (JNum v) -> 0 < v ->
  findNumeric parseNumber spec (key :: rest) = Some v.
Proof.
  intros Hk Hv. unfold findNumeric. cbn [findNumericKeys findInContainers].
  rewrite Hk. cbn [toNumber]. apply gtb_true in Hv. rewrite Hv. reflexivity.
Qed.

End Targets.

(** X22.  Every target that [extractTargets] returns is positive, and a
    result that is not null holds at least one target: values that are not
    positive finite numbers never become targets. *)
Theorem extracted_targets_positive
    (parseNumber : string -> option R) (spec : JsObject) (targets : Targets) :
  extractTargets parseNumber spec = Some targets ->
  (forall v, target_topSpeedKph targets = Some v -> 0 < v)
  /\ (forall v, target_zeroToHundredSec targets = Some v -> 0 < v)
  /\ (target_topSpeedKph targets <> None \/ target_zeroToHundredSec targets <> None).
Proof.
  unfold extractTargets. intros H.
  set (kph := findNumeric parseNumber spec _) in H.
  set (mph := findNumeric parseNumber spec _) in H.
  set (hundred := findNumeric parseNumber spec _) in H.
  set (sixty := findNumeric parseNumber spec _) in H.
  assert (Hkph : forall v, kph = Some v -> 0 < v) by (intros v; apply findNumeric_positive).
  assert (Hmph : forall v, mph = Some v -> 0 < v) by (intros v; apply findNumeric_positive).
  assert (Hhundred : forall v, hundred = Some v -> 0 < v)
    by (intros v; apply findNumeric_positive).
  assert (Hsixty : forall v, sixty = Some v -> 0 < v)
    by (intros v; apply findNumeric_positive).
  clearbody kph mph hundred sixty.
  destruct kph as [a|], mph as [b|], hundred as [c|], sixty as [d|];
    try discriminate; injection H as <-; cbn [target_topSpeedKph target_zeroToHundredSec];
    (split; [intros v [= <-]|split; [intros v [= <-]|]]);
    try (left; discriminate); try (right; discriminate);
    try (apply Hkph; reflexivity); try (apply Hhundred; reflexivity);
    try (pose proof (Hmph _ eq_refl); lra); try (pose proof (Hsixty _ eq_refl); lra).
Qed.

Lemma extracted_targets_positive_witness :
  extractTargets parseNothing (JS.coalesce (specs fastCar) ∅)
  = Some (mkTargets (Some 280) None)
  /\ 0 < 280.
Proof.
  split; [exact fastCar_targets|].
  exact (proj1 (extracted_targets_positive parseNothing _ _ fastCar_targets) 280 eq_refl).
Defined.

(** X23.  A positive number stored under [topSpeedKph] or
    [zeroToHundredSec] on the specification itself is the target, whatever
    else the specification and its [performance], [realWorld] and [stats]
    blocks contain: the first key on the outermost object wins. *)
Theorem targets_on_the_spec_win
    (parseNumber : string -> option R) (spec : JsObject) (v : R) :
  0 < v ->
  (spec !! "topSpeedKph"%string = Some (JNum v) ->
   exists targets, extractTargets parseNumber spec = Some targets
                   /\ target_topSpeedKph targets = Some v)
  /\ (spec !! "zeroToHundredSec"%string = Some (JNum v) ->
      exists targets, extractTargets parseNumber spec = Some targets
                      /\ target_zeroToHundredSec targets = Some v).
Proof.
  intros Hv. split; intros Hk; unfold extractTargets;
    rewrite (findNumeric_own_first parseNumber spec _ _ v Hk Hv).
  - match goal with
    | |- context [match ?z with Some _ => _ | None => _ end] =>
        match type of z with option R => destruct z end
    end; eexists; split; reflexivity.
  - match goal with
    | |- context [match ?z with Some w => Some w | None => _ end] =>
        destruct z as [top|]
    end.
    + eexists; split; reflexivity.
    + match goal with
      | |- context [match ?z with Some mph => _ | None => None end] =>
          destruct z
      end; eexists; split; reflexivity.
Qed.

Lemma targets_on_the_spec_win_witness :
  exists targets, extractTargets parseNothing (JS.coalesce (specs fastCar) ∅) = Some targets
                  /\ target_topSpeedKph targets = Some 280.
Proof.
  assert (Hv : 0 < 280) by lra.
  apply (proj1 (targets_on_the_spec_win parseNothing (JS.coalesce (specs fastCar) ∅) 280 Hv)).
  reflexivity.
Defined.

(** ** Tolerance *)

(** X24.  [isWithinTolerance] is true exactly when the target is not zero
    and the distance from the target is at most the magnitude of the
    tolerance times the magnitude of the target; a missing value or target
    is never within tolerance, and the sign of the tolerance is ignored. *)
Theorem within_tolerance_iff (current target toleranceFraction : R) :
  (isWithinTolerance (Some current) (Some target) toleranceFraction = true
   <-> target <> 0 /\ Rabs (current - target) <= Rabs toleranceFraction * Rabs target)
  /\ isWithinTolerance None (Some target) toleranceFraction = false
  /\ isWithinTolerance (Some current) None toleranceFraction = false
  /\ isWithinTolerance (Some current) (Some target) (- toleranceFraction)
     = isWithinTolerance (Some current) (Some target) toleranceFraction.
Proof.
  unfold isWithinTolerance. split; [|split; [reflexivity|split; [reflexivity|]]].
  - destruct (Req_dec_T target 0) as [E|E].
    + split; [discriminate|intros [H _]; contradiction].
    + assert (Ht : 0 < Rabs target) by (apply Rabs_pos_lt, E).
      rewrite leb_true. split.
      * intros H. split; [exact E|].
        apply Rmult_le_reg_r with (/ Rabs target); [apply Rinv_0_lt_compat, Ht|].
        rewrite Rmult_assoc, Rinv_r by lra. unfold Rdiv in H. lra.
      * intros [_ H]. unfold Rdiv.
        apply Rmult_le_reg_r with (Rabs target); [exact Ht|].
        rewrite Rmult_assoc, Rinv_l by lra. lra.
  - rewrite Rabs_Ropp. reflexivity.
Qed.

(** ** The corrections of a calibration round *)

Lemma pow_positive (base e : R) : 0 < base -> 0 < JS.pow base e.
Proof.
  intros H. unfold JS.pow. apply ltb_true in H. rewrite H. unfold Rpower. apply exp_pos.
Qed.

Lemma pow_ge_1 (base e : R) : 1 <= base -> 0 < e -> 1 <= JS.pow base e.
Proof. intros H He. rewrite <- (pow_one e). apply pow_mono; lra. Qed.

Lemma mix_in_range (current : option R) (desired factor lo hi : R) :
  withinOrAbsent current lo hi -> lo <= desired <= hi ->
  lo <= mix current desired factor <= hi.
Proof.
  intros Hc Hd. unfold mix.
  change (clampToRange factor 0 1) with (JS.clamp factor 0 1).
  pose proof (clamp_bounds factor 0 1 ltac:(lra)) as Ha.
  set (a := JS.clamp factor 0 1) in *.
  destruct current as [c|]; cbn [JS.coalesce withinOrAbsent] in *; split; nra.
Qed.

Lemma mix_toward (current desired factor : R) :
  (current <= desired -> current <= mix (Some current) desired factor)
  /\ (desired <= current -> mix (Some current) desired factor <= current).
Proof.
  unfold mix. cbn [JS.coalesce].
  change (clampToRange factor 0 1) with (JS.clamp factor 0 1).
  pose proof (clamp_bounds factor 0 1 ltac:(lra)) as Ha.
  set (a := JS.clamp factor 0 1) in *. split; intros H; nra.
Qed.

Lemma clamp_keeps_above (v x lo hi : R) :
  lo <= v <= hi -> v <= x -> v <= JS.clamp x lo hi.
Proof. intros Hv Hx. unfold JS.clamp, Rmax, Rmin. rsplit; lra. Qed.

Lemma clamp_keeps_below (v x lo hi : R) :
  lo <= v <= hi -> x <= v -> JS.clamp x lo hi <= v.
Proof. intros Hv Hx. unfold JS.clamp, Rmax, Rmin. rsplit; lra. Qed.

Lemma square_scale (d r : R) :
  0 <= d -> (1 <= r -> d <= d * r * r) /\ (0 <= r <= 1 -> d * r * r <= d).
Proof.
  intros Hd. split; intros Hr.
  - assert (1 <= r * r) by nra.
    assert (d * 1 <= d * (r * r)) by (apply Rmult_le_compat_l; lra). lra.
  - assert (r * r <= 1) by nra. assert (0 <= r * r) by nra.
    assert (d * (r * r) <= d * 1) by (apply Rmult_le_compat_l; lra). lra.
Qed.

Lemma linear_scale (d r k : R) :
  0 <= d -> 0 <= k ->
  (1 <= r -> d <= d * (1 + (r - 1) * k)) /\ (r <= 1 -> d * (1 + (r - 1) * k) <= d).
Proof.
  intros Hd Hk. split; intros Hr.
  - assert (0 <= (r - 1) * k) by (apply Rmult_le_pos; lra).
    assert (d * 1 <= d * (1 + (r - 1) * k)) by (apply Rmult_le_compat_l; lra). lra.
  - assert (0 <= (1 - r) * k) by (apply Rmult_le_pos; lra).
    assert (d * (1 + (r - 1) * k) <= d * 1) by (apply Rmult_le_compat_l; lra). lra.
Qed.

(** X25.  The corrections never take a tunable out of its range: if the
    drag coefficient, the rolling resistance and the drivetrain efficiency
    of a configuration are absent or inside [0.16, 0.9], [0.0045, 0.03] and
    [0.6, 1], they still are after [adjustTopSpeed] and after
    [adjustAcceleration], whatever was measured; and a measurement or a
    target that is missing or not positive leaves the configuration as it
    is. *)
Theorem corrections_stay_in_range (config : CarConfigInput) (measured target : option R) :
  tunablesInRange config ->
  tunablesInRange (adjustTopSpeed config measured target)
  /\ tunablesInRange (adjustAcceleration config measured target)
  /\ (match measured, target with
      | Some m, Some t => m <= 0 \/ t <= 0
      | _, _ => True
      end ->
      adjustTopSpeed config measured target = config
      /\ adjustAcceleration config measured target = config).
Proof.
  intros (Hd & Hr & He).
  assert (Hclamp : forall v lo hi, lo <= hi -> lo <= clampToRange v lo hi <= hi)
    by (intros; apply clamp_bounds; assumption).
  split; [|split].
  - unfold adjustTopSpeed. destruct measured as [m|], target as [t|];
      try (repeat split; assumption).
    destruct ((m <=? 0) || (t <=? 0)); [repeat split; assumption|].
    unfold tunablesInRange.
    cbn [setTunables in_dragCoefficient in_rollingResistanceCoeff in_drivetrainEfficiency
         withinOrAbsent].
    split; [|split]; apply mix_in_range; try assumption; apply Hclamp; lra.
  - unfold adjustAcceleration. destruct measured as [m|], target as [t|];
      try (repeat split; assumption).
    destruct ((m <=? 0) || (t <=? 0)); [repeat split; assumption|].
    unfold tunablesInRange.
    cbn [setTunables in_dragCoefficient in_rollingResistanceCoeff in_drivetrainEfficiency
         withinOrAbsent].
    split; [exact Hd|].
    split; apply mix_in_range; try assumption; apply Hclamp; lra.
  - unfold adjustTopSpeed, adjustAcceleration.
    destruct measured as [m|], target as [t|]; intros H; try (split; reflexivity).
    assert (E : (m <=? 0) || (t <=? 0) = true).
    { apply orb_true_iff. destruct H as [H|H]; [left|right]; apply leb_true, H. }
    rewrite E. split; reflexivity.
Qed.

Lemma corrections_stay_in_range_witness :
  tunablesInRange (adjustTopSpeed emptyConfig (Some 300) (Some 280)).
Proof.
  assert (H : tunablesInRange emptyConfig) by (repeat split).
  exact (proj1 (corrections_stay_in_range emptyConfig (Some 300) (Some 280) H)).
Defined.

(** X26.  The direction of the corrections, for a configuration whose
    three tunables are present and in range.  [adjustTopSpeed] slows a car
    that was measured faster than its target (drag and rolling resistance
    do not decrease, efficiency does not increase) and frees one measured
    slower.  [adjustAcceleration] lowers the efficiency and raises the
    rolling resistance when the measured 0-100 time is longer than the
    target, and does the opposite when it is shorter. *)
Theorem correction_direction (config : CarConfigInput) (drag rolling efficiency m t : R) :
  in_dragCoefficient config = Some drag ->
  in_rollingResistanceCoeff config = Some rolling ->
  in_drivetrainEfficiency config = Some efficiency ->
  0.16 <= drag <= 0.9 -> 0.0045 <= rolling <= 0.03 -> 0.6 <= efficiency <= 1 ->
  0 < m -> 0 < t ->
  let top := adjustTopSpeed config (Some m) (Some t) in
  let accel := adjustAcceleration config (Some m) (Some t) in
  let value (field : option R) := JS.coalesce field 0 in
  (t <= m ->
     drag <= value (in_dragCoefficient top)
     /\ rolling <= value (in_rollingResistanceCoeff top)
     /\ value (in_drivetrainEfficiency top) <= efficiency
     /\ rolling <= value (in_rollingResistanceCoeff accel)
     /\ value (in_drivetrainEfficiency accel) <= efficiency)
  /\ (m <= t ->
        value (in_dragCoefficient top) <= drag
        /\ value (in_rollingResistanceCoeff top) <= rolling
        /\ efficiency <= value (in_drivetrainEfficiency top)
        /\ value (in_rollingResistanceCoeff accel) <= rolling
        /\ efficiency <= value (in_drivetrainEfficiency accel)).
Proof.
  intros Hd Hr He Bd Br Be Hm Ht top accel value. subst top accel value.
  unfold adjustTopSpeed, adjustAcceleration.
  assert (G : (m <=? 0) || (t <=? 0) = false).
  { apply orb_false_iff. split; apply leb_false; lra. }
  rewrite G. cbv zeta.
  cbn [setTunables in_dragCoefficient in_rollingResistanceCoeff in_drivetrainEfficiency].
  rewrite Hd, Hr, He. cbn [JS.coalesce].
  change clampToRange with (fun v lo hi => JS.clamp v lo hi). cbv beta.
  assert (Hq : 0 < m / t) by (apply Rdiv_lt_0_compat; lra).
  split; intros Hmt.
  - assert (Hq1 : 1 <= m / t).
    { apply Rmult_le_reg_r with t; [lra|]. unfold Rdiv.
      rewrite Rmult_assoc, Rinv_l by lra. lra. }
    assert (Ra : 1 <= JS.clamp (m / t) 0.5 1.6).
    { apply clamp_keeps_above; lra. }
    assert (Rb : 1 <= JS.clamp (m / t) 0.25 4).
    { apply clamp_keeps_above; lra. }
    set (ra := JS.clamp (m / t) 0.5 1.6) in *. set (rb := JS.clamp (m / t) 0.25 4) in *.
    pose proof (pow_ge_1 ra 0.35 Ra ltac:(lra)) as Pa.
    pose proof (pow_ge_1 rb 0.92 Rb ltac:(lra)) as Pb.
    assert (Ea : efficiency / JS.pow ra 0.35 <= efficiency).
    { apply Rmult_le_reg_r with (JS.pow ra 0.35); [lra|]. unfold Rdiv.
      rewrite Rmult_assoc, Rinv_l by lra. nra. }
    assert (Eb : efficiency / JS.pow rb 0.92 <= efficiency).
    { apply Rmult_le_reg_r with (JS.pow rb 0.92); [lra|]. unfold Rdiv.
      rewrite Rmult_assoc, Rinv_l by lra. nra. }
    repeat split.
    + apply mix_toward. apply clamp_keeps_above; [lra|]. apply square_scale; lra.
    + apply mix_toward. apply clamp_keeps_above; [lra|]. apply linear_scale; lra.
    + apply mix_toward. apply clamp_keeps_below; [lra|]. exact Ea.
    + apply mix_toward. apply clamp_keeps_above; [lra|]. apply linear_scale; lra.
    + apply mix_toward. apply clamp_keeps_below; [lra|]. exact Eb.
  - assert (Hq1 : m / t <= 1).
    { apply Rmult_le_reg_r with t; [lra|]. unfold Rdiv.
      rewrite Rmult_assoc, Rinv_l by lra. lra. }
    assert (Ra : 0.5 <= JS.clamp (m / t) 0.5 1.6 <= 1).
    { split; [apply clamp_bounds; lra|]. apply clamp_keeps_below; lra. }
    assert (Rb : 0.25 <= JS.clamp (m / t) 0.25 4 <= 1).
    { split; [apply clamp_bounds; lra|]. apply clamp_keeps_below; lra. }
    set (ra := JS.clamp (m / t) 0.5 1.6) in *. set (rb := JS.clamp (m / t) 0.25 4) in *.
    pose proof (pow_unit ra 0.35 ltac:(lra) ltac:(lra)) as Pa.
    pose proof (pow_unit rb 0.92 ltac:(lra) ltac:(lra)) as Pb.
    pose proof (pow_positive ra 0.35 ltac:(lra)) as Pa0.
    pose proof (pow_positive rb 0.92 ltac:(lra)) as Pb0.
    assert (Ea : efficiency <= efficiency / JS.pow ra 0.35).
    { apply Rmult_le_reg_r with (JS.pow ra 0.35); [lra|]. unfold Rdiv.
      rewrite Rmult_assoc, Rinv_l by lra. nra. }
    assert (Eb : efficiency <= efficiency / JS.pow rb 0.92).
    { apply Rmult_le_reg_r with (JS.pow rb 0.92); [lra|]. unfold Rdiv.
      rewrite Rmult_assoc, Rinv_l by lra. nra. }
    repeat split.
    + apply mix_toward. apply clamp_keeps_below; [lra|]. apply square_scale; lra.
    + apply mix_toward. apply clamp_keeps_below; [lra|]. apply linear_scale; lra.
    + apply mix_toward. apply clamp_keeps_above; [lra|]. exact Ea.
    + apply mix_toward. apply clamp_keeps_below; [lra|]. apply linear_scale; lra.
    + apply mix_toward. apply clamp_keeps_above; [lra|]. exact Eb.
Qed.

Lemma correction_direction_witness :
  let config := setTunables emptyConfig (Some 0.32) (Some 0.015) (Some 0.9) in
  0.32 <= JS.coalesce (in_dragCoefficient (adjustTopSpeed config (Some 300) (Some 280))) 0
  /\ JS.coalesce (in_drivetrainEfficiency (adjustAcceleration config (Some 300) (Some 280))) 0
     <= 0.9.
Proof.
  intros config.
  pose proof (correction_direction config 0.32 0.015 0.9 300 280 eq_refl eq_refl eq_refl
                ltac:(lra) ltac:(lra) ltac:(lra) ltac:(lra) ltac:(lra)) as H.
  cbv zeta in H. destruct H as [H _].
  destruct (H ltac:(lra)) as (Hdrag & _ & _ & _ & Heff).
  split; [exact Hdrag|exact Heff].
Defined.

(** ** Overrides *)

Lemma toFixed5_close (value : R) : Rabs (toFixed5 value - value) <= 5e-6.
Proof.
  unfold toFixed5. destruct (0 <=? value) eqn:E.
  - pose proof (Zfloor_bound (value * 100000 + 0.5)) as [H1 H2].
    set (n := IZR (Zfloor (value * 100000 + 0.5))) in *.
    apply Rabs_le. split; lra.
  - pose proof (Zfloor_bound (- value * 100000 + 0.5)) as [H1 H2].
    set (n := IZR (Zfloor (- value * 100000 + 0.5))) in *.
    apply Rabs_le. split; lra.
Qed.

Lemma setTunables_same (config : CarConfigInput) :
  setTunables config (in_dragCoefficient config) (in_rollingResistanceCoeff config)
              (in_drivetrainEfficiency config) = config.
Proof. destruct config; reflexivity. Qed.

Lemma overrideOf_same (value : option R) : overrideOf value value = None.
Proof.
  destruct value as [v|]; cbn [overrideOf]; [|reflexivity].
  replace (v - v) with 0 by ring. rewrite Rabs_R0.
  destruct (0 <=? 1e-4) eqn:E; [reflexivity|apply leb_false in E; lra].
Qed.

Lemma overrideOf_sound (next base : option R) (o : R) :
  overrideOf next base = Some o ->
  exists n, next = Some n /\ o = toFixed5 n /\ Rabs (o - n) <= 5e-6
            /\ forall b, base = Some b -> 1e-4 < Rabs (n - b).
Proof.
  unfold overrideOf. destruct next as [n|]; [|discriminate].
  destruct base as [b|].
  - destruct (Rabs (n - b) <=? 1e-4) eqn:E; [discriminate|].
    intros [= <-]. exists n. repeat split; [apply toFixed5_close|].
    intros ? [= <-]. apply leb_false in E. exact E.
  - intros [= <-]. exists n. repeat split; [apply toFixed5_close|]. intros ? [=].
Qed.

(** X27.  [computeOverrides] reports no override for a configuration
    compared with itself and leaves it unchanged.  Every override it does
    report is the tuned value rounded to five decimals, within 0.000005 of
    it, for a key whose tuned value is more than 0.0001 away from the base
    value or has no base value; the configuration carries the rounded
    values afterwards. *)
Theorem overrides_are_real_changes (config baseConfig : CarConfigInput) :
  computeOverrides config config = (None, config)
  /\ (forall overrides,
        (computeOverrides config baseConfig).1 = Some overrides ->
        let sound (override tuned base written : option R) :=
          match override with
          | Some o =>
              written = Some o
              /\ exists n, tuned = Some n /\ o = toFixed5 n /\ Rabs (o - n) <= 5e-6
                           /\ forall b, base = Some b -> 1e-4 < Rabs (n - b)
          | None => written = tuned
          end in
        let after := (computeOverrides config baseConfig).2 in
        sound (ov_dragCoefficient overrides) (in_dragCoefficient config)
              (in_dragCoefficient baseConfig) (in_dragCoefficient after)
        /\ sound (ov_rollingResistanceCoeff overrides) (in_rollingResistanceCoeff config)
                 (in_rollingResistanceCoeff baseConfig) (in_rollingResistanceCoeff after)
        /\ sound (ov_drivetrainEfficiency overrides) (in_drivetrainEfficiency config)
                 (in_drivetrainEfficiency baseConfig) (in_drivetrainEfficiency after)
        /\ (ov_dragCoefficient overrides <> None
            \/ ov_rollingResistanceCoeff overrides <> None
            \/ ov_drivetrainEfficiency overrides <> None))
  /\ ((computeOverrides config baseConfig).1 = None ->
      (computeOverrides config baseConfig).2 = config).
Proof.
  split; [|split].
  - unfold computeOverrides. rewrite !overrideOf_same. rewrite setTunables_same. reflexivity.
  - intros overrides. unfold computeOverrides.
    destruct (overrideOf (in_dragCoefficient config) (in_dragCoefficient baseConfig))
      as [d|] eqn:Ed;
    destruct (overrideOf (in_rollingResistanceCoeff config)
                (in_rollingResistanceCoeff baseConfig)) as [r|] eqn:Er;
    destruct (overrideOf (in_drivetrainEfficiency config)
                (in_drivetrainEfficiency baseConfig)) as [e|] eqn:Ee;
    cbn [fst snd]; intros H; try discriminate; injection H as <-;
    cbn [ov_dragCoefficient ov_rollingResistanceCoeff ov_drivetrainEfficiency
         setTunables in_dragCoefficient in_rollingResistanceCoeff in_drivetrainEfficiency];
    repeat match goal with
    | H : overrideOf _ _ = Some _ |- _ => apply overrideOf_sound in H
    end;
    repeat split; try assumption; try reflexivity;
    try (left; discriminate); try (right; left; discriminate);
    try (right; right; discriminate).
  - unfold computeOverrides.
    destruct (overrideOf (in_dragCoefficient config) (in_dragCoefficient baseConfig));
    destruct (overrideOf (in_rollingResistanceCoeff config)
                (in_rollingResistanceCoeff baseConfig));
    destruct (overrideOf (in_drivetrainEfficiency config)
                (in_drivetrainEfficiency baseConfig));
    cbn [fst snd]; intros H; try discriminate. apply setTunables_same.
Qed.

(** ** The rounds of a calibration *)

Section Rounds.

Variable now : nat -> R.
Variable parseNumber : string -> option R.
Variable numberToString : R -> string.
Variable trim : string -> string.
Variable managerVersion : Z.

(** What [bindC] returned normally went through. *)
Lemma bindC_inv {A B} (m : M (Completion A)) (k : A -> M (Completion B)) (w w' : World)
    (b : B) :
  bindC m k w = Some (Normal b, w') ->
  exists a w1, m w = Some (Normal a, w1) /\ k a w1 = Some (Normal b, w').
Proof.
  unfold bindC, bind. destruct (m w) as [[[a|e] w1]|]; try discriminate.
  intros H. exists a, w1. auto.
Qed.

Lemma calibrationLoop_rounds (driveType : JsVal) (remaining : nat) :
  forall (index : nat) (targets : Targets) (deadline : R) (st st' : LoopState) (w w' : World),
    calibrationLoop now driveType remaining index targets deadline st w
    = Some (Normal st', w') ->
    (remaining = 0%nat /\ st' = st)
    \/ (index < actualIterations st' <= index + remaining)%nat.
Proof.
  induction remaining as [|remaining IH]; intros index targets deadline st st' w w' H.
  - left. cbn in H. injection H as <- _. auto.
  - right. cbn [calibrationLoop] in H. unfold bind at 1 in H. unfold dateNow at 1 in H.
    destruct (_ >? deadline).
    { cbn in H. injection H as <- _. cbn [actualIterations]. lia. }
    apply bindC_inv in H. destruct H as (afterZero & wz & _ & H).
    apply bindC_inv in H. destruct H as (afterTop & wp & _ & H).
    match type of H with
    | (if ?c then ret _ else _) _ = _ => destruct c
    end.
    + cbn in H. injection H as <- _. cbn [actualIterations]. lia.
    + apply IH in H. destruct H as [[-> ->]|H]; [cbn [actualIterations]|]; lia.
Qed.

Lemma runCalibration_record (car car' : CatalogCar) (options : CalibrationOptions)
    (record : CalibrationRecord) (w w' : World) :
  runCalibration now parseNumber numberToString trim managerVersion car options w
  = Some (Normal (record, car'), w') ->
  version record = managerVersion
  /\ id car' = id car
  /\ target record = extractTargets parseNumber (JS.coalesce (specs car) ∅)
  /\ (target record <> None ->
      (1 <= iterations record
       <= match opt_maxIterations options with
          | Some m => Z.to_nat (Z.max 1 (Zfloor m))
          | None => 12
          end)%nat
      /\ car' = car
      /\ (verified record = false <-> note record <> None)).
Proof.
  unfold runCalibration.
  destruct (extractTargets parseNumber (JS.coalesce (specs car) ∅)) as [targets|] eqn:Ht.
  - cbv zeta. unfold bind at 1. unfold dateNow at 1. intros H.
    apply bindC_inv in H. destruct H as (st' & w1 & Hloop & H).
    apply calibrationLoop_rounds in Hloop.
    apply bindC_inv in H. destruct H as (finalZero & w2 & _ & H).
    apply bindC_inv in H. destruct H as (finalTop & w3 & _ & H).
    revert H. unfold bind, dateNow, ret. intros [= <- <- _].
    cbn [version target verified note iterations].
    split; [reflexivity|]. split; [reflexivity|]. split; [reflexivity|].
    intros _. split.
    { destruct Hloop as [[Hzero _]|Hloop]; [|lia].
      destruct (opt_maxIterations options) as [m|]; [|discriminate].
      pose proof (Z.le_max_l 1 (Zfloor m)). lia. }
    split; [reflexivity|].
    destruct (timedOut st'); split; intros; try discriminate; try congruence.
  - unfold bind, dateNow, ret. intros [= <- <- _].
    cbn [version target verified note iterations].
    split; [reflexivity|]. split.
    { unfold markSpecVerified. destruct (specs car); reflexivity. }
    split; [reflexivity|]. intros H. contradiction.
Qed.

End Rounds.

(** X28.  For a car with at least one target whose [driveType] is a
    string or absent, [runCalibration] returns a record of the manager's
    version that carries the extracted targets and counts at least one and
    at most [maxIterations] rounds (12 by default, never fewer than 1);
    the car is left as it is, and the record is unverified exactly when it
    carries the time-out note. *)
Theorem calibration_rounds_bounded
    (now : nat -> R) (parseNumber : string -> option R) (numberToString : R -> string)
    (trim : string -> string) (managerVersion : Z)
    (car : CatalogCar) (options : CalibrationOptions) (targets : Targets) (w : World) :
  extractTargets parseNumber (JS.coalesce (specs car) ∅) = Some targets ->
  driveTypeIsText (JS.coalesce (specs car) ∅) = true ->
  exists record w',
    runCalibration now parseNumber numberToString trim managerVersion car options w
    = Some (Normal (record, car), w')
    /\ version record = managerVersion
    /\ target record = Some targets
    /\ (1 <= iterations record
        <= match opt_maxIterations options with
           | Some m => Z.to_nat (Z.max 1 (Zfloor m))
           | None => 12
           end)%nat
    /\ (verified record = false <-> note record <> None).
Proof.
  intros Ht Htext.
  destruct (runCalibration_normal now parseNumber numberToString trim managerVersion
              car options w Htext) as ([record car'] & w' & Hrun).
  pose proof (runCalibration_record _ _ _ _ _ _ _ _ _ _ _ Hrun) as (Hv & _ & Htarget & H).
  rewrite Ht in Htarget.
  destruct H as (Hrounds & -> & Hnote); [rewrite Htarget; discriminate|].
  exists record, w'. auto.
Qed.

Lemma calibration_rounds_bounded_witness :
  exists record w',
    runCalibration tickingClock parseNothing printZero keepText 1
                   fastCar (mkCalibrationOptions (Some 0) (Some 3)) startWorld
    = Some (Normal (record, fastCar), w')
    /\ (1 <= iterations record <= 3)%nat.
Proof.
  destruct (calibration_rounds_bounded tickingClock parseNothing printZero keepText 1
              fastCar (mkCalibrationOptions (Some 0) (Some 3)) (mkTargets (Some 280) None)
              startWorld fastCar_targets eq_refl)
    as (record & w' & Hrun & _ & _ & Hrounds & _).
  exists record, w'. split; [exact Hrun|].
  cbn [opt_maxIterations] in Hrounds.
  replace (Z.to_nat (Z.max 1 (Zfloor 3))) with 3%nat in Hrounds; [exact Hrounds|].
  rewrite (Zfloor_eq 3 3) by (simpl; lra). reflexivity.
Defined.

(** ** The store after [verifyAllCars] *)

Section Store.

Variable now : nat -> R.
Variable parseNumber : string -> option R.
Variable numberToString : R -> string.
Variable trim : string -> string.
Variable managerVersion : Z.
Variable describeError : Thrown -> string.
Variable supportsStorage : bool.

(** The store holds a record of the manager's version for a car id. *)
Let stored (m : Manager) (carId : string) : Prop :=
  exists record, records m !! carId = Some record /\ version record = managerVersion.

(** The id of the car behind a reference. *)
Let idOf (heap : gmap nat CatalogCar) (ref : nat) : option (option string) :=
  id <$> heap !! ref.

Lemma stored_insert (m : Manager) (carId other : string) (record : CalibrationRecord)
    (o : gmap string Overrides) :
  version record = managerVersion ->
  (other = carId \/ stored m other) ->
  stored (mkManager (<[ carId := record ]> (records m)) o (persisted m)) other.
Proof.
  intros Hv H. unfold stored. cbn [records].
  destruct (decide (other = carId)) as [->|Hne].
  - exists record. rewrite lookup_insert_eq. auto.
  - destruct H as [->|H]; [contradiction|].
    rewrite lookup_insert_ne by congruence. exact H.
Qed.

Lemma idOf_insert (heap : gmap nat CatalogCar) (ref other : nat) (car car' : CatalogCar) :
  heap !! ref = Some car -> id car' = id car ->
  idOf (<[ ref := car' ]> heap) other = idOf heap other.
Proof.
  intros Hcar Hid. unfold idOf. destruct (decide (other = ref)) as [->|Hne].
  - rewrite lookup_insert_eq, Hcar. cbn. rewrite Hid. reflexivity.
  - rewrite lookup_insert_ne by congruence. reflexivity.
Qed.

Lemma applyRecordToSpec_id (car : CatalogCar) (record : CalibrationRecord) :
  id (applyRecordToSpec car record).1 = id car.
Proof.
  unfold applyRecordToSpec. destruct (specs car); [|reflexivity].
  destruct (negb _); reflexivity.
Qed.

Lemma markSpecVerified_id (car : CatalogCar) (flag : bool) :
  id (markSpecVerified car flag) = id car.
Proof. unfold markSpecVerified. destruct (specs car); reflexivity. Qed.

Lemma isRecordCurrent_stored (m : Manager) (carId : string) :
  isRecordCurrent managerVersion (records m !! carId) = true -> stored m carId.
Proof.
  unfold isRecordCurrent, stored. destruct (records m !! carId) as [r|]; [|discriminate].
  intros H. apply andb_true_iff in H. destruct H as [H _]. apply Z.eqb_eq in H.
  exists r. auto.
Qed.

(** What the first loop guarantees, whatever the limit. *)
Lemma scanCars_sound (limit : option nat) (cars : list nat) :
  forall (st : Scan) (w : World),
    exists st' w',
      scanCars now parseNumber managerVersion limit cars st w = Some (st', w')
      /\ (forall ref, idOf (scan_heap st') ref = idOf (scan_heap st) ref)
      /\ (forall carId, stored (scan_manager st) carId -> stored (scan_manager st') carId)
      /\ (exists added, scan_pending st' = scan_pending st ++ added
                        /\ forall ref, In ref added -> In ref cars)
      /\ (limit = None ->
          forall ref carId, In ref cars -> idOf (scan_heap st) ref = Some (Some carId) ->
            stored (scan_manager st') carId \/ In ref (scan_pending st'))
      /\ (forall n, limit = Some n ->
            (List.length (scan_pending st) < Nat.max 1 n)%nat ->
            (List.length (scan_pending st') <= Nat.max 1 n)%nat)
      /\ ticks w' = ticks w.
Proof.
  induction cars as [|ref rest IH]; intros st w.
  - exists st, w. cbn [scanCars ret]. split; [reflexivity|]. split; [auto|]. split; [auto|].
    split; [exists []; rewrite app_nil_r; split; [reflexivity|intros ? []]|].
    split; [intros _ ? ? []|]. split; [intros; lia|reflexivity].
  - cbn [scanCars].
    destruct (scan_heap st !! ref) as [car|] eqn:Hcar.
    2:{ destruct (IH st w) as (st' & w' & Hs & Hi & Hg & Hp & Hc & Hl & Ht).
        exists st', w'. split; [exact Hs|]. split; [exact Hi|]. split; [exact Hg|].
        split; [destruct Hp as (added & Hp & Hsub); exists added; split;
                 [exact Hp|intros r0 H0; right; apply Hsub, H0]|].
        split; [|split; [exact Hl|exact Ht]].
        intros Hlim r carId [<-|Hin] Hid; [|eapply Hc; eassumption].
        unfold idOf in Hid. rewrite Hcar in Hid. discriminate. }
    destruct (id car) as [carId|] eqn:Hid.
    2:{ destruct (IH st w) as (st' & w' & Hs & Hi & Hg & Hp & Hc & Hl & Ht).
        exists st', w'. split; [exact Hs|]. split; [exact Hi|]. split; [exact Hg|].
        split; [destruct Hp as (added & Hp & Hsub); exists added; split;
                 [exact Hp|intros r0 H0; right; apply Hsub, H0]|].
        split; [|split; [exact Hl|exact Ht]].
        intros Hlim r cid [<-|Hin] Hr; [|eapply Hc; eassumption].
        unfold idOf in Hr. rewrite Hcar in Hr. cbn in Hr. congruence. }
    set (applied := match records (scan_manager st) !! carId with
                    | Some record => applyRecordToSpec car record
                    | None => (car, false)
                    end).
    assert (Happlied : id applied.1 = id car).
    { subst applied. destruct (records (scan_manager st) !! carId);
        [apply applyRecordToSpec_id|reflexivity]. }
    assert (Hhead : idOf (scan_heap st) ref = Some (Some carId)).
    { unfold idOf. rewrite Hcar. cbn. rewrite Hid. reflexivity. }
    destruct (isRecordCurrent managerVersion (records (scan_manager st) !! carId)
              && isSpecMarkedVerified car) eqn:Hcurrent.
    + apply andb_true_iff in Hcurrent. destruct Hcurrent as [Hcurrent _].
      apply isRecordCurrent_stored in Hcurrent.
      match goal with
      | |- context [scanCars _ _ _ limit rest ?st1 w] =>
          destruct (IH st1 w) as (st' & w' & Hs & Hi & Hg & Hp & Hc & Hl & Ht);
            exists st', w'
      end.
      cbn [scan_heap scan_manager scan_pending] in *.
      split; [exact Hs|].
      split; [intros r; rewrite Hi; eapply idOf_insert; eassumption|].
      split; [intros cid H; apply Hg; exact H|].
      split; [destruct Hp as (added & Hp & Hsub); exists added; split;
                 [exact Hp|intros r0 H0; right; apply Hsub, H0]|].
      split; [|split; [exact Hl|exact Ht]].
      intros Hlim r cid [<-|Hin] Hr.
      * left. apply Hg. rewrite Hhead in Hr. injection Hr as <-. exact Hcurrent.
      * apply (Hc Hlim r cid Hin). rewrite <- Hr. eapply idOf_insert; eassumption.
    + destruct (isSpecMarkedVerified car) eqn:Hflag.
      * unfold bind at 1. unfold dateNow at 1.
        match goal with
        | |- context [scanCars _ _ _ limit rest ?st1 ?w1] =>
            destruct (IH st1 w1) as (st' & w' & Hs & Hi & Hg & Hp & Hc & Hl & Ht);
              exists st', w'
        end.
        cbn [scan_heap scan_manager scan_pending] in *.
        split; [exact Hs|].
        split.
        { intros r. rewrite Hi. eapply idOf_insert; [eassumption|].
          rewrite markSpecVerified_id. exact Happlied. }
        split.
        { intros cid H. apply Hg. apply stored_insert; [reflexivity|]. right. exact H. }
        split; [destruct Hp as (added & Hp & Hsub); exists added; split;
                 [exact Hp|intros r0 H0; right; apply Hsub, H0]|].
        split; [|split; [exact Hl|exact Ht]].
        intros Hlim r cid [<-|Hin] Hr.
        -- left. apply Hg. rewrite Hhead in Hr. injection Hr as <-.
           apply stored_insert; [reflexivity|]. left. reflexivity.
        -- apply (Hc Hlim r cid Hin). rewrite <- Hr. eapply idOf_insert; [eassumption|].
           rewrite markSpecVerified_id. exact Happlied.
      * set (st1 := mkScan (scan_manager st) (<[ ref := applied.1 ]> (scan_heap st))
                           (scan_pending st ++ [ref]) (scan_changed st)).
        assert (Hstop : exists w0,
                  ret st1 w = Some (st1, w0) /\ ticks w0 = ticks w) by (exists w; auto).
        assert (Hids : forall r, idOf (scan_heap st1) r = idOf (scan_heap st) r).
        { intros r. subst st1. cbn [scan_heap]. eapply idOf_insert; eassumption. }
        assert (Hlen : List.length (scan_pending st1) = S (List.length (scan_pending st))).
        { subst st1. cbn [scan_pending]. rewrite length_app. cbn. lia. }
        destruct (IH st1 w)
          as (st' & w' & Hs & Hi & Hg & (added & Hp & Hsub) & Hc & Hl & Ht).
        assert (Hgo :
          exists st2 w2,
            (forall n, limit = Some n ->
               (List.length (scan_pending st) < Nat.max 1 n)%nat ->
               (List.length (scan_pending st2) <= Nat.max 1 n)%nat)
            /\ match limit with
               | Some n =>
                   if (n <=? List.length (scan_pending st ++ [ref]))%nat
                   then ret st1
                   else scanCars now parseNumber managerVersion limit rest st1
               | None => scanCars now parseNumber managerVersion limit rest st1
               end w = Some (st2, w2)
            /\ (st2 = st1 /\ limit <> None \/ st2 = st' /\ w2 = w')
            /\ ticks w2 = ticks w).
        { destruct limit as [n|].
          - destruct (n <=? List.length (scan_pending st ++ [ref]))%nat eqn:E.
            + exists st1, w. split; [|split; [reflexivity|split; [left; split; congruence|
                                                                   reflexivity]]].
              intros k [= <-] Hk. rewrite Hlen. lia.
            + exists st', w'. split; [|split; [exact Hs|split; [right; auto|exact Ht]]].
              intros k [= <-] Hk. apply (Hl n eq_refl).
              apply Nat.leb_gt in E. rewrite length_app in E. cbn in E.
              rewrite Hlen. lia.
          - exists st', w'. split; [intros k [=]|].
            split; [exact Hs|split; [right; auto|exact Ht]]. }
        destruct Hgo as (st2 & w2 & Hbound & Hrun & Hwhich & Hticks).
        exists st2, w2. split; [exact Hrun|].
        destruct Hwhich as [[-> Hlimit]|[-> ->]].
        -- split; [exact Hids|]. split; [auto|].
           split; [exists [ref]; split; [reflexivity|intros r0 [<-|[]]; left; reflexivity]|].
           split; [intros Hnone; contradiction|]. split; [exact Hbound|exact Hticks].
        -- split; [intros r; rewrite Hi; apply Hids|].
           split; [intros cid H; apply Hg; exact H|].
           split.
           { exists ([ref] ++ added). split.
             - rewrite Hp. subst st1. cbn [scan_pending]. rewrite <- app_assoc. reflexivity.
             - intros r0 H0. apply in_app_or in H0.
               destruct H0 as [[<-|[]]|H0]; [left; reflexivity|right; apply Hsub, H0]. }
           split; [|split; [exact Hbound|exact Hticks]].
           intros Hlim r cid [<-|Hin] Hr.
           ++ right. rewrite Hp. subst st1. cbn [scan_pending].
              apply in_or_app. left. apply in_or_app. right. left. reflexivity.
           ++ apply (Hc Hlim r cid Hin). rewrite Hids. exact Hr.
Qed.

(** What the second loop guarantees without a limit. *)
Lemma calibratePending_sound (options : CalibrationOptions) (pending : list nat) :
  forall (processed : nat) (m : Manager) (heap : gmap nat CatalogCar) (w : World),
    exists result w',
      calibratePending now parseNumber numberToString trim managerVersion describeError
                       None options pending processed m heap w
      = Some (result, w')
      /\ (forall ref, idOf result.2 ref = idOf heap ref)
      /\ (forall carId, stored m carId -> stored result.1 carId)
      /\ (forall ref carId, In ref pending -> idOf heap ref = Some (Some carId) ->
            stored result.1 carId).
Proof.
  induction pending as [|ref rest IH]; intros processed m heap w.
  - eexists _, _. split; [reflexivity|]. cbn [fst snd]. split; [auto|]. split; [auto|].
    intros ? ? [].
  - cbn [calibratePending].
    destruct (heap !! ref) as [car|] eqn:Hcar.
    2:{ destruct (IH (S processed) m heap w) as (result & w' & Hs & Hi & Hg & Hc).
        exists result, w'. split; [exact Hs|]. split; [exact Hi|]. split; [exact Hg|].
        intros r cid [<-|Hin] Hr; [|eapply Hc; eassumption].
        unfold idOf in Hr. rewrite Hcar in Hr. discriminate. }
    unfold bind.
    destruct (runCalibration_returns now parseNumber numberToString trim
                managerVersion car options w) as (completion & w1 & Hrun).
    rewrite Hrun.
    (* Every way out of the step stores a record of the manager's version
       under the id of the car and puts back a car with the same id. *)
    assert (Hstep : forall (record : CalibrationRecord) (car' : CatalogCar) (flag : bool)
                           (o : gmap string Overrides),
      version record = managerVersion -> id car' = id car ->
      exists result w',
        calibratePending now parseNumber numberToString trim managerVersion describeError
                         None options rest (S processed)
                         (mkManager (<[ JS.coalesce (id car) ""%string := record ]> (records m))
                                    o (persisted m))
                         (<[ ref := markSpecVerified car' flag ]> heap) w1
        = Some (result, w')
        /\ (forall r, idOf result.2 r = idOf heap r)
        /\ (forall carId, stored m carId -> stored result.1 carId)
        /\ (forall r carId, In r (ref :: rest) -> idOf heap r = Some (Some carId) ->
              stored result.1 carId)).
    { intros record car' flag o Hv Hid.
      assert (Hheap : forall r,
                idOf (<[ ref := markSpecVerified car' flag ]> heap) r = idOf heap r).
      { intros r. eapply idOf_insert; [eassumption|].
        rewrite markSpecVerified_id. exact Hid. }
      match goal with
      | |- context [calibratePending _ _ _ _ _ _ None options rest ?p ?m1 ?h1 w1] =>
          destruct (IH p m1 h1 w1) as (result & w' & Hs & Hi & Hg & Hc);
            exists result, w'
      end.
      split; [exact Hs|]. split; [intros r; rewrite Hi; apply Hheap|].
      split; [intros cid H; apply Hg, stored_insert; [exact Hv|right; exact H]|].
      intros r cid [<-|Hin] Hr.
      - apply Hg. apply stored_insert; [exact Hv|]. left.
        unfold idOf in Hr. rewrite Hcar in Hr. cbn in Hr. injection Hr as Hr.
        rewrite Hr. reflexivity.
      - apply (Hc r cid Hin). rewrite Hheap. exact Hr. }
    destruct completion as [[record car']|thrown]; cbn [fst snd].
    + pose proof (runCalibration_record _ _ _ _ _ _ _ _ _ _ _ Hrun) as (Hv & Hid & _).
      destruct (negb (verified record)); apply Hstep; assumption.
    + apply Hstep; reflexivity.
Qed.

Lemma stored_persist (m : Manager) (carId : string) :
  stored m carId -> stored (persist supportsStorage m) carId.
Proof. unfold persist, stored. destruct supportsStorage; auto. Qed.

(** X29.  Without a limit, [verifyAllCars] returns, and afterwards the
    store holds a record of the manager's version for every car of the
    list that has an id, whether it was found current, marked from its
    flag or calibrated; every such car is still in place with the id it
    had. *)
Theorem verifyAllCars_stores (cars : list nat) (options : VerifyOptions)
    (m : Manager) (heap : gmap nat CatalogCar) (w : World) :
  opt_limit options = None ->
  exists m' heap' pending w',
    verifyAllCars now parseNumber numberToString trim managerVersion describeError
                  supportsStorage cars options m heap w
    = Some ((m', heap', pending), w')
    /\ (forall ref car carId,
          In ref cars -> heap !! ref = Some car -> id car = Some carId ->
          (exists record, records m' !! carId = Some record
                          /\ version record = managerVersion)
          /\ exists car', heap' !! ref = Some car' /\ id car' = Some carId).
Proof.
  intros Hlimit. unfold verifyAllCars. destruct cars as [|first rest].
  { eexists _, _, _, _. split; [reflexivity|]. intros ? ? ? []. }
  rewrite Hlimit. set (cars := first :: rest).
  unfold bind at 1.
  destruct (scanCars_sound None cars (mkScan m heap [] false) w)
    as (scanned & w1 & Hscan & Hi & _ & _ & Hc & _ & _).
  rewrite Hscan. specialize (Hc eq_refl). cbn [scan_heap scan_manager scan_pending] in *.
  assert (Hkeep : forall heap' ref car carId,
            (forall r, idOf heap' r = idOf heap r) ->
            heap !! ref = Some car -> id car = Some carId ->
            exists car', heap' !! ref = Some car' /\ id car' = Some carId).
  { intros heap' ref car carId Hids Hcar Hid. specialize (Hids ref). unfold idOf in Hids.
    rewrite Hcar in Hids. cbn in Hids. destruct (heap' !! ref) as [car'|]; [|discriminate].
    exists car'. split; [reflexivity|]. cbn in Hids. congruence. }
  destruct (scan_pending scanned) as [|p ps] eqn:Hpending.
  - eexists _, _, _, _. split; [reflexivity|].
    intros ref car carId Hin Hcar Hid. split; [|eapply Hkeep; eassumption].
    assert (Hr : idOf heap ref = Some (Some carId)).
    { unfold idOf. rewrite Hcar. cbn. rewrite Hid. reflexivity. }
    destruct (Hc ref carId Hin Hr) as [H|[]].
    destruct (scan_changed scanned); [apply stored_persist|]; exact H.
  - unfold bind.
    match goal with
    | |- context [calibratePending _ _ _ _ _ _ None ?o ?pend ?n ?m1 ?h1 w1] =>
        destruct (calibratePending_sound o pend n m1 h1 w1)
          as ([m2 heap2] & w2 & Hcal & Hi2 & Hg2 & Hc2)
    end.
    rewrite Hcal. cbn [fst snd] in *.
    eexists _, _, _, _. split; [reflexivity|].
    intros ref car carId Hin Hcar Hid. split.
    + assert (Hr : idOf heap ref = Some (Some carId)).
      { unfold idOf. rewrite Hcar. cbn. rewrite Hid. reflexivity. }
      apply stored_persist.
      destruct (Hc ref carId Hin Hr) as [H|H]; [apply Hg2, H|].
      apply (Hc2 ref carId H). rewrite Hi. exact Hr.
    + eapply Hkeep; [|eassumption|eassumption].
      intros r. rewrite Hi2. apply Hi.
Qed.

(** X30.  With a limit, [verifyAllCars] returns and queues at most
    [max(1, limit)] cars, all taken from the list: the limit is tested only
    after a car has been queued, so a limit of 0 (or 1) still queues, and
    calibrates, the first car of the list when that car has an id and an
    unflagged specification. *)
Theorem verifyAllCars_limited (cars : list nat) (options : VerifyOptions)
    (m : Manager) (heap : gmap nat CatalogCar) (w : World) (limit : R) :
  opt_limit options = Some limit ->
  exists m' heap' pending w',
    verifyAllCars now parseNumber numberToString trim managerVersion describeError
                  supportsStorage cars options m heap w
    = Some ((m', heap', pending), w')
    /\ (List.length pending <= Nat.max 1 (Z.to_nat (Z.max 0 (Zfloor limit))))%nat
    /\ (forall ref, In ref pending -> In ref cars)
    /\ (forall first rest,
          cars = first :: rest -> queued heap first = true ->
          (Z.to_nat (Z.max 0 (Zfloor limit)) <= 1)%nat ->
          pending = [first]).
Proof.
  intros Hlimit. unfold verifyAllCars. destruct cars as [|first rest].
  { eexists _, _, _, _. split; [reflexivity|]. split; [cbn; lia|].
    split; [intros ? []|intros ? ? [=]]. }
  rewrite Hlimit. set (cars := first :: rest).
  set (n := Z.to_nat (Z.max 0 (Zfloor limit))).
  unfold bind at 1.
  destruct (scanCars_sound (Some n) cars (mkScan m heap [] false) w)
    as (scanned & w1 & Hscan & _ & _ & (added & Hadded & Hsub) & _ & Hl & _).
  rewrite Hscan. specialize (Hl n eq_refl). cbn [scan_pending] in Hl, Hadded.
  cbn [app] in Hadded.
  assert (Hlen : (List.length (scan_pending scanned) <= Nat.max 1 n)%nat)
    by (apply Hl; cbn; lia).
  assert (Hfirst : queued heap first = true -> (n <= 1)%nat ->
                   scan_pending scanned = [first]).
  { intros Hq Hn. subst cars. cbn [scanCars scan_heap scan_manager scan_pending] in Hscan.
    unfold queued in Hq. destruct (heap !! first) as [car|]; [|discriminate].
    destruct (id car) as [carId|]; [|discriminate].
    apply negb_true_iff in Hq. rewrite Hq, andb_false_r in Hscan.
    cbn [app List.length] in Hscan.
    assert (E : (n <=? 1)%nat = true) by (apply Nat.leb_le, Hn).
    rewrite E in Hscan. cbn in Hscan. injection Hscan as <- _. reflexivity. }
  rewrite Hadded in *.
  destruct added as [|p ps].
  - eexists _, _, _, _. split; [reflexivity|]. split; [cbn; lia|].
    split; [intros ? []|].
    intros f r [= <- <-] Hq Hn. specialize (Hfirst Hq Hn). discriminate.
  - unfold bind.
    match goal with
    | |- context [calibratePending _ _ _ _ _ _ ?l ?o ?pend ?k ?m1 ?h1 w1] =>
        destruct (calibratePending_returns now parseNumber numberToString
                    trim managerVersion describeError l o pend k m1 h1 w1)
          as ([m2 heap2] & w2 & Hcal)
    end.
    rewrite Hcal. eexists _, _, _, _. split; [reflexivity|]. split; [exact Hlen|].
    split; [exact Hsub|].
    intros f r [= <- <-] Hq Hn. apply Hfirst; assumption.
Qed.

End Store.

Lemma verifyAllCars_stores_witness :
  exists m' heap' pending w',
    verifyAllCars tickingClock parseNothing printZero keepText 1 errorName true
                  [0%nat; 1%nat] (mkVerifyOptions None None None)
                  (mkManager ∅ ∅ None) {[ 0%nat := flaggedCar; 1%nat := plainCar ]} startWorld
    = Some ((m', heap', pending), w')
    /\ (forall ref car carId,
          In ref [0%nat; 1%nat] ->
          ({[ 0%nat := flaggedCar; 1%nat := plainCar ]} : gmap nat CatalogCar) !! ref
          = Some car ->
          id car = Some carId ->
          (exists record, records m' !! carId = Some record /\ version record = 1%Z)
          /\ exists car', heap' !! ref = Some car' /\ id car' = Some carId).
Proof.
  exact (verifyAllCars_stores tickingClock parseNothing printZero keepText 1 errorName true
           [0%nat; 1%nat] (mkVerifyOptions None None None)
           (mkManager ∅ ∅ None) {[ 0%nat := flaggedCar; 1%nat := plainCar ]} startWorld
           eq_refl).
Defined.

Lemma verifyAllCars_limited_witness :
  exists m' heap' pending w',
    verifyAllCars tickingClock parseNothing printZero keepText 1 errorName true
                  [0%nat; 1%nat] (mkVerifyOptions (Some 0) None None)
                  (mkManager ∅ ∅ None) {[ 0%nat := plainCar; 1%nat := fastCar ]} startWorld
    = Some ((m', heap', pending), w')
    /\ pending = [0%nat].
Proof.
  destruct (verifyAllCars_limited tickingClock parseNothing printZero keepText 1 errorName true
              [0%nat; 1%nat] (mkVerifyOptions (Some 0) None None)
              (mkManager ∅ ∅ None) {[ 0%nat := plainCar; 1%nat := fastCar ]} startWorld
              0 eq_refl) as (m' & heap' & pending & w' & Hrun & _ & _ & Hfirst).
  exists m', heap', pending, w'. split; [exact Hrun|].
  apply (Hfirst 0%nat [1%nat] eq_refl).
  - reflexivity.
  - rewrite (Zfloor_eq 0 0) by (simpl; lra). cbn. lia.
Defined.

(** ** The work of a run *)

Section Work.

Variable now : nat -> R.
Variable parseNumber : string -> option R.
Variable numberToString : R -> string.
Variable trim : string -> string.
Variable managerVersion : Z.
Variable describeError : Thrown -> string.

Lemma deadlinePassed_work (deadline : option R) (w w' : World) (expired : bool) :
  deadlinePassed now deadline w = Some (expired, w') ->
  ticks w' = ticks w /\ testCars w' = testCars w.
Proof.
  destruct deadline; unfold deadlinePassed, bind, dateNow, ret; intros [= _ <-]; auto.
Qed.

(** A measurement loop runs at most one tick per unit of fuel and builds
    no car. *)
Lemma zeroToHundredLoop_work (fuel : nat) :
  forall (interval : R) (deadline : option R) (car : Car) (samples : option (list Sample))
         (time previousSpeed sampleTimer : R) (w w' : World) result,
    zeroToHundredLoop now fuel interval deadline car samples time previousSpeed
                      sampleTimer w
    = Some (result, w') ->
    (ticks w' <= ticks w + fuel)%nat /\ testCars w' = testCars w.
Proof.
  induction fuel as [|fuel IH];
    intros interval deadline car samples time previousSpeed sampleTimer w w' result H.
  - cbn [zeroToHundredLoop] in H. destruct (time <? 15); [discriminate|].
    injection H as _ <-. split; [lia|reflexivity].
  - cbn [zeroToHundredLoop] in H. destruct (time <? 15).
    2:{ injection H as _ <-. split; [lia|reflexivity]. }
    unfold bind at 1 in H.
    destruct (deadlinePassed now deadline w) as [[expired w1]|] eqn:Hd; [|discriminate].
    apply deadlinePassed_work in Hd. destruct Hd as [Hd1 Hd2].
    destruct expired.
    + injection H as _ <-. split; [lia|exact Hd2].
    + unfold bind at 1 in H. unfold carUpdate at 1 in H. cbv zeta in H.
      match type of H with
      | (if ?c then _ else _) _ = _ => destruct c
      end.
      * injection H as _ <-. cbn [ticks testCars]. split; [lia|exact Hd2].
      * apply IH in H. cbn [ticks testCars] in H. destruct H as [H1 H2].
        split; [lia|congruence].
Qed.

Lemma topSpeedLoop_work (fuel : nat) :
  forall (interval : R) (deadline : option R) (car : Car) (samples : option (list Sample))
         (time maxSpeed stableTime sampleTimer : R) (w w' : World) result,
    topSpeedLoop now fuel interval deadline car samples time maxSpeed stableTime
                 sampleTimer w
    = Some (result, w') ->
    (ticks w' <= ticks w + fuel)%nat /\ testCars w' = testCars w.
Proof.
  induction fuel as [|fuel IH];
    intros interval deadline car samples time maxSpeed stableTime sampleTimer w w' result H.
  - cbn [topSpeedLoop] in H. destruct (time <? 160); [discriminate|].
    injection H as _ <-. split; [lia|reflexivity].
  - cbn [topSpeedLoop] in H. destruct (time <? 160).
    2:{ injection H as _ <-. split; [lia|reflexivity]. }
    unfold bind at 1 in H.
    destruct (deadlinePassed now deadline w) as [[expired w1]|] eqn:Hd; [|discriminate].
    apply deadlinePassed_work in Hd. destruct Hd as [Hd1 Hd2].
    destruct expired.
    + injection H as _ <-. split; [lia|exact Hd2].
    + unfold bind at 1 in H. unfold carUpdate at 1 in H. cbv zeta in H.
      match type of H with
      | (if ?c then _ else _) _ = _ => destruct c
      end.
      * injection H as _ <-. cbn [ticks testCars]. split; [lia|exact Hd2].
      * apply IH in H. cbn [ticks testCars] in H. destruct H as [H1 H2].
        split; [lia|congruence].
Qed.

(** The most ticks that one 0-100 run and one top-speed run take. *)
Let perRound : nat := (zeroToHundredFuel + topSpeedFuel)%nat.

Lemma measureZeroToHundred_work (config : CarConfigInput) (options : MeasureOptions)
    (w w' : World) result :
  measureZeroToHundred now config options w = Some (result, w') ->
  (ticks w' <= ticks w + zeroToHundredFuel)%nat /\ testCars w' = S (testCars w).
Proof.
  unfold measureZeroToHundred, bind, createTestCar. intros H.
  apply zeroToHundredLoop_work in H. exact H.
Qed.

Lemma measureTopSpeed_work (config : CarConfigInput) (options : MeasureOptions)
    (w w' : World) result :
  measureTopSpeed now config options w = Some (result, w') ->
  (ticks w' <= ticks w + topSpeedFuel)%nat /\ testCars w' = S (testCars w).
Proof.
  unfold measureTopSpeed, bind, createTestCar. intros H.
  apply topSpeedLoop_work in H. exact H.
Qed.

Lemma onTestCar_work {A} (driveType : JsVal) (measurement : M A) (bound : nat)
    (w w' : World) (completion : Completion A) :
  (forall result w1, measurement w = Some (result, w1) ->
     (ticks w1 <= ticks w + bound)%nat /\ testCars w1 = S (testCars w)) ->
  onTestCar driveType measurement w = Some (completion, w') ->
  (ticks w' <= ticks w + bound)%nat /\ testCars w' = S (testCars w).
Proof.
  intros Hm H.
  destruct driveType;
    try (injection H as _ <-; cbn [ticks testCars]; split; [lia|reflexivity]).
  cbn [onTestCar] in H. unfold lift, bind in H.
  destruct (measurement w) as [[result w1]|] eqn:E; [|discriminate].
  injection H as _ <-. eapply Hm. reflexivity.
Qed.

(** What [bindC] returned went through its first call, and through the
    second unless the first threw. *)
Lemma bindC_some {A B} (m : M (Completion A)) (k : A -> M (Completion B)) (w w' : World)
    (completion : Completion B) :
  bindC m k w = Some (completion, w') ->
  exists first w1,
    m w = Some (first, w1)
    /\ match first with
       | Normal a => k a w1 = Some (completion, w')
       | Throw e => w' = w1
       end.
Proof.
  unfold bindC, bind. destruct (m w) as [[first w1]|]; [|discriminate].
  intros H. exists first, w1. split; [reflexivity|].
  destruct first; [exact H|]. injection H as _ <-. reflexivity.
Qed.



Lemma ret_world {A} (a : A) (w w' : World) (r : A) : ret a w = Some (r, w') -> w' = w.
Proof. intros [= _ <-]. reflexivity. Qed.

Lemma calibrationLoop_work (driveType : JsVal) (remaining : nat) :
  forall (index : nat) (targets : Targets) (deadline : R) (st : LoopState) (w w' : World)
         completion,
    calibrationLoop now driveType remaining index targets deadline st w
    = Some (completion, w') ->
    (ticks w' <= ticks w + remaining * perRound)%nat
    /\ (testCars w' <= testCars w + remaining * 2)%nat.
Proof.
  induction remaining as [|remaining IH];
    intros index targets deadline st w w' completion H.
  - injection H as _ <-. split; lia.
  - cbn [calibrationLoop] in H. unfold bind at 1 in H. unfold dateNow at 1 in H.
    destruct (_ >? deadline).
    { injection H as _ <-. cbn [ticks testCars]. split; lia. }
    apply bindC_some in H. destruct H as (afterZero & wz & Hz & H).
    match type of Hz with
    | _ ?w0 = _ => set (w1 := w0) in *
    end.
    assert (Hzw : (ticks wz <= ticks w + zeroToHundredFuel)%nat
                  /\ (testCars wz <= S (testCars w))%nat).
    { destruct (target_zeroToHundredSec targets).
      - apply bindC_some in Hz. destruct Hz as (first & w2 & Hm & Hz).
        eapply onTestCar_work in Hm; [|intros ? ?; apply measureZeroToHundred_work].
        subst w1. cbn [ticks testCars] in Hm.
        destruct first; [apply ret_world in Hz|]; subst wz; split; lia.
      - apply ret_world in Hz. subst wz w1. cbn [ticks testCars]. split; lia. }
    destruct afterZero as [afterZero|thrown]; [|subst w'; unfold perRound; split; lia].
    apply bindC_some in H. destruct H as (afterTop & wp & Hp & H).
    assert (Hpw : (ticks wp <= ticks wz + topSpeedFuel)%nat
                  /\ (testCars wp <= S (testCars wz))%nat).
    { destruct (target_topSpeedKph targets).
      - apply bindC_some in Hp. destruct Hp as (first & w2 & Hm & Hp).
        eapply onTestCar_work in Hm; [|intros ? ?; apply measureTopSpeed_work].
        destruct first; [apply ret_world in Hp|]; subst wp; split; lia.
      - apply ret_world in Hp. subst wp. split; lia. }
    destruct afterTop as [afterTop|thrown]; [|subst w'; unfold perRound; split; lia].
    match type of H with
    | (if ?c then ret _ else _) _ = _ => destruct c
    end.
    + apply ret_world in H. subst w'. unfold perRound. split; lia.
    + apply IH in H. unfold perRound in *. split; lia.
Qed.

(** [maxIterations] of [runCalibration]. *)
Let roundsOf (options : CalibrationOptions) : nat :=
  match opt_maxIterations options with
  | Some m => Z.to_nat (Z.max 1 (Zfloor m))
  | None => 12%nat
  end.

(** One call of [runCalibration] runs the rounds and the final
    measurements: at most [maxIterations + 1] times the ticks of a round,
    and two test cars each time. *)
Lemma runCalibration_work (car : CatalogCar) (options : CalibrationOptions)
    (w w' : World) completion :
  runCalibration now parseNumber numberToString trim managerVersion car options w
  = Some (completion, w') ->
  (ticks w' <= ticks w + S (roundsOf options) * perRound)%nat
  /\ (testCars w' <= testCars w + S (roundsOf options) * 2)%nat.
Proof.
  unfold runCalibration.
  destruct (extractTargets parseNumber (JS.coalesce (specs car) ∅)) as [targets|].
  2:{ unfold bind, dateNow, ret. intros [= _ <-]. cbn [ticks testCars]. split; lia. }
  cbv zeta. fold (roundsOf options). unfold bind at 1. unfold dateNow at 1. intros H.
  apply bindC_some in H. destruct H as (looped & w1 & Hloop & H).
  apply calibrationLoop_work in Hloop. cbn [ticks testCars] in Hloop.
  destruct looped as [st|thrown]; [|subst w'; split; lia].
  apply bindC_some in H. destruct H as (finalZero & w2 & Hz & H).
  assert (Hzw : (ticks w2 <= ticks w1 + zeroToHundredFuel)%nat
                /\ (testCars w2 <= S (testCars w1))%nat).
  { destruct (target_zeroToHundredSec targets).
    - eapply onTestCar_work in Hz; [|intros ? ?; apply measureZeroToHundred_work].
      split; lia.
    - apply ret_world in Hz. subst w2. split; lia. }
  destruct finalZero as [finalZero|thrown]; [|subst w'; unfold perRound; split; lia].
  apply bindC_some in H. destruct H as (finalTop & w3 & Hp & H).
  assert (Hpw : (ticks w3 <= ticks w2 + topSpeedFuel)%nat
                /\ (testCars w3 <= S (testCars w2))%nat).
  { destruct (target_topSpeedKph targets).
    - eapply onTestCar_work in Hp; [|intros ? ?; apply measureTopSpeed_work].
      split; lia.
    - apply ret_world in Hp. subst w3. split; lia. }
  destruct finalTop as [finalTop|thrown]; [|subst w'; unfold perRound; split; lia].
  revert H. unfold bind, dateNow, ret. intros [= _ <-]. cbn [ticks testCars].
  unfold perRound. split; lia.
Qed.

(** The second loop of [verifyAllCars] works for the cars of its list
    only: its ticks and test cars are bounded by their number. *)
Lemma calibratePending_work (limit : option nat) (options : CalibrationOptions)
    (pending : list nat) :
  forall (processed : nat) (m : Manager) (heap : gmap nat CatalogCar) (w w' : World) result,
    calibratePending now parseNumber numberToString trim managerVersion describeError
                     limit options pending processed m heap w
    = Some (result, w') ->
    (ticks w' <= ticks w + List.length pending * (S (roundsOf options) * perRound))%nat
    /\ (testCars w' <= testCars w + List.length pending * (S (roundsOf options) * 2))%nat.
Proof.
  set (T := (S (roundsOf options) * perRound)%nat).
  set (C := (S (roundsOf options) * 2)%nat).
  induction pending as [|ref rest IH]; intros processed m heap w w' result H.
  - injection H as _ <-. cbn [List.length]. split; lia.
  - cbn [List.length]. rewrite !Nat.mul_succ_l.
    cbn [calibratePending] in H.
    destruct (heap !! ref) as [car|].
    2:{ apply IH in H. split; lia. }
    unfold bind at 1 in H.
    destruct (runCalibration now parseNumber numberToString trim managerVersion car
                options w) as [[completion w1]|] eqn:Hrun; [|discriminate].
    apply runCalibration_work in Hrun. fold T C in Hrun.
    assert (Hnext : forall m1 heap1,
      match limit with
      | Some n =>
          if (n <=? S processed)%nat then ret (m1, heap1)
          else calibratePending now parseNumber numberToString trim managerVersion
                 describeError limit options rest (S processed) m1 heap1
      | None =>
          calibratePending now parseNumber numberToString trim managerVersion
            describeError limit options rest (S processed) m1 heap1
      end w1 = Some (result, w') ->
      (ticks w' <= ticks w1 + List.length rest * T)%nat
      /\ (testCars w' <= testCars w1 + List.length rest * C)%nat).
    { intros m1 heap1 Hn. destruct limit as [n|]; [|apply IH in Hn; exact Hn].
      destruct (n <=? S processed)%nat; [|apply IH in Hn; exact Hn].
      apply ret_world in Hn. subst w'. split; lia. }
    destruct completion as [done|thrown].
    + destruct (negb (verified done.1)); [apply IH in H|apply Hnext in H]; split; lia.
    + apply Hnext in H. split; lia.
Qed.

End Work.

(** ** The records of the cars that are not queued *)

Section Records.

Variable now : nat -> R.
Variable parseNumber : string -> option R.
Variable numberToString : R -> string.
Variable trim : string -> string.
Variable managerVersion : Z.
Variable describeError : Thrown -> string.

(** The first loop writes a record only under an id whose record is not
    current: a current record stays as it is. *)
Lemma scanCars_keeps_current (limit : option nat) (cars : list nat) :
  forall (st st' : Scan) (w w' : World) (k : string),
    scanCars now parseNumber managerVersion limit cars st w = Some (st', w') ->
    isRecordCurrent managerVersion (records (scan_manager st) !! k) = true ->
    records (scan_manager st') !! k = records (scan_manager st) !! k.
Proof.
  induction cars as [|ref rest IH]; intros st st' w w' k H Hk.
  - injection H as <- _. reflexivity.
  - cbn [scanCars] in H.
    destruct (scan_heap st !! ref) as [car|]; [|eapply IH; eassumption].
    destruct (id car) as [carId|]; [|eapply IH; eassumption].
    destruct (isRecordCurrent managerVersion (records (scan_manager st) !! carId)
              && isSpecMarkedVerified car) eqn:E.
    + apply (IH _ _ _ _ k) in H; [exact H|exact Hk].
    + destruct (isSpecMarkedVerified car) eqn:F.
      * rewrite andb_true_r in E.
        assert (Hne : carId <> k) by (intros ->; congruence).
        unfold bind at 1 in H. unfold dateNow at 1 in H.
        apply (IH _ _ _ _ k) in H; cbn [scan_manager records] in *.
        -- rewrite H. apply lookup_insert_ne. exact Hne.
        -- rewrite lookup_insert_ne by exact Hne. exact Hk.
      * destruct limit as [n|].
        -- destruct (n <=? _)%nat.
           ++ injection H as <- _. reflexivity.
           ++ apply (IH _ _ _ _ k) in H; [exact H|exact Hk].
        -- apply (IH _ _ _ _ k) in H; [exact H|exact Hk].
Qed.

(** When every listed car with the id [k] is flagged, one of them is
    listed and the record under [k] is not current, the first loop writes
    the record under [k] from the flag, with the measurements the record
    had before. *)
Lemma scanCars_marks (heap0 : gmap nat CatalogCar) (cars : list nat) (k : string) :
  forall (st st' : Scan) (w w' : World),
    List.NoDup cars ->
    (forall ref, In ref cars -> scan_heap st !! ref = heap0 !! ref) ->
    scanCars now parseNumber managerVersion None cars st w = Some (st', w') ->
    isRecordCurrent managerVersion (records (scan_manager st) !! k) = false ->
    (exists ref car, In ref cars /\ heap0 !! ref = Some car /\ id car = Some k) ->
    (forall ref car, In ref cars -> heap0 !! ref = Some car -> id car = Some k ->
       isSpecMarkedVerified car = true) ->
    exists record,
      records (scan_manager st') !! k = Some record
      /\ verified record = true
      /\ note record = Some "Marked verified via CarSpecs performance flag."%string
      /\ measured record = records (scan_manager st) !! k ≫= measured.
Proof.
  induction cars as [|ref rest IH]; intros st st' w w' Hnd Hheap H Hk Hsome Hall.
  - destruct Hsome as (? & ? & [] & _).
  - apply List.NoDup_cons_iff in Hnd. destruct Hnd as [Hnotin Hnd].
    assert (Hrest : forall h' r, In r rest ->
              (<[ ref := h' ]> (scan_heap st)) !! r = heap0 !! r).
    { intros h' r Hr. rewrite lookup_insert_ne by (intros ->; contradiction).
      apply Hheap. right. exact Hr. }
    assert (Hall' : forall r car, In r rest -> heap0 !! r = Some car -> id car = Some k ->
              isSpecMarkedVerified car = true).
    { intros r car Hr. apply Hall. right. exact Hr. }
    cbn [scanCars] in H.
    pose proof (Hheap ref (or_introl eq_refl)) as Hhead.
    (* When the head is not a car with the id [k], such a car follows. *)
    assert (Hskip : (forall car0, heap0 !! ref = Some car0 -> id car0 <> Some k) ->
              exists r car, In r rest /\ heap0 !! r = Some car /\ id car = Some k).
    { intros Hne. destruct Hsome as (r & car & [<-|Hr] & Hc & Hi).
      - exfalso. exact (Hne car Hc Hi).
      - exists r, car. auto. }
    destruct (scan_heap st !! ref) as [car|] eqn:Hcar.
    2:{ eapply IH; try eassumption.
        - intros r Hr. apply Hheap. right. exact Hr.
        - apply Hskip. intros car0 Hc. rewrite <- Hhead in Hc. discriminate. }
    destruct (id car) as [carId|] eqn:Hid.
    2:{ eapply IH; try eassumption.
        - intros r Hr. apply Hheap. right. exact Hr.
        - apply Hskip. intros car0 Hc. rewrite <- Hhead in Hc. injection Hc as <-.
          congruence. }
    destruct (decide (carId = k)) as [->|Hne].
    + assert (Hflag : isSpecMarkedVerified car = true).
      { apply (Hall ref car); [left; reflexivity|congruence|exact Hid]. }
      rewrite Hk, Hflag in H. cbn [andb] in H.
      unfold bind at 1 in H. unfold dateNow at 1 in H.
      eapply scanCars_keeps_current in H.
      * cbn [scan_manager records] in H. rewrite lookup_insert_eq in H.
        eexists. split; [exact H|]. cbn [verified note measured].
        split; [reflexivity|]. split; reflexivity.
      * cbn [scan_manager records]. rewrite lookup_insert_eq.
        cbn [isRecordCurrent version verified]. rewrite Z.eqb_refl. reflexivity.
    + assert (Hsome' : exists r c, In r rest /\ heap0 !! r = Some c /\ id c = Some k).
      { apply Hskip. intros car0 Hc. rewrite <- Hhead in Hc. injection Hc as <-.
        congruence. }
      destruct (isRecordCurrent managerVersion (records (scan_manager st) !! carId)
                && isSpecMarkedVerified car).
      * eapply IH in H; try eassumption.
        cbn [scan_heap]. intros r Hr. apply Hrest, Hr.
      * destruct (isSpecMarkedVerified car).
        -- unfold bind at 1 in H. unfold dateNow at 1 in H.
           eapply IH in H; try eassumption.
           ++ cbn [scan_manager records] in H.
              rewrite lookup_insert_ne in H by exact Hne. exact H.
           ++ cbn [scan_heap]. intros r Hr. apply Hrest, Hr.
           ++ cbn [scan_manager records]. rewrite lookup_insert_ne by exact Hne. exact Hk.
        -- eapply IH in H; try eassumption.
           cbn [scan_heap]. intros r Hr. apply Hrest, Hr.
Qed.

(** The first loop changes no id. *)
Lemma scanCars_ids (limit : option nat) (cars : list nat) :
  forall (st st' : Scan) (w w' : World),
    scanCars now parseNumber managerVersion limit cars st w = Some (st', w') ->
    forall ref, id <$> scan_heap st' !! ref = id <$> scan_heap st !! ref.
Proof.
  induction cars as [|ref rest IH]; intros st st' w w' H other.
  - injection H as <- _. reflexivity.
  - cbn [scanCars] in H.
    destruct (scan_heap st !! ref) as [car|] eqn:Hcar; [|eapply IH; eassumption].
    destruct (id car) as [carId|] eqn:Hid; [|eapply IH; eassumption].
    assert (Hput : forall car', id car' = id car ->
              id <$> (<[ ref := car' ]> (scan_heap st)) !! other
              = id <$> scan_heap st !! other).
    { intros car' Hsame. destruct (decide (other = ref)) as [->|Hne].
      - rewrite lookup_insert_eq, Hcar. cbn. rewrite Hsame. reflexivity.
      - rewrite lookup_insert_ne by congruence. reflexivity. }
    assert (Happlied : id (match records (scan_manager st) !! carId with
                           | Some record => applyRecordToSpec car record
                           | None => (car, false)
                           end).1 = id car).
    { destruct (records (scan_manager st) !! carId);
        [apply applyRecordToSpec_id|reflexivity]. }
    destruct (isRecordCurrent managerVersion (records (scan_manager st) !! carId)
              && isSpecMarkedVerified car).
    + apply (IH _ _ _ _) with (ref := other) in H. rewrite H. cbn [scan_heap].
      apply Hput, Happlied.
    + destruct (isSpecMarkedVerified car).
      * unfold bind at 1 in H. unfold dateNow at 1 in H.
        apply (IH _ _ _ _) with (ref := other) in H. rewrite H. cbn [scan_heap].
        apply Hput. rewrite markSpecVerified_id. exact Happlied.
      * destruct limit as [n|].
        -- destruct (n <=? _)%nat.
           ++ injection H as <- _. cbn [scan_heap]. apply Hput, Happlied.
           ++ apply (IH _ _ _ _) with (ref := other) in H. rewrite H. cbn [scan_heap].
              apply Hput, Happlied.
        -- apply (IH _ _ _ _) with (ref := other) in H. rewrite H. cbn [scan_heap].
           apply Hput, Happlied.
Qed.

(** The second loop writes records under the ids of the cars of its list
    only. *)
Lemma calibratePending_records (limit : option nat) (options : CalibrationOptions)
    (pending : list nat) (k : string) :
  forall (processed : nat) (m : Manager) (heap : gmap nat CatalogCar) (w w' : World) result,
    calibratePending now parseNumber numberToString trim managerVersion describeError
                     limit options pending processed m heap w
    = Some (result, w') ->
    (forall ref car, In ref pending -> heap !! ref = Some car ->
       JS.coalesce (id car) ""%string <> k) ->
    records result.1 !! k = records m !! k.
Proof.
  induction pending as [|ref rest IH]; intros processed m heap w w' result H Hids.
  - injection H as <- _. reflexivity.
  - cbn [calibratePending] in H.
    destruct (heap !! ref) as [car|] eqn:Hcar.
    2:{ eapply IH; [exact H|]. intros r c Hr. apply Hids. right. exact Hr. }
    pose proof (Hids ref car (or_introl eq_refl) Hcar) as Hne.
    unfold bind at 1 in H.
    destruct (runCalibration now parseNumber numberToString trim managerVersion car
                options w) as [[completion w1]|] eqn:Hrun; [|discriminate].
    (* Every way out of the step writes under the id of the car and puts
       back a car with the same id. *)
    assert (Hstep : forall record car' flag o,
      id car' = id car ->
      calibratePending now parseNumber numberToString trim managerVersion describeError
                       limit options rest (S processed)
                       (mkManager (<[ JS.coalesce (id car) ""%string := record ]> (records m))
                                  o (persisted m))
                       (<[ ref := markSpecVerified car' flag ]> heap) w1
      = Some (result, w') ->
      records result.1 !! k = records m !! k).
    { intros record car' flag o Hsame Hgo.
      eapply IH in Hgo.
      - rewrite Hgo. cbn [records]. apply lookup_insert_ne. exact Hne.
      - intros r c Hr Hc. destruct (decide (r = ref)) as [->|Hother].
        + rewrite lookup_insert_eq in Hc. injection Hc as <-.
          rewrite markSpecVerified_id, Hsame. exact Hne.
        + rewrite lookup_insert_ne in Hc by congruence.
          apply (Hids r c); [right; exact Hr|exact Hc]. }
    assert (Hnext : forall record car' flag o,
      id car' = id car ->
      match limit with
      | Some n =>
          if (n <=? S processed)%nat
          then ret (mkManager (<[ JS.coalesce (id car) ""%string := record ]> (records m))
                              o (persisted m),
                    <[ ref := markSpecVerified car' flag ]> heap)
          else calibratePending now parseNumber numberToString trim managerVersion
                 describeError limit options rest (S processed)
                 (mkManager (<[ JS.coalesce (id car) ""%string := record ]> (records m))
                            o (persisted m))
                 (<[ ref := markSpecVerified car' flag ]> heap)
      | None =>
          calibratePending now parseNumber numberToString trim managerVersion
            describeError limit options rest (S processed)
            (mkManager (<[ JS.coalesce (id car) ""%string := record ]> (records m))
                       o (persisted m))
            (<[ ref := markSpecVerified car' flag ]> heap)
      end w1 = Some (result, w') ->
      records result.1 !! k = records m !! k).
    { intros record car' flag o Hsame Hgo.
      destruct limit as [n|]; [|eapply Hstep; eassumption].
      destruct (n <=? S processed)%nat; [|eapply Hstep; eassumption].
      injection Hgo as <- _. cbn [fst records]. apply lookup_insert_ne. exact Hne. }
    destruct completion as [[record car']|thrown]; cbn [fst snd] in H.
    + pose proof (runCalibration_record _ _ _ _ _ _ _ _ _ _ _ Hrun) as (_ & Hsame & _).
      destruct (negb (verified record)); [eapply Hstep|eapply Hnext]; eassumption.
    + eapply Hnext; [reflexivity|exact H].
Qed.

End Records.

(** ** The calibration store: cache hits and the queue *)

(** C7, as stated, fails in its "exactly when".  A car whose specification
    is flagged as verified and that has no stored record at all gets no
    measurement either: [verifyAllCars] writes a record for it from the flag
    and queues nothing. *)
Lemma flagged_without_record_not_measured :
  records (mkManager ∅ ∅ None) !! "flagged"%string = None
  /\ isRecordCurrent 1 (records (mkManager ∅ ∅ None) !! "flagged"%string) = false
  /\ isSpecMarkedVerified flaggedCar = true
  /\ exists m' heap' w',
       verifyAllCars tickingClock parseNothing printZero keepText 1 errorName true
                     [0%nat] (mkVerifyOptions None None None)
                     (mkManager ∅ ∅ None) {[ 0%nat := flaggedCar ]} startWorld
       = Some ((m', heap', []), w')
       /\ ticks w' = 0%nat /\ testCars w' = 0%nat
       /\ exists record, records m' !! "flagged"%string = Some record
                         /\ verified record = true.
Proof.
  split; [reflexivity|]. split; [reflexivity|]. split; [reflexivity|].
  eexists _, _, _. split; [reflexivity|]. split; [reflexivity|]. split; [reflexivity|].
  eexists. split; reflexivity.
Qed.

(** C7 (amended).  Without a limit and over distinct cars, [verifyAllCars]
    queues for calibration exactly the cars that have an id and whose
    specification is not flagged performanceVerified at entry, and all its
    measurement work is for them: the run takes at most
    [(maxIterations + 1) * 40000] ticks (a round simulates 15 s and 160 s
    at 200 steps per second) and [(maxIterations + 1) * 2] test cars per
    queued car, however many other cars are listed, and none when no car
    is queued.  A car whose stored record has the current
    version and is verified and whose specification is flagged is not
    queued; a car with an id whose specification is not flagged is queued.
    For a flagged car whose id no queued car shares, a current record is
    left as it is, and otherwise the record is written from the flag, with
    the measurements that the record had before. *)
Theorem verifyAllCars_queue
    (now : nat -> R) (parseNumber : string -> option R) (numberToString : R -> string)
    (trim : string -> string) (managerVersion : Z)
    (describeError : Thrown -> string) (supportsStorage : bool)
    (cars : list nat) (options : VerifyOptions) (m : Manager)
    (heap : gmap nat CatalogCar) (w : World) :
  opt_limit options = None ->
  List.NoDup cars ->
  let pending := List.filter (queued heap) cars in
  let rounds :=
    match opt_verifyMaxIterations options with
    | Some n => Z.to_nat (Z.max 1 (Zfloor n))
    | None => 12%nat
    end in
  exists m' heap' w',
    verifyAllCars now parseNumber numberToString trim managerVersion describeError
                  supportsStorage cars options m heap w
    = Some ((m', heap', pending), w')
    /\ (forall ref car carId,
          In ref cars -> heap !! ref = Some car -> id car = Some carId ->
          isRecordCurrent managerVersion (records m !! carId) = true ->
          isSpecMarkedVerified car = true ->
          ~ In ref pending)
    /\ (forall ref car carId,
          In ref cars -> heap !! ref = Some car -> id car = Some carId ->
          isSpecMarkedVerified car = false ->
          In ref pending)
    /\ (pending = [] -> ticks w' = ticks w /\ testCars w' = testCars w)
    /\ (ticks w' <= ticks w + List.length pending * ((rounds + 1) * 40000))%nat
    /\ (testCars w' <= testCars w + List.length pending * ((rounds + 1) * 2))%nat
    /\ (forall ref car carId,
          In ref cars -> heap !! ref = Some car -> id car = Some carId ->
          isSpecMarkedVerified car = true ->
          (forall other car',
             In other pending -> heap !! other = Some car' -> id car' <> Some carId) ->
          if isRecordCurrent managerVersion (records m !! carId)
          then records m' !! carId = records m !! carId
          else exists record,
                 records m' !! carId = Some record
                 /\ verified record = true
                 /\ note record
                    = Some "Marked verified via CarSpecs performance flag."%string
                 /\ measured record = records m !! carId ≫= measured).
Proof.
  intros Hlimit Hnd pending rounds.
  assert (Hpdef : pending = List.filter (queued heap) cars) by reflexivity.
  clearbody pending.
  assert (Hin : forall ref car carId,
            In ref cars -> heap !! ref = Some car -> id car = Some carId ->
            isSpecMarkedVerified car = false -> In ref pending).
  { intros ref car carId Hin Hcar Hid Hflag. rewrite Hpdef.
    apply filter_In. split; [exact Hin|].
    unfold queued. rewrite Hcar, Hid, Hflag. reflexivity. }
  assert (Hout : forall ref car carId,
            In ref cars -> heap !! ref = Some car -> id car = Some carId ->
            isRecordCurrent managerVersion (records m !! carId) = true ->
            isSpecMarkedVerified car = true -> ~ In ref pending).
  { intros ref car carId Hi Hcar Hid _ Hflag Hq. rewrite Hpdef in Hq.
    apply filter_In in Hq. destruct Hq as [_ Hq].
    unfold queued in Hq. rewrite Hcar, Hid, Hflag in Hq. discriminate. }
  destruct cars as [|first rest] eqn:Hcars.
  { cbn in Hpdef. subst pending.
    exists m, heap, w. split; [reflexivity|]. split; [exact Hout|]. split; [exact Hin|].
    split; [auto|]. split; [cbn [List.length]; lia|]. split; [cbn [List.length]; lia|].
    intros ? ? ? []. }
  assert (Hsome : cars <> []) by (rewrite Hcars; discriminate).
  rewrite <- Hcars in *. clear Hcars first rest.
  destruct (scanCars_pending now parseNumber managerVersion heap cars
              (mkScan m heap [] false) w Hnd (fun _ _ => eq_refl))
    as (scanned & w1 & Hscan & Hpending & Hticks & Htest).
  cbn [scan_pending app] in Hpending. rewrite <- Hpdef in Hpending.
  (* The records of a flagged car whose id no queued car shares, after the
     first loop. *)
  assert (Hfirst : forall ref car carId,
            In ref cars -> heap !! ref = Some car -> id car = Some carId ->
            isSpecMarkedVerified car = true ->
            (forall other car',
               In other pending -> heap !! other = Some car' -> id car' <> Some carId) ->
            if isRecordCurrent managerVersion (records m !! carId)
            then records (scan_manager scanned) !! carId = records m !! carId
            else exists record,
                   records (scan_manager scanned) !! carId = Some record
                   /\ verified record = true
                   /\ note record
                      = Some "Marked verified via CarSpecs performance flag."%string
                   /\ measured record = records m !! carId ≫= measured).
  { intros ref car carId Hi Hcar Hid Hflag Hno.
    destruct (isRecordCurrent managerVersion (records m !! carId)) eqn:Hcurrent.
    - apply (scanCars_keeps_current now parseNumber managerVersion None cars
               (mkScan m heap [] false) scanned w w1 carId Hscan Hcurrent).
    - apply (scanCars_marks now parseNumber managerVersion heap cars carId
               (mkScan m heap [] false) scanned w w1 Hnd (fun _ _ => eq_refl) Hscan
               Hcurrent).
      + exists ref, car. auto.
      + intros r c Hr Hc Hcid.
        destruct (isSpecMarkedVerified c) eqn:Hf; [reflexivity|].
        exfalso. apply (Hno r c); [eapply Hin; eassumption|exact Hc|exact Hcid]. }
  (* The cars that the second loop takes have the ids of queued cars. *)
  assert (Hsecond : forall carId,
            (forall other car',
               In other pending -> heap !! other = Some car' -> id car' <> Some carId) ->
            forall r c, In r pending -> scan_heap scanned !! r = Some c ->
                        JS.coalesce (id c) ""%string <> carId).
  { intros carId Hno r c Hr Hc.
    pose proof (scanCars_ids now parseNumber managerVersion None cars
                  (mkScan m heap [] false) scanned w w1 Hscan r) as Hids.
    cbn [scan_heap] in Hids. rewrite Hc in Hids. cbn in Hids.
    pose proof Hr as Hq. rewrite Hpdef in Hq. apply filter_In in Hq.
    destruct Hq as [_ Hq].
    unfold queued in Hq.
    destruct (heap !! r) as [c0|] eqn:Hc0; [|discriminate].
    cbn in Hids. injection Hids as Hids.
    destruct (id c0) as [cid|] eqn:Hcid; [|discriminate].
    rewrite Hids. cbn [JS.coalesce]. intros ->.
    apply (Hno r c0 Hr Hc0). exact Hcid. }
  unfold verifyAllCars.
  destruct cars as [|first rest] eqn:Hcars; [contradiction|].
  rewrite <- Hcars in *. rewrite Hlimit.
  unfold bind at 1. rewrite Hscan. rewrite Hpending.
  destruct pending as [|queued0 others] eqn:Hlist.
  - eexists _, _, _. split; [reflexivity|]. split; [exact Hout|]. split; [exact Hin|].
    split; [auto|]. split; [cbn [List.length]; lia|]. split; [cbn [List.length]; lia|].
    intros ref car carId Hi Hcar Hid Hflag Hno.
    pose proof (Hfirst ref car carId Hi Hcar Hid Hflag Hno) as Hrec.
    destruct (scan_changed scanned); [|exact Hrec].
    unfold persist. destruct supportsStorage; exact Hrec.
  - rewrite <- Hlist in *.
    match goal with
    | |- context [calibratePending _ _ _ _ _ _ ?l ?o ?p ?n ?mm ?hh] =>
        destruct (calibratePending_returns now parseNumber numberToString
                    trim managerVersion describeError l o p n mm hh w1)
          as (done & w2 & Hdone)
    end.
    unfold bind. rewrite Hdone.
    pose proof (calibratePending_work now parseNumber numberToString trim managerVersion
                  describeError _ _ _ _ _ _ _ _ _ Hdone) as Hwork.
    cbn [opt_maxIterations] in Hwork.
    assert (Hrounds :
      Z.to_nat (Z.max 1 (Zfloor match opt_verifyMaxIterations options with
                                | Some n => IZR (Z.max 1 (Zfloor n))
                                | None => 12
                                end)) = rounds).
    { unfold rounds. destruct (opt_verifyMaxIterations options) as [n|].
      - rewrite ZfloorZ. f_equal. lia.
      - rewrite (ZfloorZ 12). reflexivity. }
    rewrite Hrounds in Hwork. destruct Hwork as [Hwork1 Hwork2].
    assert (Hround : (zeroToHundredFuel + topSpeedFuel <= 40000)%nat)
      by (apply Nat.leb_le; vm_compute; reflexivity).
    assert (Hmost : (List.length pending * (S rounds * (zeroToHundredFuel + topSpeedFuel))
                     <= List.length pending * ((rounds + 1) * 40000))%nat).
    { apply Nat.mul_le_mono_l. replace (rounds + 1)%nat with (S rounds) by lia.
      apply Nat.mul_le_mono_l. exact Hround. }
    eexists _, _, _. split; [reflexivity|]. split; [exact Hout|]. split; [exact Hin|].
    split; [intros Hempty; rewrite Hempty in Hlist; discriminate|].
    split; [rewrite <- Hticks; eapply Nat.le_trans; [exact Hwork1|];
            apply Nat.add_le_mono_l; exact Hmost|].
    split; [rewrite <- Htest; replace (rounds + 1)%nat with (S rounds) by lia;
            exact Hwork2|].
    intros ref car carId Hi Hcar Hid Hflag Hno.
    pose proof (Hfirst ref car carId Hi Hcar Hid Hflag Hno) as Hrec.
    pose proof (calibratePending_records now parseNumber numberToString trim
                  managerVersion describeError _ _ _ carId _ _ _ _ _ _ Hdone
                  (Hsecond carId Hno)) as Hkeep.
    assert (Hlast : records (persist supportsStorage done.1) !! carId
                    = records (scan_manager scanned) !! carId).
    { rewrite <- Hkeep. unfold persist. destruct supportsStorage; reflexivity. }
    rewrite Hlast. exact Hrec.
Qed.

Lemma verifyAllCars_queue_witness :
  opt_limit (mkVerifyOptions None None None) = None
  /\ List.NoDup [0%nat; 1%nat]
  /\ exists m' heap' w',
       verifyAllCars tickingClock parseNothing printZero keepText 1 errorName true
                     [0%nat; 1%nat] (mkVerifyOptions None None None)
                     (mkManager ∅ ∅ None) {[ 0%nat := flaggedCar; 1%nat := plainCar ]}
                     startWorld
       = Some ((m', heap', [1%nat]), w')
       /\ (testCars w' <= testCars startWorld + 1 * ((12 + 1) * 2))%nat.
Proof.
  assert (H1 : opt_limit (mkVerifyOptions None None None) = None) by reflexivity.
  assert (H2 : List.NoDup [0%nat; 1%nat]).
  { constructor; [cbn; lia|]. constructor; [cbn; tauto|]. constructor. }
  split; [exact H1|]. split; [exact H2|].
  destruct (verifyAllCars_queue tickingClock parseNothing printZero keepText 1 errorName true
              [0%nat; 1%nat] (mkVerifyOptions None None None) (mkManager ∅ ∅ None)
              {[ 0%nat := flaggedCar; 1%nat := plainCar ]} startWorld H1 H2)
    as (m' & heap' & w' & Hrun & _ & _ & _ & _ & Hcars & _).
  exists m', heap', w'. split; [exact Hrun|exact Hcars].
Defined.
